(** * Token lifecycle engine of fabric8-auth: Audit, ExchangeRefreshToken,
      RegisterToken, ValidateToken

    Shallow embedding of [authorization/token/service/token_service.go].
    The service talks to repositories, the privilege cache and the token
    manager through Go interfaces; here they are the fields of a record of
    collaborators over an abstract database state.  Every function of the
    service is a computation in a small state-and-error monad over a world
    made of the database and the log of the mutating and minting calls. *)

From Stdlib Require Import ZArith String List Sorted Permutation DecimalString.
From stdpp Require Import base decidable option list sorting strings gmap.

Local Open Scope string_scope.
Local Open Scope Z_scope.

(** ** Errors *)

(** Modelled from the spec: package [errors] is not among the sources.  Its
    taxonomy is BadParameter, Unauthorized with coded variants
    (token-deprovisioned, token-revoked-or-logged-out, plain), Internal
    wrapping a cause, and NotFound; any other error of a collaborator is
    [OtherError]. *)
Inductive UnauthorizedCode : Type :=
  | UNAUTHORIZED_CODE_PLAIN
  | UNAUTHORIZED_CODE_TOKEN_DEPROVISIONED
  | UNAUTHORIZED_CODE_TOKEN_REVOKED.

Inductive error : Type :=
  | BadParameterError (param value expected : string)
  | UnauthorizedError (msg : string) (code : UnauthorizedCode)
  | InternalError (cause : error)
  | NotFoundError (entity id : string)
  | OtherError (msg : string).

Definition NewBadParameterErrorFromString := BadParameterError.
Definition NewUnauthorizedError (msg : string) : error :=
  UnauthorizedError msg UNAUTHORIZED_CODE_PLAIN.
Definition NewUnauthorizedErrorWithCode := UnauthorizedError.
Definition NewInternalError := InternalError.

Definition IsUnauthorizedError (err : error) : bool :=
  match err with UnauthorizedError _ _ => true | _ => false end.

Definition IsNotFoundError (err : error) : bool :=
  match err with NotFoundError _ _ => true | _ => false end.

(** A Go call returning [(T, error)] with exactly one of the two set. *)
Inductive result (A : Type) : Type :=
  | Success (a : A)
  | Failure (err : error).
Arguments Success {A} a.
Arguments Failure {A} err.

(** ** Data model *)

(** [uuid.UUID] is sixteen bytes: the 128-bit number. *)
Definition UUID := N.

(** [time.Time] as nanoseconds since the epoch. *)
Definition Time := Z.
Definition After (t u : Time) : bool := u <? t.
Definition Unix (t : Time) : Z := t / 1000000000.
Definition time_Unix (sec nsec : Z) : Time := sec * 1000000000 + nsec.

Record Token : Type := mkToken {
  TokenID : UUID;
  IdentityID : UUID;
  Status : Z;
  TokenType : string;
  ExpiryTime : Time }.

(** Modelled from the spec: the token type constants of package
    [authorization/token] are not among the sources; a token type is "one
    of {ACCESS, REFRESH, RPT}". *)
Definition TOKEN_TYPE_RPT := "RPT".
Definition TOKEN_TYPE_ACCESS := "ACCESS".
Definition TOKEN_TYPE_REFRESH := "REFRESH".

(** Modelled from the spec: [Token.Valid] and [Token.HasStatus] live in
    package [authorization/token], which is not among the sources.
    "Valid() holds iff no flag is set (status == 0)"; the flags are
    independent bits of an integer bitmask tested by membership. *)
Definition Valid (t : Token) : bool := Status t =? 0.
Definition HasStatus (t : Token) (flag : Z) : bool :=
  Z.land (Status t) flag =? flag.

Definition withStatus (t : Token) (s : Z) : Token :=
  mkToken (TokenID t) (IdentityID t) s (TokenType t) (ExpiryTime t).

Record TokenPrivilege : Type := mkTokenPrivilege {
  tp_TokenID : UUID;
  tp_PrivilegeCacheID : UUID }.

(** A privilege cache row, as returned both by [CachedPrivileges] and by
    [ListPrivileges].  The scopes are kept as the list that
    [ScopesAsArray()] returns. *)
Record PrivilegeCache : Type := mkPrivilegeCache {
  PrivilegeCacheID : UUID;
  ResourceID : string;
  ScopesAsArray : list string;
  pc_ExpiryTime : Time;
  Stale : bool }.

(** [manager.Permissions].  [ResourceSetID] is a [*string] in Go; every
    construction site of the service sets it ([&resourceID],
    [&oldPrivResourceID]), so it is kept as the string it points to. *)
Record Permissions : Type := mkPermissions {
  ResourceSetID : string;
  Scopes : list string;
  Expiry : Z }.

(** [manager.TokenClaims]: [Permissions] is a [*[]Permissions]. *)
Record TokenClaims : Type := mkTokenClaims {
  Id : string;
  ExpiresAt : Z;
  claim_Permissions : option (list Permissions) }.

(** A value of a [jwt.MapClaims] entry: a string, or something else,
    carried with its rendering under [fmt.Sprintf("%s", _)]. *)
Inductive ClaimValue : Type :=
  | ClaimString (s : string)
  | ClaimOther (rendered : string).

Record jwtToken : Type := mkJwt {
  Raw : string;
  Claims : gmap string ClaimValue }.

Record User : Type := mkUser { Banned : bool }.

Record Identity : Type := mkIdentity {
  ID : UUID;
  Username : string;
  identity_User : User }.

Record oauth2Token : Type := mkOauth2 {
  AccessToken : string;
  RefreshToken : string }.

Record TokenSet : Type := mkTokenSet {
  ts_AccessToken : string;
  ts_RefreshToken : string }.

(** ** Collaborators *)

Record TokenManager : Type := mkTokenManager {
  ParseToken : string -> result TokenClaims;
  Parse : string -> result jwtToken;
  GenerateUnsignedRPTTokenForIdentity :
    TokenClaims -> Identity -> list Permissions -> result jwtToken;
  SignRPTToken : jwtToken -> result string;
  GenerateUserTokenUsingRefreshToken :
    string -> option Identity -> list Permissions -> result oauth2Token;
  ConvertToken : oauth2Token -> result TokenSet }.

(** Everything the service reaches through [s.config], [s.tokenManager],
    [s.Repositories()], [s.Services()], the request context and the
    libraries [uuid] and [sort].  Reads are functions of the database;
    writes return the new database and may fail.  A Go call returning a
    pointer and an error that the service inspects separately returns the
    pair. *)
Record Env (DB : Type) : Type := mkEnv {
  GetRPTTokenMaxPermissions : Z;
  tokenManager : TokenManager;
  ReadTokenManagerFromContext : result TokenManager;
  uuid_FromString : string -> result UUID;
  error_Error : error -> string;
  sort_Slice :
    (PrivilegeCache -> PrivilegeCache -> bool) ->
    list PrivilegeCache -> list PrivilegeCache;
  TOKEN_STATUS_DEPROVISIONED : Z;
  TOKEN_STATUS_REVOKED : Z;
  TOKEN_STATUS_LOGGED_OUT : Z;
  TOKEN_STATUS_STALE : Z;
  ResourceRepository_CheckExists : string -> DB -> option error;
  TokenRepository_Load : UUID -> DB -> option Token * option error;
  TokenRepository_ListPrivileges : UUID -> DB -> result (list PrivilegeCache);
  TokenRepository_Save : Token -> DB -> option error * DB;
  TokenRepository_Create : Token -> DB -> option error * DB;
  TokenRepository_CreatePrivilege : TokenPrivilege -> DB -> option error * DB;
  Identities_LoadWithUser : UUID -> DB -> option Identity * option error;
  Identities_TouchLastActive : UUID -> DB -> option error * DB;
  CachedPrivileges : UUID -> string -> DB -> result PrivilegeCache }.

Arguments GetRPTTokenMaxPermissions {DB} _.
Arguments tokenManager {DB} _.
Arguments ReadTokenManagerFromContext {DB} _.
Arguments uuid_FromString {DB} _ _.
Arguments error_Error {DB} _ _.
Arguments sort_Slice {DB} _ _ _.
Arguments TOKEN_STATUS_DEPROVISIONED {DB} _.
Arguments TOKEN_STATUS_REVOKED {DB} _.
Arguments TOKEN_STATUS_LOGGED_OUT {DB} _.
Arguments TOKEN_STATUS_STALE {DB} _.
Arguments ResourceRepository_CheckExists {DB} _ _ _.
Arguments TokenRepository_Load {DB} _ _ _.
Arguments TokenRepository_ListPrivileges {DB} _ _ _.
Arguments TokenRepository_Save {DB} _ _ _.
Arguments TokenRepository_Create {DB} _ _ _.
Arguments TokenRepository_CreatePrivilege {DB} _ _ _.
Arguments Identities_LoadWithUser {DB} _ _ _.
Arguments Identities_TouchLastActive {DB} _ _ _.
Arguments CachedPrivileges {DB} _ _ _ _.

(** ** The monad of the service *)

(** The mutating repository calls and the minting calls of the token
    manager, in the order the service makes them. *)
Inductive Call : Type :=
  | CallSave (t : Token)
  | CallCreate (t : Token)
  | CallCreatePrivilege (p : TokenPrivilege)
  | CallTouchLastActive (id : UUID)
  | CallGenerateUnsignedRPT (c : TokenClaims) (i : Identity)
      (perms : list Permissions)
  | CallSignRPT (t : jwtToken)
  | CallGenerateUserToken (refresh : string) (i : option Identity)
      (perms : list Permissions).

Record World (DB : Type) : Type := mkWorld {
  db : DB;
  calls : list Call }.
Arguments mkWorld {DB} _ _.
Arguments db {DB} _.
Arguments calls {DB} _.

Definition initW {DB} (d : DB) : World DB := mkWorld d [].

(** What a Go function call ends in: its values with a nil error, a
    non-nil error, or a run-time panic (nil dereference, failed type
    assertion). *)
Inductive Outcome (A : Type) : Type :=
  | Ok (a : A)
  | Fail (err : error)
  | Panic.
Arguments Ok {A} a.
Arguments Fail {A} err.
Arguments Panic {A}.

Definition M (DB A : Type) : Type := World DB -> Outcome A * World DB.

Definition ret {DB A} (a : A) : M DB A := fun w => (Ok a, w).
Definition fail {DB A} (e : error) : M DB A := fun w => (Fail e, w).
Definition panic {DB A} : M DB A := fun w => (Panic, w).

Definition bind {DB A B} (m : M DB A) (f : A -> M DB B) : M DB B :=
  fun w =>
    match m w with
    | (Ok a, w') => f a w'
    | (Fail e, w') => (Fail e, w')
    | (Panic, w') => (Panic, w')
    end.

Declare Scope svc_scope.
Delimit Scope svc_scope with svc.
Notation "x <- m ;; k" := (bind m (fun x => k))
  (at level 100, m at next level, right associativity) : svc_scope.
Notation "m ;;; k" := (bind m (fun _ => k))
  (at level 100, right associativity) : svc_scope.
Local Open Scope svc_scope.

(** A read of the database. *)
Definition get {DB A} (f : DB -> A) : M DB A := fun w => (Ok (f (db w)), w).

(** A mutating repository call: logged, returns the Go error value. *)
Definition write {DB} (c : Call) (f : DB -> option error * DB)
  : M DB (option error) :=
  fun w => let (e, d) := f (db w) in (Ok e, mkWorld d (calls w ++ [c])).

(** A call into the token manager that mints or signs: logged. *)
Definition mint {DB A} (c : Call) (r : result A) : M DB (result A) :=
  fun w => (Ok r, mkWorld (db w) (calls w ++ [c])).

(** Modelled from the spec: [BaseService.ExecuteInTransaction] is not among
    the sources.  "All writes become visible together or none do; a failure
    triggers full rollback": when the body does not return nil the database
    is the one the transaction started from.  The Go closures assign their
    products to variables of the enclosing function; here the body returns
    them. *)
Definition ExecuteInTransaction {DB A} (body : M DB A) : M DB A :=
  fun w =>
    match body w with
    | (Ok a, w') => (Ok a, w')
    | (Fail e, w') => (Fail e, mkWorld (db w) (calls w'))
    | (Panic, w') => (Panic, mkWorld (db w) (calls w'))
    end.

(** [err = f(); if err != nil { return wrap(err) }] around a whole call. *)
Definition mapFail {DB A} (wrap : error -> error) (m : M DB A) : M DB A :=
  fun w =>
    match m w with
    | (Fail e, w') => (Fail (wrap e), w')
    | r => r
    end.

(** ** Library functions *)

(** [strconv.ParseBool]: the accepted spellings; anything else is a syntax
    error (and Go then returns [false] with it). *)
Definition ParseBool (str : string) : option bool :=
  if existsb (String.eqb str) ["1"; "t"; "T"; "TRUE"; "true"; "True"]
  then Some true
  else if existsb (String.eqb str) ["0"; "f"; "F"; "FALSE"; "false"; "False"]
  then Some false
  else None.

(** [fmt.Sprintf("%s", v)] on a claim value. *)
Definition Sprintf_s (v : ClaimValue) : string :=
  match v with ClaimString s => s | ClaimOther r => r end.

(** ** scopesEquivalent *)

(** The inner loop: is [val1] among [value2]? *)
Fixpoint scopeFound (val1 : string) (value2 : list string) : bool :=
  match value2 with
  | [] => false
  | val2 :: rest => if String.eqb val1 val2 then true else scopeFound val1 rest
  end.

(** The outer loop: false at the first [val1] that is not found. *)
Fixpoint allScopesFound (value1 value2 : list string) : bool :=
  match value1 with
  | [] => true
  | val1 :: rest =>
      if negb (scopeFound val1 value2) then false
      else allScopesFound rest value2
  end.

Definition scopesEquivalent (value1 value2 : list string) : bool :=
  if negb (Nat.eqb (length value1) (length value2)) then false
  else allScopesFound value1 value2.

(** ** The service *)

Section Service.
Context {DB : Type} (env : Env DB).

(** [for { tokenPriv.TokenID = tokenID; err = CreatePrivilege(&tokenPriv);
    if err != nil { return wrap(err) } }] *)
Fixpoint createPrivileges (tokenID : UUID) (wrap : error -> error)
    (privileges : list TokenPrivilege) : M DB unit :=
  match privileges with
  | [] => ret tt
  | tokenPriv :: rest =>
      let tokenPriv := mkTokenPrivilege tokenID (tp_PrivilegeCacheID tokenPriv) in
      err <- write (CallCreatePrivilege tokenPriv)
               (TokenRepository_CreatePrivilege env tokenPriv) ;;
      match err with
      | Some e => fail (wrap e)
      | None => createPrivileges tokenID wrap rest
      end
  end.

(** A nil slice and an empty one behave alike ([privileges != nil &&
    len(privileges) > 0]), so [privileges] is a list. *)
Definition RegisterToken (identityID : UUID) (tokenString tokenType : string)
    (privileges : list TokenPrivilege) : M DB Token :=
  match ParseToken (tokenManager env) tokenString with
  | Failure _ =>
      fail (NewBadParameterErrorFromString "tokenString" tokenString
              "invalid token string could not be parsed")
  | Success tokenClaims =>
  match uuid_FromString env (Id tokenClaims) with
  | Failure _ =>
      fail (NewBadParameterErrorFromString "tokenString" tokenString
              "could not extract token ID from token string")
  | Success tokenID =>
      let expiryTime := time_Unix (ExpiresAt tokenClaims) 0 in
      let tkn := mkToken tokenID identityID 0 tokenType expiryTime in
      mapFail NewInternalError
        (ExecuteInTransaction
           (err <- write (CallCreate tkn) (TokenRepository_Create env tkn) ;;
            match err with
            | Some e => fail e
            | None => createPrivileges tokenID (fun e => e) privileges
            end)) ;;;
      ret tkn
  end end.

Definition ValidateToken (accessToken : jwtToken) : M DB unit :=
  let claims := Claims accessToken in
  match claims !! "jti" with
  | Some (ClaimString jti) =>
    match uuid_FromString env jti with
    | Failure _ =>
        fail (NewBadParameterErrorFromString "token" (Raw accessToken)
                "could not extract token ID from token")
    | Success tokenID =>
      loaded <- get (TokenRepository_Load env tokenID) ;;
      match snd loaded with
      | Some err => fail err
      | None =>
        match fst loaded with
        | None => panic
        | Some tkn =>
          if negb (Valid tkn) then fail (NewUnauthorizedError "invalid token")
          else
            transient <-
              match claims !! "transient" with
              | None => ret false
              | Some (ClaimString transClaim) =>
                  match ParseBool transClaim with
                  | Some b => ret b
                  | None => ret false
                  end
              | Some (ClaimOther _) => panic
              end ;;
            if negb transient then
              match claims !! "sub" with
              | Some (ClaimString sub) =>
                match uuid_FromString env sub with
                | Failure _ =>
                    fail (NewBadParameterErrorFromString "token"
                            (Raw accessToken)
                            "could not extract identity ID from token")
                | Success identityID =>
                    err <- write (CallTouchLastActive identityID)
                             (Identities_TouchLastActive env identityID) ;;
                    match err with
                    | Some e => fail (NewInternalError e)
                    | None => ret tt
                    end
                end
              | _ => panic
              end
            else ret tt
        end
      end
    end
  | _ => panic
  end.

(** [resourceExistsInToken]: the loop over [*tokenClaims.Permissions]
    has no break. *)
Definition resourceExistsInToken (loadedToken : option Token)
    (tokenClaims : TokenClaims) (resourceID : string) : bool :=
  match loadedToken, claim_Permissions tokenClaims with
  | Some _, Some permissions =>
      fold_left
        (fun found tokenPermission =>
           if String.eqb (ResourceSetID tokenPermission) resourceID
           then true else found)
        permissions false
  | _, _ => false
  end.

(** [resourceFound]: the loop over [privileges] has no break. *)
Definition resourceFound (privileges : list PrivilegeCache)
    (resourceSetID : string) : bool :=
  fold_left
    (fun found priv =>
       if String.eqb (ResourceID priv) resourceSetID then true else found)
    privileges false.

(** The loop over the permissions of a stale token: the pair
    [(scopesChanged, permissionsChanged)] when it ends or breaks, or the
    error of the privilege cache. *)
Fixpoint compareScopes (d : DB) (identityID : UUID)
    (privileges : list PrivilegeCache) (permissions : list Permissions)
    : result (bool * bool) :=
  match permissions with
  | [] => Success (false, false)
  | tokenPermission :: rest =>
      match CachedPrivileges env identityID (ResourceSetID tokenPermission) d with
      | Failure err => Failure err
      | Success privilegeCache =>
          let scopes := ScopesAsArray privilegeCache in
          if negb (scopesEquivalent (Scopes tokenPermission) scopes)
          then Success (true, false)
          else if negb (resourceFound privileges (ResourceSetID tokenPermission))
          then Success (false, true)
          else compareScopes d identityID privileges rest
      end
  end.

Definition byExpiryLatestFirst (a b : PrivilegeCache) : bool :=
  After (pc_ExpiryTime a) (pc_ExpiryTime b).

(** The migration loop of [Audit] over the sorted privileges of the old
    token; [perms] and [tokenPrivs] are the slices being appended to. *)
Fixpoint auditMigrate (d : DB) (identityID : UUID) (resourceID : string)
    (oldTokenPrivs : list PrivilegeCache)
    (perms : list Permissions) (tokenPrivs : list TokenPrivilege)
    : result (list Permissions * list TokenPrivilege) :=
  match oldTokenPrivs with
  | [] => Success (perms, tokenPrivs)
  | oldPriv :: rest =>
      if Z.of_nat (length perms) >=? GetRPTTokenMaxPermissions env
      then Success (perms, tokenPrivs)
      else if String.eqb (ResourceID oldPriv) resourceID
      then auditMigrate d identityID resourceID rest perms tokenPrivs
      else
        let oldPrivResourceID := ResourceID oldPriv in
        let tokenPriv := mkTokenPrivilege 0%N (PrivilegeCacheID oldPriv) in
        if Stale oldPriv then
          match CachedPrivileges env identityID oldPrivResourceID d with
          | Failure err => Failure err
          | Success privilegeCache =>
              auditMigrate d identityID resourceID rest
                (perms ++ [mkPermissions oldPrivResourceID
                             (ScopesAsArray privilegeCache)
                             (Unix (pc_ExpiryTime privilegeCache))])
                (tokenPrivs ++ [tokenPriv])
          end
        else
          auditMigrate d identityID resourceID rest
            (perms ++ [mkPermissions oldPrivResourceID
                         (ScopesAsArray oldPriv)
                         (Unix (pc_ExpiryTime oldPriv))])
            (tokenPrivs ++ [tokenPriv])
  end.

(** The first half of the body of the transaction of [Audit]: the
    permissions of the new token and the token privileges to persist. *)
Definition auditPermissions (identity : Identity) (resourceID : string)
    (loadedToken : option Token)
    : M DB (list Permissions * list TokenPrivilege) :=
  cached <- get (CachedPrivileges env (ID identity) resourceID) ;;
  match cached with
  | Failure err => fail (NewInternalError err)
  | Success privilegeCache =>
    let perms := [mkPermissions resourceID (ScopesAsArray privilegeCache)
                    (Unix (pc_ExpiryTime privilegeCache))] in
    let tokenPrivs :=
      [mkTokenPrivilege 0%N (PrivilegeCacheID privilegeCache)] in
    match loadedToken with
    | None => ret (perms, tokenPrivs)
    | Some loadedToken =>
        listed <- get (TokenRepository_ListPrivileges env (TokenID loadedToken)) ;;
        match listed with
        | Failure err => fail (NewInternalError err)
        | Success oldTokenPrivs =>
            let oldTokenPrivs := sort_Slice env byExpiryLatestFirst oldTokenPrivs in
            looped <- get (fun d => auditMigrate d (ID identity) resourceID
                                      oldTokenPrivs perms tokenPrivs) ;;
            match looped with
            | Failure err => fail err
            | Success r => ret r
            end
        end
    end
  end.

(** The second half: generate, sign and register the new token with its
    privileges; returns [signedToken]. *)
Definition issueRPT (tokenManager : TokenManager) (tokenClaims : TokenClaims)
    (identity : Identity) (perms : list Permissions)
    (tokenPrivs : list TokenPrivilege) : M DB string :=
  generated <- mint (CallGenerateUnsignedRPT tokenClaims identity perms)
                 (GenerateUnsignedRPTTokenForIdentity tokenManager
                    tokenClaims identity perms) ;;
  match generated with
  | Failure err => fail (NewInternalError err)
  | Success generatedToken =>
    signed <- mint (CallSignRPT generatedToken)
                (SignRPTToken tokenManager generatedToken) ;;
    match signed with
    | Failure err => fail (NewInternalError err)
    | Success signedToken =>
        newTokenRecord <-
          mapFail NewInternalError
            (RegisterToken (ID identity) signedToken TOKEN_TYPE_RPT []) ;;
        createPrivileges (TokenID newTokenRecord) NewInternalError tokenPrivs ;;;
        ret signedToken
    end
  end.

(** The body of the transaction of [Audit]. *)
Definition mintRPT (tokenManager : TokenManager) (tokenClaims : TokenClaims)
    (identity : Identity) (resourceID : string)
    (loadedToken : option Token) : M DB string :=
  migrated <- auditPermissions identity resourceID loadedToken ;;
  issueRPT tokenManager tokenClaims identity (fst migrated) (snd migrated).

(** [Audit] returns a string pointer and an error: [Ok None] is
    [(nil, nil)], [Ok (Some s)] is [(&s, nil)], [Fail e] is [(nil, e)]. *)
Definition Audit (identity : Identity) (tokenString resourceID : string)
    : M DB (option string) :=
  exists_err <- get (ResourceRepository_CheckExists env resourceID) ;;
  match exists_err with
  | Some err =>
      if IsNotFoundError err
      then fail (NewBadParameterErrorFromString "resourceID" resourceID
                   "resource does not exist")
      else fail err
  | None =>
  match ReadTokenManagerFromContext env with
  | Failure err => fail (NewInternalError err)
  | Success tokenManager =>
  match ParseToken tokenManager tokenString with
  | Failure _ =>
      fail (NewBadParameterErrorFromString "tokenString" tokenString
              "invalid token string could not be parsed")
  | Success tokenClaims =>
  match uuid_FromString env (Id tokenClaims) with
  | Failure _ =>
      fail (NewBadParameterErrorFromString "jti" (Id tokenClaims)
              "invalid jti identifier - not a UUID")
  | Success tokenID =>
    loaded <- get (TokenRepository_Load env tokenID) ;;
    let loadedToken := fst loaded in
    let resourceExists := resourceExistsInToken loadedToken tokenClaims resourceID in
    let generate : M DB (option string) :=
      signedToken <- ExecuteInTransaction
                       (mintRPT tokenManager tokenClaims identity resourceID
                          loadedToken) ;;
      ret (Some signedToken) in
    match loadedToken with
    | None => generate
    | Some tok =>
      if negb (N.eqb (IdentityID tok) (ID identity))
      then fail (NewUnauthorizedError "invalid token for identity")
      else if Valid tok && resourceExists
      then ret None
      else if HasStatus tok (TOKEN_STATUS_DEPROVISIONED env)
      then fail (NewUnauthorizedErrorWithCode "token banned"
                   UNAUTHORIZED_CODE_TOKEN_DEPROVISIONED)
      else if HasStatus tok (TOKEN_STATUS_REVOKED env)
              || HasStatus tok (TOKEN_STATUS_LOGGED_OUT env)
      then fail (NewUnauthorizedErrorWithCode "token revoked or logged out"
                   UNAUTHORIZED_CODE_TOKEN_REVOKED)
      else if HasStatus tok (TOKEN_STATUS_STALE env) && resourceExists
      then
        listed <- get (TokenRepository_ListPrivileges env tokenID) ;;
        match listed with
        | Failure err => fail (NewInternalError err)
        | Success privileges =>
          match claim_Permissions tokenClaims with
          | None => panic
          | Some permissions =>
            compared <-
              (if negb (Nat.eqb (length privileges) (length permissions))
               then ret (Success (false, true))
               else get (fun d => compareScopes d (ID identity) privileges
                                    permissions)) ;;
            match compared with
            | Failure err => fail (NewInternalError err)
            | Success (scopesChanged, permissionsChanged) =>
                if negb scopesChanged && negb permissionsChanged
                then
                  let tok := withStatus tok 0 in
                  err <- write (CallSave tok) (TokenRepository_Save env tok) ;;
                  match err with
                  | Some e => fail (NewInternalError e)
                  | None => ret None
                  end
                else generate
            end
          end
        end
      else generate
    end
  end end end end.


(** The migration loop of [ExchangeRefreshToken]: no resource is skipped,
    an entry is refreshed when the old token is stale or the entry is. *)
Fixpoint exchangeMigrate (d : DB) (identityID : UUID) (loadedToken : Token)
    (oldTokenPrivs : list PrivilegeCache)
    (permissions : list Permissions) (tokenPrivs : list TokenPrivilege)
    : result (list Permissions * list TokenPrivilege) :=
  match oldTokenPrivs with
  | [] => Success (permissions, tokenPrivs)
  | oldPriv :: rest =>
      if Z.of_nat (length permissions) >=? GetRPTTokenMaxPermissions env
      then Success (permissions, tokenPrivs)
      else
        let oldPrivResourceID := ResourceID oldPriv in
        let tokenPriv := mkTokenPrivilege 0%N (PrivilegeCacheID oldPriv) in
        if HasStatus loadedToken (TOKEN_STATUS_STALE env) || Stale oldPriv then
          match CachedPrivileges env identityID oldPrivResourceID d with
          | Failure err => Failure (NewInternalError err)
          | Success privilegeCache =>
              exchangeMigrate d identityID loadedToken rest
                (permissions ++ [mkPermissions oldPrivResourceID
                                   (ScopesAsArray privilegeCache)
                                   (Unix (pc_ExpiryTime privilegeCache))])
                (tokenPrivs ++ [tokenPriv])
          end
        else
          exchangeMigrate d identityID loadedToken rest
            (permissions ++ [mkPermissions oldPrivResourceID
                               (ScopesAsArray oldPriv)
                               (Unix (pc_ExpiryTime oldPriv))])
            (tokenPrivs ++ [tokenPriv])
  end.

(** The first block of the transaction of [ExchangeRefreshToken], entered
    when [identity != nil && rptToken != ""]: the permissions and the
    token privileges carried over from the RPT token. *)
Definition exchangePermissions (identity : Identity) (rptToken : string)
    : M DB (list Permissions * list TokenPrivilege) :=
  match ParseToken (tokenManager env) rptToken with
  | Failure _ =>
      fail (NewUnauthorizedError "invalid RPT token could not be parsed")
  | Success tokenClaims =>
  match uuid_FromString env (Id tokenClaims) with
  | Failure _ =>
      fail (NewUnauthorizedError "could not extract token ID from RPT token")
  | Success tokenID =>
    loaded <- get (TokenRepository_Load env tokenID) ;;
    match fst loaded with
    | None => ret ([], [])
    | Some loadedToken =>
      if negb (N.eqb (IdentityID loadedToken) (ID identity))
      then fail (NewUnauthorizedError "invalid token for identity")
      else if HasStatus loadedToken (TOKEN_STATUS_DEPROVISIONED env)
      then fail (NewUnauthorizedErrorWithCode "token banned"
                   UNAUTHORIZED_CODE_TOKEN_DEPROVISIONED)
      else if HasStatus loadedToken (TOKEN_STATUS_REVOKED env)
              || HasStatus loadedToken (TOKEN_STATUS_LOGGED_OUT env)
      then fail (NewUnauthorizedErrorWithCode "token revoked or logged out"
                   UNAUTHORIZED_CODE_TOKEN_REVOKED)
      else
        listed <- get (TokenRepository_ListPrivileges env (TokenID loadedToken)) ;;
        match listed with
        | Failure err => fail (NewInternalError err)
        | Success oldTokenPrivs =>
            let oldTokenPrivs := sort_Slice env byExpiryLatestFirst oldTokenPrivs in
            looped <- get (fun d => exchangeMigrate d (ID identity) loadedToken
                                      oldTokenPrivs [] []) ;;
            match looped with
            | Failure err => fail err
            | Success r => ret r
            end
        end
    end
  end end.

(** The body of the transaction of [ExchangeRefreshToken]; returns
    [generatedToken].  [identity.ID] panics on a nil identity. *)
Definition exchangeTransaction (identity : option Identity)
    (refreshToken rptToken : string) : M DB oauth2Token :=
  migrated <-
    match identity with
    | Some i =>
        if negb (String.eqb rptToken "") then exchangePermissions i rptToken
        else ret ([], [])
    | None => ret ([], [])
    end ;;
  let permissions := fst migrated in
  let tokenPrivs := snd migrated in
  generated <- mint (CallGenerateUserToken refreshToken identity permissions)
                 (GenerateUserTokenUsingRefreshToken (tokenManager env)
                    refreshToken identity permissions) ;;
  match generated with
  | Failure err => fail err
  | Success generatedToken =>
    match identity with
    | None => panic
    | Some i =>
        mapFail NewInternalError
          (if (0 <? length permissions)%nat
           then RegisterToken (ID i) (AccessToken generatedToken)
                  TOKEN_TYPE_RPT tokenPrivs
           else RegisterToken (ID i) (AccessToken generatedToken)
                  TOKEN_TYPE_ACCESS []) ;;;
        mapFail NewInternalError
          (RegisterToken (ID i) (RefreshToken generatedToken)
             TOKEN_TYPE_REFRESH []) ;;;
        ret generatedToken
    end
  end.

Definition ExchangeRefreshToken (refreshToken rptToken : string)
    : M DB TokenSet :=
  match Parse (tokenManager env) refreshToken with
  | Failure err => fail (NewUnauthorizedError (error_Error env err))
  | Success tkn =>
    mapFail (fun err => NewUnauthorizedError (error_Error env err))
      (ValidateToken tkn) ;;;
    let claims := Claims tkn in
    match claims !! "sub" with
    | None =>
        fail (NewUnauthorizedError "missing 'sub' claim in the refresh token")
    | Some sub =>
      match uuid_FromString env (Sprintf_s sub) with
      | Failure err => fail (NewUnauthorizedError (error_Error env err))
      | Success identityID =>
        loaded <- get (Identities_LoadWithUser env identityID) ;;
        let identity := fst loaded in
        let unauthorized :=
          match snd loaded with
          | Some err => if IsUnauthorizedError err then Some err else None
          | None => None
          end in
        match unauthorized with
        | Some err => fail err
        | None =>
          if match identity with
             | Some i => Banned (identity_User i)
             | None => false
             end
          then fail (NewUnauthorizedError "unauthorized access")
          else
            generatedToken <-
              ExecuteInTransaction
                (exchangeTransaction identity refreshToken rptToken) ;;
            match ConvertToken (tokenManager env) generatedToken with
            | Failure err => fail err
            | Success tokenSet => ret tokenSet
            end
        end
      end
    end
  end.

End Service.

(** ** A concrete deployment, for examples *)

Module Demo.

(** A store with a token table, the privilege rows of each token, the
    privilege cache of each identity and resource, the identities, and
    the identities whose last-active stamp was touched. *)
Record Store : Type := mkStore {
  tokens : list Token;
  privileges : list (UUID * PrivilegeCache);
  cache : list (UUID * PrivilegeCache);
  identities : list Identity;
  resources : list string;
  touched : list UUID }.

Definition parseUUID (s : string) : result UUID :=
  match NilEmpty.uint_of_string s with
  | Some u => Success (N.of_uint u)
  | None => Failure (OtherError "uuid: incorrect UUID format")
  end.

Definition checkExists (r : string) (st : Store) : option error :=
  if existsb (String.eqb r) (resources st) then None
  else Some (NotFoundError "resource" r).

Definition load (id : UUID) (st : Store) : option Token * option error :=
  match find (fun t => N.eqb (TokenID t) id) (tokens st) with
  | Some t => (Some t, None)
  | None => (None, Some (NotFoundError "token" ""))
  end.

Definition listPrivileges (id : UUID) (st : Store)
  : result (list PrivilegeCache) :=
  Success (map snd (List.filter (fun r => N.eqb (fst r) id) (privileges st))).

Definition cached (identityID : UUID) (r : string) (st : Store)
  : result PrivilegeCache :=
  match find (fun row => N.eqb (fst row) identityID
                         && String.eqb (ResourceID (snd row)) r) (cache st) with
  | Some row => Success (snd row)
  | None => Failure (NotFoundError "privilege" r)
  end.

Definition save (t : Token) (st : Store) : option error * Store :=
  (None,
   mkStore
     (map (fun u => if N.eqb (TokenID u) (TokenID t) then t else u) (tokens st))
     (privileges st) (cache st) (identities st) (resources st) (touched st)).

Definition create (t : Token) (st : Store) : option error * Store :=
  (None,
   mkStore (tokens st ++ [t]) (privileges st) (cache st) (identities st)
     (resources st) (touched st)).

Definition createPrivilege (p : TokenPrivilege) (st : Store)
  : option error * Store :=
  match find (fun row => N.eqb (PrivilegeCacheID row) (tp_PrivilegeCacheID p))
          (map snd (cache st) ++ map snd (privileges st)) with
  | Some row =>
      (None,
       mkStore (tokens st) (privileges st ++ [(tp_TokenID p, row)])
         (cache st) (identities st) (resources st) (touched st))
  | None => (Some (OtherError "foreign key violation"), st)
  end.

Definition loadWithUser (id : UUID) (st : Store)
  : option Identity * option error :=
  match find (fun i => N.eqb (ID i) id) (identities st) with
  | Some i => (Some i, None)
  | None => (None, Some (NotFoundError "identity" ""))
  end.

Definition touchLastActive (id : UUID) (st : Store) : option error * Store :=
  (None,
   mkStore (tokens st) (privileges st) (cache st) (identities st)
     (resources st) (touched st ++ [id])).

(** A store whose writes are refused. *)
Definition refuse {A} (_ : A) (st : Store) : option error * Store :=
  (Some (OtherError "connection lost"), st).

Definition lookupS {A} (k : string) (l : list (string * A)) : option A :=
  match find (fun kv => String.eqb (fst kv) k) l with
  | Some kv => Some (snd kv)
  | None => None
  end.

(** A token manager over a table of the token strings it accepts.  The
    tokens it generates are named after the number of permissions they
    carry, and must be in the table to be parsed again. *)
Definition manager (known : list (string * TokenClaims))
    (knownJwt : list (string * jwtToken)) : TokenManager :=
  mkTokenManager
    (fun s => match lookupS s known with
              | Some c => Success c
              | None => Failure (OtherError "token is malformed")
              end)
    (fun s => match lookupS s knownJwt with
              | Some t => Success t
              | None => Failure (OtherError "token is malformed")
              end)
    (fun _ _ perms => Success (mkJwt "rpt" ∅))
    (fun t => Success (Raw t))
    (fun _ _ perms => Success (mkOauth2 "access" "refresh"))
    (fun t => Success (mkTokenSet (AccessToken t) (RefreshToken t))).

Definition sortLatestFirst
    (less : PrivilegeCache -> PrivilegeCache -> bool)
    (l : list PrivilegeCache) : list PrivilegeCache :=
  merge_sort (fun a b => negb (less b a)) l.

Definition demoEnv (max : Z) (known : list (string * TokenClaims))
    (knownJwt : list (string * jwtToken)) (readOnly : bool) : Env Store :=
  mkEnv Store max (manager known knownJwt)
    (Success (manager known knownJwt))
    parseUUID
    (fun _ => "error")
    sortLatestFirst
    1 2 4 8
    checkExists load listPrivileges
    (if readOnly then refuse else save)
    (if readOnly then refuse else create)
    (if readOnly then refuse else createPrivilege)
    loadWithUser
    (if readOnly then refuse else touchLastActive)
    cached.

End Demo.

(** ** Conditions on the collaborators *)

(** The status flags are independent bits: none is zero and no two
    overlap. *)
Definition independentFlags {DB} (env : Env DB) : Prop :=
  TOKEN_STATUS_DEPROVISIONED env <> 0 /\
  TOKEN_STATUS_REVOKED env <> 0 /\
  TOKEN_STATUS_LOGGED_OUT env <> 0 /\
  TOKEN_STATUS_STALE env <> 0 /\
  Z.land (TOKEN_STATUS_STALE env) (TOKEN_STATUS_DEPROVISIONED env) = 0 /\
  Z.land (TOKEN_STATUS_STALE env) (TOKEN_STATUS_REVOKED env) = 0 /\
  Z.land (TOKEN_STATUS_STALE env) (TOKEN_STATUS_LOGGED_OUT env) = 0 /\
  Z.land (TOKEN_STATUS_REVOKED env) (TOKEN_STATUS_DEPROVISIONED env) = 0 /\
  Z.land (TOKEN_STATUS_LOGGED_OUT env) (TOKEN_STATUS_DEPROVISIONED env) = 0 /\
  Z.land (TOKEN_STATUS_REVOKED env) (TOKEN_STATUS_LOGGED_OUT env) = 0.

(** The contract of [sort.Slice] for the comparison the service passes:
    the result is a rearrangement of the slice in which no element is
    before one that is less than it; nothing is said on the order of
    elements that compare equal (the sort is not stable). *)
Definition sortContract {DB} (env : Env DB) : Prop :=
  forall l : list PrivilegeCache,
    Permutation (sort_Slice env byExpiryLatestFirst l) l /\
    Sorted (fun a b => byExpiryLatestFirst b a = false)
      (sort_Slice env byExpiryLatestFirst l).


(** How one privilege of the old token is carried into the new token by
    [Audit]: under the same resource, with the scopes and expiry of the
    privilege cache when the privilege is stale, with its own otherwise. *)
Definition migrates {DB} (env : Env DB) (d : DB) (identityID : UUID)
    (oldPriv : PrivilegeCache) (perm : Permissions) : Prop :=
  ResourceSetID perm = ResourceID oldPriv /\
  if Stale oldPriv then
    exists privilegeCache,
      CachedPrivileges env identityID (ResourceID oldPriv) d
        = Success privilegeCache /\
      Scopes perm = ScopesAsArray privilegeCache /\
      Expiry perm = Unix (pc_ExpiryTime privilegeCache)
  else
    Scopes perm = ScopesAsArray oldPriv /\
    Expiry perm = Unix (pc_ExpiryTime oldPriv).

(** The permission entered for the requested resource. *)
Definition requestedPermission (resourceID : string)
    (privilegeCache : PrivilegeCache) : Permissions :=
  mkPermissions resourceID (ScopesAsArray privilegeCache)
    (Unix (pc_ExpiryTime privilegeCache)).

(** ** Reasoning on the log of calls *)

(** [m] keeps the property [P] of every logged call. *)
Definition preserves {DB A} (P : Call -> Prop) (m : M DB A) : Prop :=
  forall w, Forall P (calls w) -> Forall P (calls (snd (m w))).

(** The permission list that the mint transaction of [Audit] computes in
    the database [d] when the token record [loadedToken] was found (or
    none was), in the terms of the code: the entry of the requested
    resource, extended by the migration loop over the sorted privileges of
    the old token. *)
Definition mintedPermissions {DB} (env : Env DB) (d : DB)
    (identity : Identity) (resourceID : string) (loadedToken : option Token)
    (perms : list Permissions) : Prop :=
  exists privilegeCache,
    CachedPrivileges env (ID identity) resourceID d = Success privilegeCache /\
    match loadedToken with
    | None => perms = [requestedPermission resourceID privilegeCache]
    | Some loadedToken =>
        exists oldTokenPrivs tokenPrivs,
          TokenRepository_ListPrivileges env (TokenID loadedToken) d
            = Success oldTokenPrivs /\
          auditMigrate env d (ID identity) resourceID
            (sort_Slice env byExpiryLatestFirst oldTokenPrivs)
            [requestedPermission resourceID privilegeCache]
            [mkTokenPrivilege 0%N (PrivilegeCacheID privilegeCache)]
          = Success (perms, tokenPrivs)
    end.

(** ** Example data *)

Module Scenario.
Import Demo.

Definition alice : Identity := mkIdentity 1%N "alice" (mkUser false).
Definition mallory : Identity := mkIdentity 2%N "mallory" (mkUser true).

Definition seconds (s : Z) : Time := time_Unix s 0.

(** The live privilege of alice on the requested resource. *)
Definition liveR : PrivilegeCache :=
  mkPrivilegeCache 1000%N "R" ["write"; "read"] (seconds 500) false.

(** Twelve privileges of an old token, in no particular order; the one on
    "H06" is stale and its live version has other scopes. *)
Definition historical : list PrivilegeCache :=
  [ mkPrivilegeCache 101%N "H01" ["read"] (seconds 30) false;
    mkPrivilegeCache 102%N "H02" ["read"] (seconds 120) false;
    mkPrivilegeCache 103%N "H03" ["read"] (seconds 10) false;
    mkPrivilegeCache 104%N "H04" ["read"] (seconds 90) false;
    mkPrivilegeCache 105%N "H05" ["read"] (seconds 60) false;
    mkPrivilegeCache 106%N "H06" ["read"] (seconds 110) true;
    mkPrivilegeCache 107%N "H07" ["read"] (seconds 20) false;
    mkPrivilegeCache 108%N "H08" ["read"] (seconds 100) false;
    mkPrivilegeCache 109%N "H09" ["read"] (seconds 50) false;
    mkPrivilegeCache 110%N "H10" ["read"] (seconds 80) false;
    mkPrivilegeCache 111%N "H11" ["read"] (seconds 40) false;
    mkPrivilegeCache 112%N "H12" ["read"] (seconds 70) false ].

Definition liveH06 : PrivilegeCache :=
  mkPrivilegeCache 2006%N "H06" ["admin"] (seconds 600) false.

(** Token records: 10 valid with the twelve privileges; 20 stale, 21 stale
    with a repeated scope embedded; 40 of another identity; 41
    deprovisioned, 42 revoked, 43 logged out; 30 and 31 the refresh tokens
    of alice and mallory, 32 a revoked refresh token. *)
Definition tokenRecords : list Token :=
  [ mkToken 10%N 1%N 0 TOKEN_TYPE_RPT (seconds 900);
    mkToken 20%N 1%N 8 TOKEN_TYPE_RPT (seconds 900);
    mkToken 21%N 1%N 8 TOKEN_TYPE_RPT (seconds 900);
    mkToken 40%N 2%N 0 TOKEN_TYPE_RPT (seconds 900);
    mkToken 41%N 1%N 1 TOKEN_TYPE_RPT (seconds 900);
    mkToken 42%N 1%N 2 TOKEN_TYPE_RPT (seconds 900);
    mkToken 43%N 1%N 4 TOKEN_TYPE_RPT (seconds 900);
    mkToken 30%N 1%N 0 TOKEN_TYPE_REFRESH (seconds 900);
    mkToken 31%N 2%N 0 TOKEN_TYPE_REFRESH (seconds 900);
    mkToken 32%N 1%N 2 TOKEN_TYPE_REFRESH (seconds 900) ].

Definition store : Store :=
  mkStore tokenRecords
    (map (fun h => (10%N, h)) historical ++ [(20%N, liveR); (21%N, liveR)])
    [(1%N, liveR); (1%N, liveH06)]
    [alice; mallory]
    ["R"; "H01"; "H06"]
    [].

Definition embeds (scopes : list string) : option (list Permissions) :=
  Some [mkPermissions "R" scopes 500].

(** The token strings the token manager parses. *)
Definition known : list (string * TokenClaims) :=
  [ ("rpt-10", mkTokenClaims "10" 900 (Some [mkPermissions "H01" ["read"] 30]));
    ("rpt-10R", mkTokenClaims "10" 900 (embeds ["read"; "write"]));
    ("rpt-20", mkTokenClaims "20" 900 (embeds ["read"; "write"]));
    ("rpt-21", mkTokenClaims "21" 900 (embeds ["read"; "read"]));
    ("rpt-40", mkTokenClaims "40" 900 (embeds ["read"; "write"]));
    ("rpt-41", mkTokenClaims "41" 900 (embeds ["read"; "write"]));
    ("rpt-42", mkTokenClaims "42" 900 (embeds ["read"; "write"]));
    ("rpt-43", mkTokenClaims "43" 900 (embeds ["read"; "write"]));
    ("rpt-99", mkTokenClaims "99" 900 None);
    ("rpt", mkTokenClaims "11" 950 None);
    ("access", mkTokenClaims "12" 950 None);
    ("refresh", mkTokenClaims "13" 990 None) ].

Definition refreshOf (jti sub : string) : jwtToken :=
  mkJwt "refresh" (<["jti" := ClaimString jti]> (<["sub" := ClaimString sub]> ∅)).

Definition knownJwt : list (string * jwtToken) :=
  [ ("refresh-30", refreshOf "30" "1");
    ("refresh-31", refreshOf "31" "2") ].

Definition env (max : Z) : Env Store := demoEnv max known knownJwt false.

(** An access token whose "transient" claim is not a boolean. *)
Definition oddTransient : jwtToken :=
  mkJwt "access"
    (<["transient" := ClaimString "maybe"]>
       (<["jti" := ClaimString "30"]> (<["sub" := ClaimString "1"]> ∅))).

End Scenario.

(** ** Privilege rows of a registered token *)

(** The rows that the loops over [tokenPrivs] persist: each one with its
    [TokenID] set to the id of the token being registered. *)
Definition stamp (tokenID : UUID) (privileges : list TokenPrivilege)
    : list TokenPrivilege :=
  map (fun tokenPriv => mkTokenPrivilege tokenID (tp_PrivilegeCacheID tokenPriv))
    privileges.

(** The row recorded for a privilege carried over from the old token: it
    keeps the [PrivilegeCacheID] of the old privilege; [TokenID] is still
    the zero value. *)
Definition carriedPrivilege (oldPriv : PrivilegeCache) : TokenPrivilege :=
  mkTokenPrivilege 0%N (PrivilegeCacheID oldPriv).

(** ** The paths of Audit *)

(** What [Audit] returns and the world it leaves, path by path. *)
Inductive AuditPath {DB} (env : Env DB) (identity : Identity)
    (tokenString resourceID : string) (w : World DB)
    : Outcome (option string) * World DB -> Prop :=
  | AuditRefused (e : error) :
      (** an error before any write: bad input, foreign or flagged token,
          failed lookup *)
      AuditPath env identity tokenString resourceID w (Fail e, w)
  | AuditSuffices tm claims tid tok permissions :
      ReadTokenManagerFromContext env = Success tm ->
      ParseToken tm tokenString = Success claims ->
      uuid_FromString env (Id claims) = Success tid ->
      fst (TokenRepository_Load env tid (db w)) = Some tok ->
      IdentityID tok = ID identity ->
      claim_Permissions claims = Some permissions ->
      In resourceID (map ResourceSetID permissions) ->
      Valid tok = true ->
      AuditPath env identity tokenString resourceID w (Ok None, w)
  | AuditReset tm claims tid tok permissions :
      ReadTokenManagerFromContext env = Success tm ->
      ParseToken tm tokenString = Success claims ->
      uuid_FromString env (Id claims) = Success tid ->
      fst (TokenRepository_Load env tid (db w)) = Some tok ->
      IdentityID tok = ID identity ->
      claim_Permissions claims = Some permissions ->
      In resourceID (map ResourceSetID permissions) ->
      HasStatus tok (TOKEN_STATUS_STALE env) = true ->
      HasStatus tok (TOKEN_STATUS_DEPROVISIONED env) = false ->
      HasStatus tok (TOKEN_STATUS_REVOKED env) = false ->
      HasStatus tok (TOKEN_STATUS_LOGGED_OUT env) = false ->
      AuditPath env identity tokenString resourceID w
        (match fst (TokenRepository_Save env (withStatus tok 0) (db w)) with
         | None => Ok None
         | Some e => Fail (NewInternalError e)
         end,
         mkWorld (snd (TokenRepository_Save env (withStatus tok 0) (db w)))
           (calls w ++ [CallSave (withStatus tok 0)]))
  | AuditMints tm claims tid :
      ReadTokenManagerFromContext env = Success tm ->
      ParseToken tm tokenString = Success claims ->
      uuid_FromString env (Id claims) = Success tid ->
      AuditPath env identity tokenString resourceID w
        ((signedToken <- ExecuteInTransaction
                           (mintRPT env tm claims identity resourceID
                              (fst (TokenRepository_Load env tid (db w)))) ;;
          ret (Some signedToken)) w).

(** ** Carrying permissions over in ExchangeRefreshToken *)

(** How one privilege of the old RPT token is carried into the refreshed
    token by [ExchangeRefreshToken]: under the same resource, with the
    scopes and expiry of the privilege cache when the old token is stale or
    the privilege is, with its own otherwise. *)
Definition exchanges {DB} (env : Env DB) (d : DB) (identityID : UUID)
    (loadedToken : Token) (oldPriv : PrivilegeCache) (perm : Permissions)
    : Prop :=
  ResourceSetID perm = ResourceID oldPriv /\
  if HasStatus loadedToken (TOKEN_STATUS_STALE env) || Stale oldPriv then
    exists privilegeCache,
      CachedPrivileges env identityID (ResourceID oldPriv) d
        = Success privilegeCache /\
      Scopes perm = ScopesAsArray privilegeCache /\
      Expiry perm = Unix (pc_ExpiryTime privilegeCache)
  else
    Scopes perm = ScopesAsArray oldPriv /\
    Expiry perm = Unix (pc_ExpiryTime oldPriv).

(** The first block of the transaction of [ExchangeRefreshToken] as the
    code guards it: entered only with an identity and an RPT token. *)
Definition exchangeCarried {DB} (env : Env DB) (identity : option Identity)
    (rptToken : string) : M DB (list Permissions * list TokenPrivilege) :=
  match identity with
  | Some i =>
      if negb (String.eqb rptToken "") then exchangePermissions env i rptToken
      else ret ([], [])
  | None => ret ([], [])
  end.

(** ** External tokens and bulk operations *)

(** [repository.ExternalToken]: the token of an identity at an external
    provider (GitHub, OpenShift). *)
Record ExternalToken : Type := mkExternalToken {
  et_ID : UUID;
  et_ProviderID : UUID;
  et_Token : string;
  et_Scope : string;
  et_IdentityID : UUID;
  et_Username : string }.

(** [app.ExternalToken]: what the service answers. *)
Record AppExternalToken : Type := mkAppExternalToken {
  app_Scope : string;
  app_AccessToken : string;
  app_TokenType : string;
  app_Username : string;
  app_ProviderAPIURL : string }.

Record OSOCluster : Type := mkOSOCluster {
  cluster_Name : string;
  cluster_APIURL : string;
  ServiceAccountToken : string;
  ServiceAccountUsername : string }.

Record UserProfile : Type := mkUserProfile { profile_Username : string }.

(** [provider.LinkingProvider].  [provider_Profile] is the call
    [Profile(ctx, oauth2.Token{AccessToken: t})] to the provider;
    [provider_OSOCluster] is set when the provider also is a
    [provider.OpenShiftIdentityProvider], which the code finds out by a
    type assertion. *)
Record LinkingProvider : Type := mkLinkingProvider {
  provider_ID : UUID;
  provider_TypeName : string;
  provider_URL : string;
  provider_Profile : string -> result UserProfile;
  provider_OSOCluster : option OSOCluster }.

(** The further collaborators of [RetrieveExternalToken],
    [DeleteExternalToken] and [SetStatusForAllIdentityTokens]: what the
    request context says, the linking provider factory, the URL helpers
    and the repositories. *)
Record ExternalEnv (DB : Type) : Type := mkExternalEnv {
  IsSpecificServiceAccount : bool;
  ContextIdentity : result UUID;
  LoadContextIdentityIfNotBanned : DB -> result Identity;
  NewLinkingProvider : UUID -> string -> string -> DB -> result LinkingProvider;
  AbsoluteURL : string -> string;
  LinkTokenPath : string;
  uuid_String : UUID -> string;
  Identities_CheckExists : string -> DB -> option error;
  ExternalTokens_LoadByProviderIDAndIdentityID :
    UUID -> UUID -> DB -> result (list ExternalToken);
  ExternalTokens_Save : ExternalToken -> DB -> option error * DB;
  ExternalTokens_Delete : UUID -> DB -> option error * DB;
  TokenRepository_ListForIdentity : UUID -> DB -> result (list Token);
  TokenRepository_SetStatusFlagsForIdentity :
    UUID -> Z -> DB -> option error * DB }.

Arguments IsSpecificServiceAccount {DB} _.
Arguments ContextIdentity {DB} _.
Arguments LoadContextIdentityIfNotBanned {DB} _ _.
Arguments NewLinkingProvider {DB} _ _ _ _ _.
Arguments AbsoluteURL {DB} _ _.
Arguments LinkTokenPath {DB} _.
Arguments uuid_String {DB} _ _.
Arguments Identities_CheckExists {DB} _ _ _.
Arguments ExternalTokens_LoadByProviderIDAndIdentityID {DB} _ _ _ _.
Arguments ExternalTokens_Save {DB} _ _ _.
Arguments ExternalTokens_Delete {DB} _ _ _.
Arguments TokenRepository_ListForIdentity {DB} _ _ _.
Arguments TokenRepository_SetStatusFlagsForIdentity {DB} _ _ _ _.

(** The three values [RetrieveExternalToken] returns: the token, the
    error response for the client, the error. *)
Definition ExternalResponse : Type :=
  (option AppExternalToken * option string * option error)%type.

(** The double quote inside the error responses. *)
Definition quote : string := String (Ascii.ascii_of_nat 34) "".

(** A mutating repository call that the log of calls has no entry for. *)
Definition update {DB} (f : DB -> option error * DB) : M DB (option error) :=
  fun w => let (e, d) := f (db w) in (Ok e, mkWorld d (calls w)).

(** [err = f()]: the error of a call as a value. *)
Definition catch {DB A} (m : M DB A) : M DB (result A) :=
  fun w =>
    match m w with
    | (Ok a, w') => (Ok (Success a), w')
    | (Fail e, w') => (Ok (Failure e), w')
    | (Panic, w') => (Panic, w')
    end.

Section ExternalTokens.
Context {DB : Type} (env : Env DB) (ext : ExternalEnv DB).

Definition retrieveClusterToken (forResource : string) (forcePull : option bool)
    (provider : LinkingProvider) (cluster : OSOCluster) : ExternalResponse :=
  let username := ServiceAccountUsername cluster in
  let clusterToken (username : string) :=
    mkAppExternalToken "<unknown>" (ServiceAccountToken cluster) "Bearer"
      username (cluster_APIURL cluster) in
  match forcePull with
  | Some true =>
      match provider_Profile provider (ServiceAccountToken cluster) with
      | Failure err =>
          let errorResponse :=
            ("LINK description=" ++ quote ++ cluster_APIURL cluster
               ++ " cluster token is not valid or expired")%string in
          (None, Some errorResponse,
           Some (NewUnauthorizedError (error_Error env err)))
      | Success userProfile =>
          let username :=
            if negb (String.eqb (ServiceAccountUsername cluster)
                       (profile_Username userProfile))
            then profile_Username userProfile
            else username in
          (Some (clusterToken username), None, None)
      end
  | _ => (Some (clusterToken username), None, None)
  end.

(** The first transaction of [RetrieveExternalToken]: the identity must
    exist; the first of its tokens at the provider, if any. *)
Definition loadExternalToken (linkingProvider : LinkingProvider)
    (currentIdentityID : UUID) : M DB (option ExternalToken) :=
  exists_err <- get (Identities_CheckExists ext (uuid_String ext currentIdentityID)) ;;
  match exists_err with
  | Some err => fail (NewUnauthorizedError (error_Error env err))
  | None =>
      loaded <- get (ExternalTokens_LoadByProviderIDAndIdentityID ext
                       (provider_ID linkingProvider) currentIdentityID) ;;
      match loaded with
      | Failure err => fail err
      | Success tokens => ret (head tokens)
      end
  end.

Definition linkURL (forResource : string) : string :=
  AbsoluteURL ext (LinkTokenPath ext ++ "?for=" ++ forResource)%string.

(** The second half of [RetrieveExternalToken], after the cluster-wide
    case: the token the identity has stored for the provider. *)
Definition retrieveStoredToken (forResource : string) (forcePull : option bool)
    (linkingProvider : LinkingProvider) (currentIdentityID : UUID)
    : M DB ExternalResponse :=
  found <- catch (ExecuteInTransaction
                    (loadExternalToken linkingProvider currentIdentityID)) ;;
  match found with
  | Failure err => ret (None, None, Some err)
  | Success None =>
      let providerName := provider_TypeName linkingProvider in
      let errorResponse :=
        ("LINK url=" ++ linkURL forResource ++ ", description=" ++ quote
           ++ providerName ++ " token is missing. Link " ++ providerName
           ++ " account" ++ quote)%string in
      ret (None, Some errorResponse,
           Some (NewUnauthorizedError "token is missing"))
  | Success (Some externalToken) =>
      let answer (externalToken : ExternalToken) :=
        mkAppExternalToken (et_Scope externalToken)
          (et_Token externalToken) "Bearer"
          (et_Username externalToken) (provider_URL linkingProvider) in
      match forcePull with
      | Some true =>
          match provider_Profile linkingProvider (et_Token externalToken) with
          | Failure err =>
              let errorResponse :=
                ("LINK url=" ++ linkURL forResource ++ ", description="
                   ++ quote ++ provider_TypeName linkingProvider
                   ++ " token is not valid or expired. Relink "
                   ++ provider_TypeName linkingProvider ++ " account"
                   ++ quote)%string in
              ret (None, Some errorResponse,
                   Some (NewUnauthorizedError (error_Error env err)))
          | Success userProfile =>
              let externalToken :=
                mkExternalToken (et_ID externalToken)
                  (et_ProviderID externalToken) (et_Token externalToken)
                  (et_Scope externalToken) (et_IdentityID externalToken)
                  (profile_Username userProfile) in
              saved <- catch
                         (ExecuteInTransaction
                            (err <- update (ExternalTokens_Save ext externalToken) ;;
                             match err with
                             | Some e => fail e
                             | None => ret tt
                             end)) ;;
              match saved with
              | Failure err => ret (None, None, Some err)
              | Success _ => ret (Some (answer externalToken), None, None)
              end
          end
      | _ => ret (Some (answer externalToken), None, None)
      end
  end.

Definition RetrieveExternalToken (forResource : string)
    (forcePull : option bool) : M DB ExternalResponse :=
  if String.eqb forResource "" then
    ret (None, None,
         Some (BadParameterError "for" "" "git or OpenShift resource URL"))
  else
    let serviceAccount := IsSpecificServiceAccount ext in
    current <-
      (if serviceAccount then ret (ContextIdentity ext)
       else
         loaded <- get (LoadContextIdentityIfNotBanned ext) ;;
         match loaded with
         | Failure err => ret (Failure err)
         | Success currentIdentity => ret (Success (ID currentIdentity))
         end) ;;
    match current with
    | Failure err => ret (None, None, Some err)
    | Success currentIdentityID =>
      made <- get (NewLinkingProvider ext currentIdentityID
                     (AbsoluteURL ext "") forResource) ;;
      match made with
      | Failure err => ret (None, None, Some err)
      | Success linkingProvider =>
        match provider_OSOCluster linkingProvider, serviceAccount with
        | Some cluster, true =>
            ret (retrieveClusterToken forResource forcePull linkingProvider cluster)
        | _, _ =>
            retrieveStoredToken forResource forcePull linkingProvider
              currentIdentityID
        end
      end
    end.

(** [for _, token := range tokens { err = Delete(token.ID) ... }] *)
Fixpoint deleteTokens (tokens : list ExternalToken) : M DB unit :=
  match tokens with
  | [] => ret tt
  | token :: rest =>
      err <- update (ExternalTokens_Delete ext (et_ID token)) ;;
      match err with
      | Some e => fail e
      | None => deleteTokens rest
      end
  end.

(** [if val, _ := errors.IsUnauthorizedError(err); val { return err };
    return errors.NewInternalError(err)] *)
Definition unauthorizedOrInternal (err : error) : error :=
  if IsUnauthorizedError err then err else NewInternalError err.

Definition DeleteExternalToken (currentIdentity : UUID)
    (authURL forResource : string) : M DB unit :=
  made <- get (NewLinkingProvider ext currentIdentity authURL forResource) ;;
  match made with
  | Failure err => fail (unauthorizedOrInternal err)
  | Success providerConfig =>
      mapFail unauthorizedOrInternal
        (ExecuteInTransaction
           (exists_err <- get (Identities_CheckExists ext
                                 (uuid_String ext currentIdentity)) ;;
            match exists_err with
            | Some err => fail (NewUnauthorizedError (error_Error env err))
            | None =>
                loaded <- get (ExternalTokens_LoadByProviderIDAndIdentityID ext
                                 (provider_ID providerConfig) currentIdentity) ;;
                match loaded with
                | Failure err => fail err
                | Success tokens => deleteTokens tokens
                end
            end))
  end.

(** [identity.ID] panics when [LoadWithUser] returns neither an identity
    nor an error. *)
Definition SetStatusForAllIdentityTokens (identityID : UUID) (status : Z)
    : M DB unit :=
  loaded <- get (Identities_LoadWithUser env identityID) ;;
  match snd loaded with
  | Some err => fail err
  | None =>
    match fst loaded with
    | None => panic
    | Some found =>
      listed <- get (TokenRepository_ListForIdentity ext (ID found)) ;;
      match listed with
      | Failure err => fail err
      | Success tokens =>
          ExecuteInTransaction
            (err <- update (TokenRepository_SetStatusFlagsForIdentity ext
                              (ID found) status) ;;
             match err with
             | Some e => fail e
             | None => ret tt
             end)
      end
    end
  end.

End ExternalTokens.

(** What a response of [RetrieveExternalToken] looks like: a token of type
    Bearer and nothing else, or an error, with a response for the client
    only when the error is Unauthorized. *)
Definition wellFormedResponse (r : ExternalResponse) : Prop :=
  match r with
  | (Some token, None, None) => app_TokenType token = "Bearer"
  | (None, None, Some _) => True
  | (None, Some _, Some err) => IsUnauthorizedError err = true
  | _ => False
  end.

(** ** Example data for external tokens and API clients *)

Module Scenario2.
Import Demo.

(** A refresh token whose subject has no identity record. *)
Definition knownJwt : list (string * jwtToken) :=
  ("refresh-39", Scenario.refreshOf "30" "9") :: Scenario.knownJwt.

Definition env (max : Z) : Env Store :=
  demoEnv max Scenario.known knownJwt false.

(** A transient access token of alice. *)
Definition transientToken : jwtToken :=
  mkJwt "access"
    (<["transient" := ClaimString "true"]>
       (<["jti" := ClaimString "30"]> (<["sub" := ClaimString "1"]> ∅))).

(** An access token whose subject is not a UUID. *)
Definition oddSubject : jwtToken :=
  mkJwt "access"
    (<["jti" := ClaimString "30"]> (<["sub" := ClaimString "alice"]> ∅)).

(** A store of external tokens, with the status flags last applied to the
    tokens of each identity. *)
Record Links : Type := mkLinks {
  externals : list ExternalToken;
  people : list Identity;
  flagged : list (UUID * Z) }.

Definition github : LinkingProvider :=
  mkLinkingProvider 500%N "GitHub" "https://api.github.com"
    (fun t => if String.eqb t "gh-token"
              then Success (mkUserProfile "octo-alice")
              else Failure (OtherError "401"))
    None.

Definition cluster : OSOCluster :=
  mkOSOCluster "starter" "https://api.starter.example" "sa-token" "dsaas".

Definition openshift : LinkingProvider :=
  mkLinkingProvider 600%N "OpenShift" "https://api.starter.example"
    (fun t => if String.eqb t "sa-token"
              then Success (mkUserProfile "dsaas-renamed")
              else Failure (OtherError "401"))
    (Some cluster).

Definition links : Links :=
  mkLinks
    [ mkExternalToken 1%N 500%N "gh-token" "user:full" 1%N "alice-gh";
      mkExternalToken 2%N 500%N "gh-old" "user" 1%N "alice-old" ]
    [Scenario.alice]
    [].

Definition linkEnv : Env Links :=
  mkEnv Links 5 (manager [] []) (Failure (OtherError "no token manager"))
    parseUUID
    (fun e => match e with OtherError m => m | _ => "error" end)
    sortLatestFirst 1 2 4 8
    (fun _ _ => None)
    (fun _ _ => (None, Some (NotFoundError "token" "")))
    (fun _ _ => Success [])
    (fun _ st => (Some (OtherError "read only"), st))
    (fun _ st => (Some (OtherError "read only"), st))
    (fun _ st => (Some (OtherError "read only"), st))
    (fun id st => match find (fun i => N.eqb (ID i) id) (people st) with
                  | Some i => (Some i, None)
                  | None => (None, Some (NotFoundError "identity" ""))
                  end)
    (fun _ st => (Some (OtherError "read only"), st))
    (fun _ r _ => Failure (NotFoundError "privilege" r)).

(** The request of alice, or of a service account, for a resource at
    GitHub or at the OpenShift cluster. *)
Definition linkExt (serviceAccount : bool) : ExternalEnv Links :=
  mkExternalEnv Links serviceAccount (Success 77%N)
    (fun _ => Success Scenario.alice)
    (fun _ _ forResource _ =>
       if String.eqb forResource "https://github.com/org/repo"
       then Success github
       else if String.eqb forResource "https://api.starter.example"
       then Success openshift
       else Failure (BadParameterError "for" forResource "a known provider"))
    (fun path => ("https://auth.example" ++ path)%string)
    "/api/token/link"
    (fun id => if N.eqb id 1 then "1" else "other")
    (fun id st => if existsb (fun i => String.eqb id "1" && N.eqb (ID i) 1)
                       (people st)
                  then None else Some (NotFoundError "identity" id))
    (fun providerID identityID st =>
       Success (List.filter
                  (fun t => N.eqb (et_ProviderID t) providerID
                            && N.eqb (et_IdentityID t) identityID)
                  (externals st)))
    (fun t st =>
       (None,
        mkLinks (map (fun u => if N.eqb (et_ID u) (et_ID t) then t else u)
                   (externals st)) (people st) (flagged st)))
    (fun id st =>
       (None,
        mkLinks (List.filter (fun u => negb (N.eqb (et_ID u) id)) (externals st))
          (people st) (flagged st)))
    (fun _ _ => Success [])
    (fun id status st =>
       (None, mkLinks (externals st) (people st) (flagged st ++ [(id, status)]))).

End Scenario2.

(** * Properties *)

(** ** scopesEquivalent *)

Lemma scopeFound_In (val1 : string) (value2 : list string) :
  scopeFound val1 value2 = true <-> In val1 value2.
Proof.
  induction value2 as [|val2 rest IH]; simpl.
  - split; [discriminate | tauto].
  - destruct (String.eqb_spec val1 val2) as [->|Hne].
    + split; auto.
    + rewrite IH. split; [auto | intros [Heq|Hin]; congruence].
Qed.

Lemma allScopesFound_incl (value1 value2 : list string) :
  allScopesFound value1 value2 = true <-> incl value1 value2.
Proof.
  induction value1 as [|val1 rest IH]; simpl.
  - split; [intros _ x [] | reflexivity].
  - destruct (scopeFound val1 value2) eqn:Hf; simpl.
    + rewrite IH. apply scopeFound_In in Hf. split.
      * intros Hincl x [<-|Hx]; auto.
      * intros Hincl x Hx. apply Hincl. now right.
    + split; [discriminate|]. intros Hincl.
      assert (In val1 value2) as Hin by (apply Hincl; now left).
      apply scopeFound_In in Hin. congruence.
Qed.

(** What the comparison decides: equal lengths, and every scope of the
    first list occurs in the second. *)
Lemma scopesEquivalent_spec (value1 value2 : list string) :
  scopesEquivalent value1 value2 = true <->
  length value1 = length value2 /\ incl value1 value2.
Proof.
  unfold scopesEquivalent.
  destruct (Nat.eqb_spec (length value1) (length value2)) as [Hlen|Hlen]; simpl.
  - rewrite allScopesFound_incl. tauto.
  - split; [discriminate | tauto].
Qed.

(** On lists without repeated scopes the comparison is equality of the
    scope sets. *)
Lemma scopesEquivalent_NoDup (value1 value2 : list string) :
  List.NoDup value1 -> List.NoDup value2 ->
  (scopesEquivalent value1 value2 = true <->
   forall s, In s value1 <-> In s value2).
Proof.
  intros Hnd1 Hnd2. rewrite scopesEquivalent_spec. split.
  - intros [Hlen Hincl] s. split; [apply Hincl|].
    apply (List.NoDup_length_incl Hnd1); [lia | exact Hincl].
  - intros Heq.
    assert (incl value1 value2) as H12 by (intros s; apply Heq).
    assert (incl value2 value1) as H21 by (intros s; apply Heq).
    split; [|exact H12].
    apply Nat.le_antisymm; apply List.NoDup_incl_length; assumption.
Qed.

Lemma scopesEquivalent_sym_NoDup (a b : list string) :
  List.NoDup a -> List.NoDup b ->
  scopesEquivalent a b = scopesEquivalent b a.
Proof.
  intros Ha Hb.
  pose proof (scopesEquivalent_NoDup a b Ha Hb) as [Hab1 Hab2].
  pose proof (scopesEquivalent_NoDup b a Hb Ha) as [Hba1 Hba2].
  destruct (scopesEquivalent a b) eqn:Hab, (scopesEquivalent b a) eqn:Hba;
    try reflexivity.
  - symmetry. apply Hba2. intros s. symmetry. now apply Hab1.
  - apply Hab2. intros s. symmetry. now apply Hba1.
Qed.

(** C9 (code defect): the comparison is not symmetric.  With a repeated
    scope on one side, ["a"; "a"] is found equivalent to ["a"; "b"], while
    ["a"; "b"] is not found equivalent to ["a"; "a"]. *)
Theorem scopesEquivalent_not_symmetric :
  scopesEquivalent ["a"; "a"] ["a"; "b"] = true /\
  scopesEquivalent ["a"; "b"] ["a"; "a"] = false.
Proof. split; reflexivity. Qed.

(** ** Audit: the checks on a loaded token *)

Lemma fold_found {A} (f : A -> bool) (l : list A) (acc : bool) :
  fold_left (fun found x => if f x then true else found) l acc
  = acc || existsb f l.
Proof.
  revert acc. induction l as [|x l IH]; intros acc; simpl.
  - now rewrite orb_false_r.
  - rewrite IH. destruct (f x), acc; reflexivity.
Qed.

Lemma resourceExistsInToken_true tok claims permissions resourceID :
  claim_Permissions claims = Some permissions ->
  In resourceID (map ResourceSetID permissions) ->
  resourceExistsInToken (Some tok) claims resourceID = true.
Proof.
  intros Hp Hin. unfold resourceExistsInToken. rewrite Hp, fold_found. simpl.
  apply existsb_exists. apply in_map_iff in Hin as (p & <- & Hin).
  exists p. split; [assumption | apply String.eqb_refl].
Qed.


Lemma HasStatus_nonzero tok flag :
  flag <> 0 -> HasStatus tok flag = true -> Valid tok = false.
Proof.
  unfold HasStatus, Valid. intros Hflag Hhas.
  apply Z.eqb_eq in Hhas. apply Z.eqb_neq. intros Hz.
  rewrite Hz, Z.land_0_l in Hhas. congruence.
Qed.

Section AuditChecks.
Context {DB : Type} (env : Env DB).
Variables (identity : Identity) (tokenString resourceID : string).
Variables (w : World DB) (tm : TokenManager) (claims : TokenClaims)
          (tid : UUID) (tok : Token).

(** The call gets as far as loading the record [tok] of the token. *)
Hypothesis Hexists : ResourceRepository_CheckExists env resourceID (db w) = None.
Hypothesis Htm : ReadTokenManagerFromContext env = Success tm.
Hypothesis Hparse : ParseToken tm tokenString = Success claims.
Hypothesis Hjti : uuid_FromString env (Id claims) = Success tid.
Hypothesis Hload : fst (TokenRepository_Load env tid (db w)) = Some tok.

Ltac enter :=
  unfold Audit, bind, get; rewrite Hexists, Htm, Hparse, Hjti, Hload.

Lemma Audit_not_owner :
  IdentityID tok <> ID identity ->
  Audit env identity tokenString resourceID w
  = (Fail (NewUnauthorizedError "invalid token for identity"), w).
Proof.
  intros Hne. enter.
  destruct (N.eqb_spec (IdentityID tok) (ID identity)); [contradiction|].
  reflexivity.
Qed.

Lemma Audit_valid_embedded permissions :
  IdentityID tok = ID identity ->
  Valid tok = true ->
  claim_Permissions claims = Some permissions ->
  In resourceID (map ResourceSetID permissions) ->
  Audit env identity tokenString resourceID w = (Ok None, w).
Proof.
  intros Hid Hvalid Hperms Hin. enter.
  rewrite Hid, N.eqb_refl, Hvalid.
  rewrite (resourceExistsInToken_true tok claims permissions resourceID Hperms Hin).
  reflexivity.
Qed.

Lemma Audit_deprovisioned :
  TOKEN_STATUS_DEPROVISIONED env <> 0 ->
  IdentityID tok = ID identity ->
  HasStatus tok (TOKEN_STATUS_DEPROVISIONED env) = true ->
  Audit env identity tokenString resourceID w
  = (Fail (NewUnauthorizedErrorWithCode "token banned"
             UNAUTHORIZED_CODE_TOKEN_DEPROVISIONED), w).
Proof.
  intros Hflag Hid Hhas. enter.
  rewrite Hid, N.eqb_refl, (HasStatus_nonzero _ _ Hflag Hhas), Hhas.
  reflexivity.
Qed.

Lemma Audit_revoked :
  TOKEN_STATUS_REVOKED env <> 0 ->
  TOKEN_STATUS_LOGGED_OUT env <> 0 ->
  IdentityID tok = ID identity ->
  HasStatus tok (TOKEN_STATUS_DEPROVISIONED env) = false ->
  HasStatus tok (TOKEN_STATUS_REVOKED env)
    || HasStatus tok (TOKEN_STATUS_LOGGED_OUT env) = true ->
  Audit env identity tokenString resourceID w
  = (Fail (NewUnauthorizedErrorWithCode "token revoked or logged out"
             UNAUTHORIZED_CODE_TOKEN_REVOKED), w).
Proof.
  intros Hrev Hout Hid Hdep Hhas. enter.
  assert (Valid tok = false) as Hinv.
  { apply orb_true_iff in Hhas as [H|H];
      eauto using HasStatus_nonzero. }
  rewrite Hid, N.eqb_refl, Hinv, Hdep, Hhas. reflexivity.
Qed.

End AuditChecks.

(** ** Audit: a stale token *)

Section StaleCheck.
Context {DB : Type} (env : Env DB).
Variables (d : DB) (identityID : UUID) (privileges : list PrivilegeCache).



End StaleCheck.

Section AuditStale.
Context {DB : Type} (env : Env DB).
Variables (identity : Identity) (tokenString resourceID : string).
Variables (w : World DB) (tm : TokenManager) (claims : TokenClaims)
          (tid : UUID) (tok : Token).
Variables (permissions : list Permissions) (privileges : list PrivilegeCache).

Hypothesis Hflags : independentFlags env.
Hypothesis Hexists : ResourceRepository_CheckExists env resourceID (db w) = None.
Hypothesis Htm : ReadTokenManagerFromContext env = Success tm.
Hypothesis Hparse : ParseToken tm tokenString = Success claims.
Hypothesis Hjti : uuid_FromString env (Id claims) = Success tid.
Hypothesis Hload : fst (TokenRepository_Load env tid (db w)) = Some tok.
Hypothesis Hid : IdentityID tok = ID identity.
Hypothesis Hstale : Status tok = TOKEN_STATUS_STALE env.
Hypothesis Hperms : claim_Permissions claims = Some permissions.
Hypothesis Hin : In resourceID (map ResourceSetID permissions).
Hypothesis Hlist : TokenRepository_ListPrivileges env tid (db w) = Success privileges.


End AuditStale.


(** ** The log of calls *)

Section Preserves.
Context {DB : Type} (env : Env DB) (P : Call -> Prop).

Lemma preserves_ret {A} (a : A) : preserves P (@ret DB A a).
Proof. intros w H. exact H. Qed.

Lemma preserves_fail {A} (e : error) : preserves P (@fail DB A e).
Proof. intros w H. exact H. Qed.

Lemma preserves_panic {A} : preserves P (@panic DB A).
Proof. intros w H. exact H. Qed.

Lemma preserves_get {A} (f : DB -> A) : preserves P (get f).
Proof. intros w H. exact H. Qed.

Lemma preserves_bind {A B} (m : M DB A) (f : A -> M DB B) :
  preserves P m -> (forall a, preserves P (f a)) -> preserves P (bind m f).
Proof.
  intros Hm Hf w H. unfold bind. specialize (Hm w H).
  destruct (m w) as [[a|e|] w']; simpl in *; try assumption.
  now apply Hf.
Qed.

Lemma preserves_write (c : Call) (f : DB -> option error * DB) :
  P c -> preserves P (write c f).
Proof.
  intros Hc w H. unfold write. destruct (f (db w)) as [e d']. simpl.
  apply Forall_app. split; [assumption | now constructor].
Qed.

Lemma preserves_mint {A} (c : Call) (r : result A) :
  P c -> preserves P (@mint DB A c r).
Proof.
  intros Hc w H. unfold mint. simpl.
  apply Forall_app. split; [assumption | now constructor].
Qed.

Lemma preserves_mapFail {A} (wrap : error -> error) (m : M DB A) :
  preserves P m -> preserves P (mapFail wrap m).
Proof.
  intros Hm w H. unfold mapFail. specialize (Hm w H).
  destruct (m w) as [[a|e|] w']; assumption.
Qed.

Lemma preserves_ExecuteInTransaction {A} (body : M DB A) :
  preserves P body -> preserves P (ExecuteInTransaction body).
Proof.
  intros Hm w H. unfold ExecuteInTransaction. specialize (Hm w H).
  destruct (body w) as [[a|e|] w']; assumption.
Qed.

Hypothesis Pcreate : forall t, P (CallCreate t).
Hypothesis Pprivilege : forall p, P (CallCreatePrivilege p).

Lemma preserves_createPrivileges tokenID wrap privileges :
  preserves P (createPrivileges env tokenID wrap privileges).
Proof.
  induction privileges as [|tp rest IH]; simpl.
  - apply preserves_ret.
  - apply preserves_bind; [apply preserves_write, Pprivilege|].
    intros [e|]; [apply preserves_fail | exact IH].
Qed.

Lemma preserves_RegisterToken identityID tokenString tokenType privileges :
  preserves P (RegisterToken env identityID tokenString tokenType privileges).
Proof.
  unfold RegisterToken.
  destruct (ParseToken _ _) as [tokenClaims|]; [|apply preserves_fail].
  destruct (uuid_FromString _ _) as [tokenID|]; [|apply preserves_fail].
  apply preserves_bind; [|intros; apply preserves_ret].
  apply preserves_mapFail, preserves_ExecuteInTransaction, preserves_bind.
  - apply preserves_write, Pcreate.
  - intros [e|]; [apply preserves_fail | apply preserves_createPrivileges].
Qed.

Hypothesis Psign : forall t, P (CallSignRPT t).

Lemma preserves_issueRPT tm claims identity perms tokenPrivs :
  P (CallGenerateUnsignedRPT claims identity perms) ->
  preserves P (issueRPT env tm claims identity perms tokenPrivs).
Proof.
  intros Hgen. unfold issueRPT.
  apply preserves_bind; [apply preserves_mint, Hgen|].
  intros [g|e]; [|apply preserves_fail].
  apply preserves_bind; [apply preserves_mint, Psign|].
  intros [s|e]; [|apply preserves_fail].
  apply preserves_bind; [apply preserves_mapFail, preserves_RegisterToken|].
  intros t. apply preserves_bind; [apply preserves_createPrivileges|].
  intros; apply preserves_ret.
Qed.

(** Building the permissions only reads, and returns what
    [mintedPermissions] describes. *)
Lemma auditPermissions_spec identity resourceID loadedToken w :
  snd (auditPermissions env identity resourceID loadedToken w) = w /\
  forall perms tokenPrivs,
    fst (auditPermissions env identity resourceID loadedToken w)
      = Ok (perms, tokenPrivs) ->
    mintedPermissions env (db w) identity resourceID loadedToken perms.
Proof.
  unfold auditPermissions, mintedPermissions, requestedPermission, bind, get.
  destruct (CachedPrivileges env (ID identity) resourceID (db w))
    as [pc|err] eqn:Hpc; simpl; [|split; [reflexivity | discriminate]].
  destruct loadedToken as [tok|]; simpl.
  - destruct (TokenRepository_ListPrivileges env (TokenID tok) (db w))
      as [olds|err] eqn:Holds; simpl; [|split; [reflexivity | discriminate]].
    destruct (auditMigrate _ _ _ _ _ _ _) as [[perms tps]|err] eqn:Hmig; simpl;
      [|split; [reflexivity | discriminate]].
    split; [reflexivity|]. intros perms' tps' [= <- <-].
    exists pc. split; [reflexivity|]. now exists olds, tps.
  - split; [reflexivity|]. intros perms' tps' [= <- <-].
    exists pc. split; reflexivity.
Qed.

Lemma preserves_mintRPT tm claims identity resourceID loadedToken w :
  (forall perms,
     mintedPermissions env (db w) identity resourceID loadedToken perms ->
     P (CallGenerateUnsignedRPT claims identity perms)) ->
  Forall P (calls w) ->
  Forall P (calls (snd (mintRPT env tm claims identity resourceID loadedToken w))).
Proof.
  intros Hgen H. unfold mintRPT, bind.
  destruct (auditPermissions_spec identity resourceID loadedToken w)
    as [Hw Hperms].
  destruct (auditPermissions env identity resourceID loadedToken w)
    as [[[perms tps]|e|] w']; simpl in Hw; subst w'; simpl; try exact H.
  apply preserves_issueRPT; [|exact H].
  apply Hgen. now apply (Hperms perms tps).
Qed.

End Preserves.

Lemma calls_ExecuteInTransaction {DB A} (body : M DB A) (w : World DB) :
  calls (snd (ExecuteInTransaction body w)) = calls (snd (body w)).
Proof.
  unfold ExecuteInTransaction. destruct (body w) as [[a|e|] w']; reflexivity.
Qed.

Lemma calls_bind_ret {DB A B} (m : M DB A) (g : A -> B) (w : World DB) :
  calls (snd ((x <- m ;; ret (g x)) w)) = calls (snd (m w)).
Proof. unfold bind, ret. destruct (m w) as [[a|e|] w']; reflexivity. Qed.

(** Every path of [Audit]: the only calls it logs are one save of the
    token, or the calls of the mint transaction, whose generation call
    receives the permissions that [mintedPermissions] describes for the
    token record that was loaded. *)
Lemma Audit_calls {DB} (env : Env DB) (P : Call -> Prop)
    (identity : Identity) (tokenString resourceID : string) (w : World DB) :
  (forall t, P (CallSave t)) ->
  (forall t, P (CallCreate t)) ->
  (forall p, P (CallCreatePrivilege p)) ->
  (forall t, P (CallSignRPT t)) ->
  (forall tm claims tid perms,
     ReadTokenManagerFromContext env = Success tm ->
     ParseToken tm tokenString = Success claims ->
     uuid_FromString env (Id claims) = Success tid ->
     mintedPermissions env (db w) identity resourceID
       (fst (TokenRepository_Load env tid (db w))) perms ->
     P (CallGenerateUnsignedRPT claims identity perms)) ->
  Forall P (calls w) ->
  Forall P (calls (snd (Audit env identity tokenString resourceID w))).
Proof.
  intros Psave Pcreate Ppriv Psign Pgen H.
  unfold Audit. unfold bind at 1, get at 1.
  destruct (ResourceRepository_CheckExists env resourceID (db w)) as [err|];
    [destruct (IsNotFoundError err); exact H|].
  destruct (ReadTokenManagerFromContext env) as [tm|] eqn:Htm; [|exact H].
  destruct (ParseToken tm tokenString) as [claims|] eqn:Hparse; [|exact H].
  destruct (uuid_FromString env (Id claims)) as [tid|] eqn:Hjti; [|exact H].
  unfold bind at 1, get at 1. cbv zeta.
  set (loadedToken := fst (TokenRepository_Load env tid (db w))).
  assert (Forall P
            (calls (snd ((signedToken <- ExecuteInTransaction
                            (mintRPT env tm claims identity resourceID loadedToken) ;;
                          ret (Some signedToken)) w)))) as Hgenerate.
  { rewrite calls_bind_ret, calls_ExecuteInTransaction.
    apply preserves_mintRPT; try assumption.
    intros perms Hperms. now apply (Pgen tm claims tid). }
  clearbody loadedToken.
  destruct loadedToken as [tok|]; [|exact Hgenerate].
  destruct (negb (N.eqb (IdentityID tok) (ID identity))); [exact H|].
  destruct (Valid tok && resourceExistsInToken (Some tok) claims resourceID);
    [exact H|].
  destruct (HasStatus tok (TOKEN_STATUS_DEPROVISIONED env)); [exact H|].
  destruct (HasStatus tok (TOKEN_STATUS_REVOKED env)
            || HasStatus tok (TOKEN_STATUS_LOGGED_OUT env)); [exact H|].
  destruct (HasStatus tok (TOKEN_STATUS_STALE env)
            && resourceExistsInToken (Some tok) claims resourceID);
    [|exact Hgenerate].
  unfold bind at 1, get at 1.
  destruct (TokenRepository_ListPrivileges env tid (db w)) as [privs|];
    [|exact H].
  destruct (claim_Permissions claims) as [permissions|]; [|exact H].
  unfold bind at 1.
  assert (exists r,
            (if negb (Nat.eqb (length privs) (length permissions))
             then ret (Success (false, true))
             else get (fun d => compareScopes env d (ID identity) privs permissions)) w
            = (Ok r, w)) as [r ->].
  { destruct (negb _); eexists; reflexivity. }
  destruct r as [[sc pcg]|]; [|exact H].
  destruct (negb sc && negb pcg); [|exact Hgenerate].
  apply preserves_bind; [apply preserves_write, Psave| |exact H].
  intros [e|]; [apply preserves_fail | apply preserves_ret].
Qed.

(** ** The migration loops *)

Lemma migrate_quota_zero (max len : Z) :
  (len >=? max) = true -> Z.to_nat (max - len) = 0%nat.
Proof. intros H. apply Z.geb_le in H. lia. Qed.

Lemma migrate_quota_succ (max : Z) (perms : list Permissions) (x : Permissions) :
  (Z.of_nat (length perms) >=? max) = false ->
  Z.to_nat (max - Z.of_nat (length perms))
  = S (Z.to_nat (max - Z.of_nat (length (perms ++ [x])%list))).
Proof.
  intros H. rewrite length_app. simpl.
  destruct (Z.geb_spec (Z.of_nat (length perms)) max); [discriminate|]. lia.
Qed.

(** The loop of [Audit] appends, in order, one permission for each of the
    first privileges of another resource, as many as the maximum leaves
    room for. *)
Lemma auditMigrate_spec {DB} (env : Env DB) (d : DB) (identityID : UUID)
    (resourceID : string) (oldTokenPrivs : list PrivilegeCache) :
  forall perms tokenPrivs perms' tokenPrivs',
    auditMigrate env d identityID resourceID oldTokenPrivs perms tokenPrivs
      = Success (perms', tokenPrivs') ->
    exists added,
      perms' = (perms ++ added)%list /\
      Forall2 (migrates env d identityID)
        (take (Z.to_nat (GetRPTTokenMaxPermissions env - Z.of_nat (length perms)))
           (filter (fun p => ResourceID p <> resourceID) oldTokenPrivs))
        added.
Proof.
  induction oldTokenPrivs as [|oldPriv rest IH]; intros perms tps perms' tps' Hrun.
  - simpl in Hrun. injection Hrun as <- <-. exists [].
    rewrite app_nil_r, filter_nil, take_nil. split; [reflexivity | constructor].
  - simpl in Hrun.
    destruct (Z.of_nat (length perms) >=? GetRPTTokenMaxPermissions env) eqn:Hfull.
    + injection Hrun as <- <-. exists [].
      rewrite app_nil_r, (migrate_quota_zero _ _ Hfull).
      split; [reflexivity | constructor].
    + destruct (String.eqb_spec (ResourceID oldPriv) resourceID) as [Hsame|Hother].
      * rewrite filter_cons_False by (intros Hne; now apply Hne).
        now apply IH in Hrun.
      * rewrite filter_cons_True by assumption.
        destruct (Stale oldPriv) eqn:Hstale.
        -- destruct (CachedPrivileges env identityID (ResourceID oldPriv) d)
             as [pc|err] eqn:Hpc; [|discriminate].
           apply IH in Hrun as (added & -> & Hadded).
           eexists (_ :: added). rewrite <- app_assoc. split; [reflexivity|].
           match type of Hadded with
           | context [(perms ++ [?x])%list] =>
               rewrite (migrate_quota_succ _ perms x Hfull)
           end. simpl.
           constructor; [|exact Hadded].
           split; [reflexivity|]. rewrite Hstale. now exists pc.
        -- apply IH in Hrun as (added & -> & Hadded).
           eexists (_ :: added). rewrite <- app_assoc. split; [reflexivity|].
           match type of Hadded with
           | context [(perms ++ [?x])%list] =>
               rewrite (migrate_quota_succ _ perms x Hfull)
           end. simpl.
           constructor; [|exact Hadded].
           split; [reflexivity|]. rewrite Hstale. now split.
Qed.

(** The loop of [ExchangeRefreshToken] stops at the maximum. *)
Lemma exchangeMigrate_bound {DB} (env : Env DB) (d : DB) (identityID : UUID)
    (loadedToken : Token) (oldTokenPrivs : list PrivilegeCache) :
  forall permissions tokenPrivs permissions' tokenPrivs',
    exchangeMigrate env d identityID loadedToken oldTokenPrivs
      permissions tokenPrivs = Success (permissions', tokenPrivs') ->
    Z.of_nat (length permissions')
    <= Z.max (Z.of_nat (length permissions)) (GetRPTTokenMaxPermissions env).
Proof.
  induction oldTokenPrivs as [|oldPriv rest IH];
    intros perms tps perms' tps' Hrun; simpl in Hrun.
  - injection Hrun as <- <-. lia.
  - destruct (Z.geb_spec (Z.of_nat (length perms)) (GetRPTTokenMaxPermissions env))
      as [Hfull|Hroom].
    + injection Hrun as <- <-. lia.
    + destruct (HasStatus loadedToken (TOKEN_STATUS_STALE env) || Stale oldPriv).
      * destruct (CachedPrivileges env identityID (ResourceID oldPriv) d)
          as [pc|err]; [|discriminate].
        apply IH in Hrun. rewrite length_app in Hrun. simpl in Hrun. lia.
      * apply IH in Hrun. rewrite length_app in Hrun. simpl in Hrun. lia.
Qed.

Lemma Sorted_weaken {A} (R1 R2 : A -> A -> Prop) (l : list A) :
  (forall a b, R1 a b -> R2 a b) -> Sorted R1 l -> Sorted R2 l.
Proof.
  intros Himpl Hs. induction Hs as [|a l Hs IH Hhd]; constructor.
  - exact IH.
  - destruct Hhd; constructor. now apply Himpl.
Qed.

(** Under the contract of the sort, the privileges of the old token are
    walked from the latest expiry to the earliest. *)
Lemma sorted_latest_first {DB} (env : Env DB) (l : list PrivilegeCache) :
  sortContract env ->
  StronglySorted (fun a b => pc_ExpiryTime b <= pc_ExpiryTime a)
    (sort_Slice env byExpiryLatestFirst l).
Proof.
  intros Hsort. destruct (Hsort l) as [_ Hs].
  apply Sorted_StronglySorted.
  - intros a b c Hab Hbc. lia.
  - eapply Sorted_weaken; [|exact Hs].
    intros a b. unfold byExpiryLatestFirst, After. intros H.
    apply Z.ltb_ge in H. exact H.
Qed.

(** ** ExchangeRefreshToken: the log of calls *)

Section ExchangeCalls.
Context {DB : Type} (env : Env DB) (P : Call -> Prop).
Hypothesis Ptouch : forall id, P (CallTouchLastActive id).
Hypothesis Pcreate : forall t, P (CallCreate t).
Hypothesis Pprivilege : forall p, P (CallCreatePrivilege p).

Lemma preserves_ValidateToken accessToken :
  preserves P (ValidateToken env accessToken).
Proof.
  unfold ValidateToken.
  destruct (Claims accessToken !! "jti") as [[jti|]|]; try apply preserves_panic.
  destruct (uuid_FromString env jti) as [tokenID|]; [|apply preserves_fail].
  apply preserves_bind; [apply preserves_get|]. intros loaded.
  destruct (snd loaded); [apply preserves_fail|].
  destruct (fst loaded) as [tkn|]; [|apply preserves_panic].
  destruct (negb (Valid tkn)); [apply preserves_fail|].
  apply preserves_bind.
  - destruct (Claims accessToken !! "transient") as [[s|]|];
      [destruct (ParseBool s)| |]; first [apply preserves_ret | apply preserves_panic].
  - intros transient. destruct (negb transient); [|apply preserves_ret].
    destruct (Claims accessToken !! "sub") as [[sub|]|]; try apply preserves_panic.
    destruct (uuid_FromString env sub); [|apply preserves_fail].
    apply preserves_bind; [apply preserves_write, Ptouch|].
    intros [e|]; [apply preserves_fail | apply preserves_ret].
Qed.

(** Carrying the permissions over only reads, and returns no more of them
    than the maximum. *)
Lemma exchangePermissions_spec identity rptToken w :
  snd (exchangePermissions env identity rptToken w) = w /\
  forall permissions tokenPrivs,
    fst (exchangePermissions env identity rptToken w)
      = Ok (permissions, tokenPrivs) ->
    Z.of_nat (length permissions) <= Z.max 0 (GetRPTTokenMaxPermissions env).
Proof.
  unfold exchangePermissions, bind, get.
  destruct (ParseToken _ _) as [claims|]; simpl;
    [|split; [reflexivity | discriminate]].
  destruct (uuid_FromString _ _) as [tid|]; simpl;
    [|split; [reflexivity | discriminate]].
  destruct (fst (TokenRepository_Load env tid (db w))) as [tok|]; simpl.
  - destruct (negb _); simpl; [split; [reflexivity | discriminate]|].
    destruct (HasStatus tok (TOKEN_STATUS_DEPROVISIONED env)); simpl;
      [split; [reflexivity | discriminate]|].
    destruct (HasStatus tok (TOKEN_STATUS_REVOKED env) || _); simpl;
      [split; [reflexivity | discriminate]|].
    destruct (TokenRepository_ListPrivileges _ _ _) as [olds|]; simpl;
      [|split; [reflexivity | discriminate]].
    destruct (exchangeMigrate _ _ _ _ _ _ _) as [[perms tps]|] eqn:Hmig; simpl;
      [|split; [reflexivity | discriminate]].
    split; [reflexivity|]. intros perms' tps' [= <- <-].
    apply exchangeMigrate_bound in Hmig. simpl in Hmig. exact Hmig.
  - split; [reflexivity|]. intros perms tps [= <- <-]. simpl. lia.
Qed.

Lemma preserves_exchangeTransaction identity refreshToken rptToken :
  (forall permissions,
     Z.of_nat (length permissions) <= Z.max 0 (GetRPTTokenMaxPermissions env) ->
     P (CallGenerateUserToken refreshToken identity permissions)) ->
  preserves P (exchangeTransaction env identity refreshToken rptToken).
Proof.
  intros Hgen w H. unfold exchangeTransaction. unfold bind at 1.
  assert (exists r,
            (match identity with
             | Some i =>
                 if negb (String.eqb rptToken "")
                 then exchangePermissions env i rptToken
                 else ret ([], [])
             | None => ret ([], [])
             end) w = (r, w) /\
            forall a, r = Ok a ->
              Z.of_nat (length (fst a)) <= Z.max 0 (GetRPTTokenMaxPermissions env))
    as (r & -> & Hr).
  { assert (exists r, @ret DB (list Permissions * list TokenPrivilege) ([], []) w = (r, w) /\
              forall a, r = Ok a ->
                Z.of_nat (length (fst a)) <= Z.max 0 (GetRPTTokenMaxPermissions env))
      as Hnone.
    { eexists; split; [reflexivity|]. intros a [= <-]. simpl. lia. }
    destruct identity as [i|]; [|exact Hnone].
    destruct (negb _); [|exact Hnone].
    destruct (exchangePermissions_spec i rptToken w) as [Hw Hb].
    destruct (exchangePermissions env i rptToken w) as [r w'].
    simpl in Hw; subst w'. exists r. split; [reflexivity|].
    intros [perms tps] ->. simpl. now apply (Hb perms tps). }
  destruct r as [migrated|e|]; try exact H.
  apply preserves_bind; [apply preserves_mint, Hgen, Hr; reflexivity| |exact H].
  intros [g|e]; [|apply preserves_fail].
  destruct identity as [i|]; [|apply preserves_panic].
  apply preserves_bind.
  - apply preserves_mapFail.
    destruct (0 <? length (fst migrated))%nat;
      now apply preserves_RegisterToken.
  - intros _. apply preserves_bind; [|intros; apply preserves_ret].
    now apply preserves_mapFail, preserves_RegisterToken.
Qed.

(** Every path of [ExchangeRefreshToken]: the generation call receives an
    identity that is not banned and no more permissions than the
    maximum. *)
Lemma preserves_ExchangeRefreshToken refreshToken rptToken :
  (forall identity permissions,
     match identity with
     | Some i => Banned (identity_User i) = false
     | None => True
     end ->
     Z.of_nat (length permissions) <= Z.max 0 (GetRPTTokenMaxPermissions env) ->
     P (CallGenerateUserToken refreshToken identity permissions)) ->
  preserves P (ExchangeRefreshToken env refreshToken rptToken).
Proof.
  intros Hgen. unfold ExchangeRefreshToken.
  destruct (Parse _ _) as [tkn|]; [|apply preserves_fail].
  apply preserves_bind; [apply preserves_mapFail, preserves_ValidateToken|].
  intros _.
  destruct (Claims tkn !! "sub") as [sub|]; [|apply preserves_fail].
  destruct (uuid_FromString _ _) as [identityID|]; [|apply preserves_fail].
  apply preserves_bind; [apply preserves_get|]. intros loaded. cbv zeta.
  destruct (match snd loaded with
            | Some err => if IsUnauthorizedError err then Some err else None
            | None => None
            end); [apply preserves_fail|].
  destruct (match fst loaded with
            | Some i => Banned (identity_User i)
            | None => false
            end) eqn:Hbanned; [apply preserves_fail|].
  apply preserves_bind.
  - apply preserves_ExecuteInTransaction, preserves_exchangeTransaction.
    intros perms Hperms. apply Hgen; [|exact Hperms].
    destruct (fst loaded); [exact Hbanned | exact I].
  - intros g. destruct (ConvertToken _ _);
      [apply preserves_ret | apply preserves_fail].
Qed.

End ExchangeCalls.

(** ** ExchangeRefreshToken: the checks on the RPT token *)

Section ExchangeChecks.
Context {DB : Type} (env : Env DB).
Variables (refreshToken rptToken : string) (w w1 : World DB).
Variables (tkn : jwtToken) (sub : ClaimValue) (identityID : UUID)
          (identity : Identity).

(** The refresh token is parsed and validated (leaving the world [w1]) and
    its subject is resolved to [identity]. *)
Hypothesis Hrefresh : Parse (tokenManager env) refreshToken = Success tkn.
Hypothesis Hvalid : ValidateToken env tkn w = (Ok tt, w1).
Hypothesis Hsub : Claims tkn !! "sub" = Some sub.
Hypothesis Hsubid : uuid_FromString env (Sprintf_s sub) = Success identityID.
Hypothesis Hidentity :
  fst (Identities_LoadWithUser env identityID (db w1)) = Some identity.

Lemma Exchange_banned :
  Banned (identity_User identity) = true ->
  exists msg code,
    ExchangeRefreshToken env refreshToken rptToken w
    = (Fail (UnauthorizedError msg code), w1).
Proof.
  intros Hbanned. unfold ExchangeRefreshToken. rewrite Hrefresh.
  unfold bind at 1, mapFail at 1. rewrite Hvalid, Hsub, Hsubid.
  unfold bind at 1, get at 1. cbv zeta. rewrite Hidentity, Hbanned.
  destruct (snd (Identities_LoadWithUser env identityID (db w1))) as [err|].
  - destruct err; simpl; eauto.
  - simpl. eauto.
Qed.

Hypothesis Hlookup :
  match snd (Identities_LoadWithUser env identityID (db w1)) with
  | Some err => IsUnauthorizedError err = false
  | None => True
  end.
Hypothesis Hnotbanned : Banned (identity_User identity) = false.
Hypothesis Hrpt : rptToken <> "".

(** A failure while the permissions are carried over is the failure of the
    exchange, and leaves the world as the validation left it. *)
Lemma Exchange_permissions_fail (err : error) :
  exchangePermissions env identity rptToken w1 = (Fail err, w1) ->
  ExchangeRefreshToken env refreshToken rptToken w = (Fail err, w1).
Proof.
  intros Hfail. unfold ExchangeRefreshToken. rewrite Hrefresh.
  unfold bind at 1, mapFail at 1. rewrite Hvalid, Hsub, Hsubid.
  unfold bind at 1, get at 1. cbv zeta. rewrite Hidentity, Hnotbanned.
  assert (match snd (Identities_LoadWithUser env identityID (db w1)) with
          | Some err => if IsUnauthorizedError err then Some err else None
          | None => None
          end = None) as ->.
  { destruct (snd (Identities_LoadWithUser env identityID (db w1)));
      [rewrite Hlookup|]; reflexivity. }
  unfold bind at 1, ExecuteInTransaction, exchangeTransaction.
  unfold bind at 1.
  destruct (String.eqb_spec rptToken "") as [|_]; [contradiction|].
  cbn [negb]. rewrite Hfail. destruct w1; reflexivity.
Qed.

Variables (claims : TokenClaims) (tid : UUID) (tok : Token).
Hypothesis Hparse : ParseToken (tokenManager env) rptToken = Success claims.
Hypothesis Hjti : uuid_FromString env (Id claims) = Success tid.
Hypothesis Hload : fst (TokenRepository_Load env tid (db w1)) = Some tok.

Ltac enter :=
  apply Exchange_permissions_fail;
  unfold exchangePermissions; rewrite Hparse, Hjti;
  unfold bind, get; rewrite Hload.

Lemma Exchange_not_owner :
  IdentityID tok <> ID identity ->
  ExchangeRefreshToken env refreshToken rptToken w
  = (Fail (NewUnauthorizedError "invalid token for identity"), w1).
Proof.
  intros Hne. enter.
  destruct (N.eqb_spec (IdentityID tok) (ID identity)); [contradiction|].
  reflexivity.
Qed.

Lemma Exchange_deprovisioned :
  IdentityID tok = ID identity ->
  HasStatus tok (TOKEN_STATUS_DEPROVISIONED env) = true ->
  ExchangeRefreshToken env refreshToken rptToken w
  = (Fail (NewUnauthorizedErrorWithCode "token banned"
             UNAUTHORIZED_CODE_TOKEN_DEPROVISIONED), w1).
Proof.
  intros Hid Hhas. enter. rewrite Hid, N.eqb_refl, Hhas. reflexivity.
Qed.

Lemma Exchange_revoked :
  IdentityID tok = ID identity ->
  HasStatus tok (TOKEN_STATUS_DEPROVISIONED env) = false ->
  HasStatus tok (TOKEN_STATUS_REVOKED env)
    || HasStatus tok (TOKEN_STATUS_LOGGED_OUT env) = true ->
  ExchangeRefreshToken env refreshToken rptToken w
  = (Fail (NewUnauthorizedErrorWithCode "token revoked or logged out"
             UNAUTHORIZED_CODE_TOKEN_REVOKED), w1).
Proof.
  intros Hid Hdep Hhas. enter. rewrite Hid, N.eqb_refl, Hdep, Hhas.
  reflexivity.
Qed.

End ExchangeChecks.

(** * Main results *)

(** Discharges a side condition on concrete data by evaluation. *)
Ltac settle :=
  first [ vm_compute; reflexivity
        | vm_compute; exact I
        | discriminate
        | vm_compute; discriminate
        | vm_compute; left; reflexivity
        | vm_compute; right; reflexivity ].

(** C4: when a token record is found for the parsed jti, it belongs to the
    caller, it is valid (status 0) and the permissions of the parsed token
    include the requested resource, [Audit] returns [(nil, nil)] and leaves
    the database and the log of calls as they were: nothing is minted. *)
Theorem Audit_valid_token_with_resource {DB} (env : Env DB)
    (identity : Identity) (tokenString resourceID : string) (w : World DB)
    (tm : TokenManager) (claims : TokenClaims) (tid : UUID) (tok : Token)
    (permissions : list Permissions) :
  ResourceRepository_CheckExists env resourceID (db w) = None ->
  ReadTokenManagerFromContext env = Success tm ->
  ParseToken tm tokenString = Success claims ->
  uuid_FromString env (Id claims) = Success tid ->
  fst (TokenRepository_Load env tid (db w)) = Some tok ->
  IdentityID tok = ID identity ->
  Valid tok = true ->
  claim_Permissions claims = Some permissions ->
  In resourceID (map ResourceSetID permissions) ->
  Audit env identity tokenString resourceID w = (Ok None, w).
Proof.
  intros. eapply Audit_valid_embedded; eassumption.
Qed.

Lemma Audit_valid_token_with_resource_witness :
  Audit (Scenario.env 5) Scenario.alice "rpt-10R" "R" (initW Scenario.store)
  = (Ok None, initW Scenario.store).
Proof.
  eapply (Audit_valid_token_with_resource (Scenario.env 5) Scenario.alice
            "rpt-10R" "R" (initW Scenario.store));
    settle.
Defined.

(** C5: when the token record found belongs to another identity, [Audit]
    fails Unauthorized and leaves the world as it was; and
    [ExchangeRefreshToken], called with an RPT token and with the identity
    resolved, fails Unauthorized and leaves the world as the validation of
    the refresh token left it: no token is generated or registered. *)
Theorem foreign_token_is_unauthorized {DB} (env : Env DB) :
  (forall identity tokenString resourceID (w : World DB) tm claims tid tok,
     ResourceRepository_CheckExists env resourceID (db w) = None ->
     ReadTokenManagerFromContext env = Success tm ->
     ParseToken tm tokenString = Success claims ->
     uuid_FromString env (Id claims) = Success tid ->
     fst (TokenRepository_Load env tid (db w)) = Some tok ->
     IdentityID tok <> ID identity ->
     Audit env identity tokenString resourceID w
     = (Fail (UnauthorizedError "invalid token for identity"
                UNAUTHORIZED_CODE_PLAIN), w))
  /\
  (forall refreshToken rptToken (w w1 : World DB) tkn sub identityID identity
          claims tid tok,
     Parse (tokenManager env) refreshToken = Success tkn ->
     ValidateToken env tkn w = (Ok tt, w1) ->
     Claims tkn !! "sub" = Some sub ->
     uuid_FromString env (Sprintf_s sub) = Success identityID ->
     fst (Identities_LoadWithUser env identityID (db w1)) = Some identity ->
     match snd (Identities_LoadWithUser env identityID (db w1)) with
     | Some err => IsUnauthorizedError err = false
     | None => True
     end ->
     Banned (identity_User identity) = false ->
     rptToken <> "" ->
     ParseToken (tokenManager env) rptToken = Success claims ->
     uuid_FromString env (Id claims) = Success tid ->
     fst (TokenRepository_Load env tid (db w1)) = Some tok ->
     IdentityID tok <> ID identity ->
     ExchangeRefreshToken env refreshToken rptToken w
     = (Fail (UnauthorizedError "invalid token for identity"
                UNAUTHORIZED_CODE_PLAIN), w1)).
Proof.
  split.
  - intros. eapply Audit_not_owner; eassumption.
  - intros. eapply Exchange_not_owner; eassumption.
Qed.

Lemma foreign_token_is_unauthorized_witness :
  fst (Audit (Scenario.env 5) Scenario.alice "rpt-40" "R" (initW Scenario.store))
  = Fail (UnauthorizedError "invalid token for identity" UNAUTHORIZED_CODE_PLAIN)
  /\
  fst (ExchangeRefreshToken (Scenario.env 5) "refresh-30" "rpt-40"
         (initW Scenario.store))
  = Fail (UnauthorizedError "invalid token for identity" UNAUTHORIZED_CODE_PLAIN).
Proof.
  destruct (foreign_token_is_unauthorized (Scenario.env 5)) as [Haudit Hexchange].
  split.
  - erewrite (Haudit Scenario.alice "rpt-40" "R" (initW Scenario.store));
      [reflexivity | settle ..].
  - erewrite (Hexchange "refresh-30" "rpt-40" (initW Scenario.store));
      [reflexivity | settle ..].
Defined.

(** C6: for a caller-owned token record, [Audit] and
    [ExchangeRefreshToken] fail Unauthorized with the deprovisioned code
    when the DEPROVISIONED flag is set, whatever the resource and the
    scopes; and with the revoked code, the same for both flags, when
    REVOKED or LOGGED_OUT is set and DEPROVISIONED is not.  The flags are
    not zero. *)
Theorem flagged_token_is_unauthorized {DB} (env : Env DB) :
  independentFlags env ->
  (forall identity tokenString resourceID (w : World DB) tm claims tid tok,
     ResourceRepository_CheckExists env resourceID (db w) = None ->
     ReadTokenManagerFromContext env = Success tm ->
     ParseToken tm tokenString = Success claims ->
     uuid_FromString env (Id claims) = Success tid ->
     fst (TokenRepository_Load env tid (db w)) = Some tok ->
     IdentityID tok = ID identity ->
     (HasStatus tok (TOKEN_STATUS_DEPROVISIONED env) = true ->
      Audit env identity tokenString resourceID w
      = (Fail (UnauthorizedError "token banned"
                 UNAUTHORIZED_CODE_TOKEN_DEPROVISIONED), w))
     /\
     (HasStatus tok (TOKEN_STATUS_DEPROVISIONED env) = false ->
      HasStatus tok (TOKEN_STATUS_REVOKED env) = true \/
      HasStatus tok (TOKEN_STATUS_LOGGED_OUT env) = true ->
      Audit env identity tokenString resourceID w
      = (Fail (UnauthorizedError "token revoked or logged out"
                 UNAUTHORIZED_CODE_TOKEN_REVOKED), w)))
  /\
  (forall refreshToken rptToken (w w1 : World DB) tkn sub identityID identity
          claims tid tok,
     Parse (tokenManager env) refreshToken = Success tkn ->
     ValidateToken env tkn w = (Ok tt, w1) ->
     Claims tkn !! "sub" = Some sub ->
     uuid_FromString env (Sprintf_s sub) = Success identityID ->
     fst (Identities_LoadWithUser env identityID (db w1)) = Some identity ->
     match snd (Identities_LoadWithUser env identityID (db w1)) with
     | Some err => IsUnauthorizedError err = false
     | None => True
     end ->
     Banned (identity_User identity) = false ->
     rptToken <> "" ->
     ParseToken (tokenManager env) rptToken = Success claims ->
     uuid_FromString env (Id claims) = Success tid ->
     fst (TokenRepository_Load env tid (db w1)) = Some tok ->
     IdentityID tok = ID identity ->
     (HasStatus tok (TOKEN_STATUS_DEPROVISIONED env) = true ->
      ExchangeRefreshToken env refreshToken rptToken w
      = (Fail (UnauthorizedError "token banned"
                 UNAUTHORIZED_CODE_TOKEN_DEPROVISIONED), w1))
     /\
     (HasStatus tok (TOKEN_STATUS_DEPROVISIONED env) = false ->
      HasStatus tok (TOKEN_STATUS_REVOKED env) = true \/
      HasStatus tok (TOKEN_STATUS_LOGGED_OUT env) = true ->
      ExchangeRefreshToken env refreshToken rptToken w
      = (Fail (UnauthorizedError "token revoked or logged out"
                 UNAUTHORIZED_CODE_TOKEN_REVOKED), w1)))
  /\
  UNAUTHORIZED_CODE_TOKEN_REVOKED <> UNAUTHORIZED_CODE_TOKEN_DEPROVISIONED.
Proof.
  intros (Hdep & Hrev & Hout & _). split; [|split; [|discriminate]].
  - intros identity tokenString resourceID w tm claims tid tok
           Hexists Htm Hparse Hjti Hload Hid.
    split.
    + intros Hhas. eapply Audit_deprovisioned; eassumption.
    + intros Hnot Hhas. eapply Audit_revoked; try eassumption.
      apply orb_true_iff. exact Hhas.
  - intros refreshToken rptToken w w1 tkn sub identityID identity claims tid tok
           Hrefresh Hvalid Hsub Hsubid Hidentity Hlookup Hnotbanned Hrpt
           Hparse Hjti Hload Hid.
    split.
    + intros Hhas. eapply Exchange_deprovisioned; eassumption.
    + intros Hnot Hhas. eapply Exchange_revoked; try eassumption.
      apply orb_true_iff. exact Hhas.
Qed.

Lemma independentFlags_scenario (max : Z) : independentFlags (Scenario.env max).
Proof. vm_compute. repeat split; discriminate. Defined.

Lemma flagged_token_is_unauthorized_witness :
  fst (Audit (Scenario.env 5) Scenario.alice "rpt-41" "R" (initW Scenario.store))
  = Fail (UnauthorizedError "token banned" UNAUTHORIZED_CODE_TOKEN_DEPROVISIONED)
  /\
  fst (Audit (Scenario.env 5) Scenario.alice "rpt-43" "R" (initW Scenario.store))
  = Fail (UnauthorizedError "token revoked or logged out"
            UNAUTHORIZED_CODE_TOKEN_REVOKED)
  /\
  fst (ExchangeRefreshToken (Scenario.env 5) "refresh-30" "rpt-41"
         (initW Scenario.store))
  = Fail (UnauthorizedError "token banned" UNAUTHORIZED_CODE_TOKEN_DEPROVISIONED)
  /\
  fst (ExchangeRefreshToken (Scenario.env 5) "refresh-30" "rpt-42"
         (initW Scenario.store))
  = Fail (UnauthorizedError "token revoked or logged out"
            UNAUTHORIZED_CODE_TOKEN_REVOKED).
Proof.
  destruct (flagged_token_is_unauthorized (Scenario.env 5)
              (independentFlags_scenario 5)) as (Haudit & Hexchange & _).
  split; [|split; [|split]].
  - edestruct (Haudit Scenario.alice "rpt-41" "R" (initW Scenario.store))
      as [Hdep _]; [settle ..|].
    rewrite Hdep; reflexivity.
  - edestruct (Haudit Scenario.alice "rpt-43" "R" (initW Scenario.store))
      as [_ Hrev]; [settle ..|].
    rewrite Hrev; [reflexivity | reflexivity | right; reflexivity].
  - edestruct (Hexchange "refresh-30" "rpt-41" (initW Scenario.store))
      as [Hdep _]; [settle ..|].
    rewrite Hdep; reflexivity.
  - edestruct (Hexchange "refresh-30" "rpt-42" (initW Scenario.store))
      as [_ Hrev]; [settle ..|].
    rewrite Hrev; [reflexivity | reflexivity | left; reflexivity].
Defined.

(** C7: when the identity resolved from the refresh token is banned,
    [ExchangeRefreshToken] returns an Unauthorized error and leaves the
    world as the validation of the refresh token left it; and on every
    path, the identity handed to [GenerateUserTokenUsingRefreshToken] is
    not a banned one, so for a banned identity that call is never made and
    no token is registered. *)
Theorem banned_identity_gets_no_token {DB} (env : Env DB) :
  (forall refreshToken rptToken (w w1 : World DB) tkn sub identityID identity,
     Parse (tokenManager env) refreshToken = Success tkn ->
     ValidateToken env tkn w = (Ok tt, w1) ->
     Claims tkn !! "sub" = Some sub ->
     uuid_FromString env (Sprintf_s sub) = Success identityID ->
     fst (Identities_LoadWithUser env identityID (db w1)) = Some identity ->
     Banned (identity_User identity) = true ->
     exists msg code,
       ExchangeRefreshToken env refreshToken rptToken w
       = (Fail (UnauthorizedError msg code), w1))
  /\
  (forall refreshToken rptToken (d : DB) rt identity permissions,
     In (CallGenerateUserToken rt (Some identity) permissions)
        (calls (snd (ExchangeRefreshToken env refreshToken rptToken (initW d)))) ->
     Banned (identity_User identity) = false).
Proof.
  split.
  - intros. eapply Exchange_banned; eassumption.
  - intros refreshToken rptToken d rt identity permissions Hin.
    pose (P := fun c : Call =>
                 match c with
                 | CallGenerateUserToken _ (Some i) _ =>
                     Banned (identity_User i) = false
                 | _ => True
                 end).
    assert (Forall P (calls (snd (ExchangeRefreshToken env refreshToken rptToken
                                     (initW d))))) as Hall.
    { apply preserves_ExchangeRefreshToken; try (intros; exact I).
      - intros [i|] perms Hi _; exact Hi.
      - constructor. }
    rewrite List.Forall_forall in Hall. exact (Hall _ Hin).
Qed.

Lemma banned_identity_gets_no_token_witness :
  exists msg code,
    ExchangeRefreshToken (Scenario.env 5) "refresh-31" "rpt-10"
      (initW Scenario.store)
    = (Fail (UnauthorizedError msg code),
       snd (ValidateToken (Scenario.env 5) (Scenario.refreshOf "31" "2")
              (initW Scenario.store))).
Proof.
  destruct (banned_identity_gets_no_token (Scenario.env 5)) as [Hbanned _].
  eapply (Hbanned "refresh-31" "rpt-10" (initW Scenario.store)); settle.
Defined.

(** ** ValidateToken *)

Section Validate.
Context {DB : Type} (env : Env DB).
Variables (accessToken : jwtToken) (w : World DB) (jti : string) (tokenID : UUID).
Hypothesis Hjti : Claims accessToken !! "jti" = Some (ClaimString jti).
Hypothesis Hid : uuid_FromString env jti = Success tokenID.

Lemma ValidateToken_load_error (err : error) :
  snd (TokenRepository_Load env tokenID (db w)) = Some err ->
  ValidateToken env accessToken w = (Fail err, w).
Proof.
  intros Hload. unfold ValidateToken. rewrite Hjti, Hid.
  unfold bind, get. rewrite Hload. reflexivity.
Qed.

Lemma ValidateToken_invalid (tkn : Token) :
  TokenRepository_Load env tokenID (db w) = (Some tkn, None) ->
  Valid tkn = false ->
  ValidateToken env accessToken w
  = (Fail (NewUnauthorizedError "invalid token"), w).
Proof.
  intros Hload Hinvalid. unfold ValidateToken. rewrite Hjti, Hid.
  unfold bind, get. rewrite Hload. simpl. rewrite Hinvalid. reflexivity.
Qed.

Lemma ValidateToken_touch (tkn : Token) (sub : string) (identityID : UUID) :
  TokenRepository_Load env tokenID (db w) = (Some tkn, None) ->
  Valid tkn = true ->
  match Claims accessToken !! "transient" with
  | None => True
  | Some (ClaimString s) => ParseBool s = None \/ ParseBool s = Some false
  | Some (ClaimOther _) => False
  end ->
  Claims accessToken !! "sub" = Some (ClaimString sub) ->
  uuid_FromString env sub = Success identityID ->
  ValidateToken env accessToken w
  = (match fst (Identities_TouchLastActive env identityID (db w)) with
     | None => Ok tt
     | Some e => Fail (NewInternalError e)
     end,
     mkWorld (snd (Identities_TouchLastActive env identityID (db w)))
       (calls w ++ [CallTouchLastActive identityID])).
Proof.
  intros Hload Hvalid Htransient Hsub Hsubid. unfold ValidateToken.
  rewrite Hjti, Hid. unfold bind at 1, get at 1. rewrite Hload. simpl.
  rewrite Hvalid. simpl. unfold bind at 1.
  assert ((match Claims accessToken !! "transient" with
           | Some (ClaimString transClaim) =>
               match ParseBool transClaim with
               | Some b => ret b
               | None => ret false
               end
           | Some (ClaimOther _) => panic
           | None => ret false
           end) w = (Ok false, w)) as ->.
  { destruct (Claims accessToken !! "transient") as [[s|]|];
      [|contradiction|reflexivity].
    destruct Htransient as [-> | ->]; reflexivity. }
  simpl. rewrite Hsub, Hsubid. unfold bind, write.
  destruct (Identities_TouchLastActive env identityID (db w)) as [[e|] d'];
    reflexivity.
Qed.

End Validate.

(** C8: in [ValidateToken], an error of loading the token record by its
    jti, not-found included, is returned as it is; and a loaded record that
    is not valid (status other than 0) makes the call fail Unauthorized.
    In both cases the world is left as it was: the last-active stamp is not
    touched. *)
Theorem ValidateToken_rejects {DB} (env : Env DB) (accessToken : jwtToken)
    (w : World DB) (jti : string) (tokenID : UUID) :
  Claims accessToken !! "jti" = Some (ClaimString jti) ->
  uuid_FromString env jti = Success tokenID ->
  (forall err,
     snd (TokenRepository_Load env tokenID (db w)) = Some err ->
     ValidateToken env accessToken w = (Fail err, w))
  /\
  (forall tkn,
     TokenRepository_Load env tokenID (db w) = (Some tkn, None) ->
     Status tkn <> 0 ->
     Valid tkn = false /\
     ValidateToken env accessToken w
     = (Fail (UnauthorizedError "invalid token" UNAUTHORIZED_CODE_PLAIN), w)).
Proof.
  intros Hjti Hid. split.
  - intros err Hload. eapply ValidateToken_load_error; eassumption.
  - intros tkn Hload Hstatus.
    assert (Valid tkn = false) as Hinvalid by now apply Z.eqb_neq.
    split; [exact Hinvalid|].
    eapply ValidateToken_invalid; eassumption.
Qed.

Lemma ValidateToken_rejects_witness :
  ValidateToken (Scenario.env 5) (Scenario.refreshOf "77" "1")
    (initW Scenario.store)
  = (Fail (NotFoundError "token" ""), initW Scenario.store)
  /\
  ValidateToken (Scenario.env 5) (Scenario.refreshOf "32" "1")
    (initW Scenario.store)
  = (Fail (UnauthorizedError "invalid token" UNAUTHORIZED_CODE_PLAIN),
     initW Scenario.store).
Proof.
  split.
  - edestruct (ValidateToken_rejects (Scenario.env 5)
                 (Scenario.refreshOf "77" "1") (initW Scenario.store))
      as [Herr _]; [settle ..|].
    apply Herr. settle.
  - edestruct (ValidateToken_rejects (Scenario.env 5)
                 (Scenario.refreshOf "32" "1") (initW Scenario.store))
      as [_ Hinvalid]; [settle ..|].
    eapply Hinvalid; settle.
Defined.

(** C10: in [ValidateToken], a "transient" claim whose string does not
    parse as a boolean changes nothing: the call does what it does without
    the claim; and on a loaded, valid token whose "sub" claim is an
    identifier it goes on to touch the last-active stamp of that identity,
    failing only if the touch fails. *)
Theorem ValidateToken_unparsable_transient {DB} (env : Env DB)
    (accessToken : jwtToken) (w : World DB) (transClaim : string) :
  Claims accessToken !! "transient" = Some (ClaimString transClaim) ->
  ParseBool transClaim = None ->
  ValidateToken env accessToken w
  = ValidateToken env
      (mkJwt (Raw accessToken) (delete "transient" (Claims accessToken))) w
  /\
  (forall jti tokenID tkn sub identityID,
     Claims accessToken !! "jti" = Some (ClaimString jti) ->
     uuid_FromString env jti = Success tokenID ->
     TokenRepository_Load env tokenID (db w) = (Some tkn, None) ->
     Valid tkn = true ->
     Claims accessToken !! "sub" = Some (ClaimString sub) ->
     uuid_FromString env sub = Success identityID ->
     ValidateToken env accessToken w
     = (match fst (Identities_TouchLastActive env identityID (db w)) with
        | None => Ok tt
        | Some e => Fail (NewInternalError e)
        end,
        mkWorld (snd (Identities_TouchLastActive env identityID (db w)))
          (calls w ++ [CallTouchLastActive identityID]))).
Proof.
  intros Htransient Hbool. split.
  - unfold ValidateToken. cbn [Claims Raw].
    rewrite (lookup_delete_ne (Claims accessToken) "transient" "jti")
      by discriminate.
    rewrite (lookup_delete_ne (Claims accessToken) "transient" "sub")
      by discriminate.
    rewrite lookup_delete_eq, Htransient, Hbool. reflexivity.
  - intros jti tokenID tkn sub identityID Hjti Hid Hload Hvalid Hsub Hsubid.
    eapply ValidateToken_touch; try eassumption.
    rewrite Htransient. now left.
Qed.

Lemma ValidateToken_unparsable_transient_witness :
  ValidateToken (Scenario.env 5) Scenario.oddTransient (initW Scenario.store)
  = (Ok tt,
     mkWorld (snd (Demo.touchLastActive 1%N Scenario.store))
       [CallTouchLastActive 1%N]).
Proof.
  edestruct (ValidateToken_unparsable_transient (Scenario.env 5)
               Scenario.oddTransient (initW Scenario.store))
    as [_ Htouch]; [settle ..|].
  erewrite Htouch; [reflexivity | settle ..].
Defined.

(** ** The permissions of a minted token *)

Lemma mintedPermissions_bound {DB} (env : Env DB) (d : DB) identity resourceID
    loadedToken (perms : list Permissions) :
  mintedPermissions env d identity resourceID loadedToken perms ->
  Z.of_nat (length perms) <= Z.max 1 (GetRPTTokenMaxPermissions env).
Proof.
  intros (pc & Hpc & Hperms). destruct loadedToken as [tok|].
  - destruct Hperms as (olds & tps & Holds & Hmig).
    apply auditMigrate_spec in Hmig as (added & -> & Hadded).
    apply Forall2_length in Hadded. rewrite length_take in Hadded.
    rewrite length_app. simpl in *. lia.
  - subst perms. simpl. lia.
Qed.

(** C1 (amended): the permission list handed to the generation step holds
    at most max(1, GetRPTTokenMaxPermissions()) entries in [Audit], where
    the requested resource always takes the first slot, and at most
    max(0, GetRPTTokenMaxPermissions()) entries in [ExchangeRefreshToken];
    hence at most the configured maximum whenever that is at least 1. *)
Theorem minted_permissions_bounded {DB} (env : Env DB) :
  (forall identity tokenString resourceID (d : DB) c i perms,
     In (CallGenerateUnsignedRPT c i perms)
        (calls (snd (Audit env identity tokenString resourceID (initW d)))) ->
     Z.of_nat (length perms) <= Z.max 1 (GetRPTTokenMaxPermissions env))
  /\
  (forall refreshToken rptToken (d : DB) rt i perms,
     In (CallGenerateUserToken rt i perms)
        (calls (snd (ExchangeRefreshToken env refreshToken rptToken (initW d)))) ->
     Z.of_nat (length perms) <= Z.max 0 (GetRPTTokenMaxPermissions env))
  /\
  (1 <= GetRPTTokenMaxPermissions env ->
   Z.max 1 (GetRPTTokenMaxPermissions env) = GetRPTTokenMaxPermissions env /\
   Z.max 0 (GetRPTTokenMaxPermissions env) = GetRPTTokenMaxPermissions env).
Proof.
  split; [|split; [|lia]].
  - intros identity tokenString resourceID d c i perms Hin.
    pose (P := fun call : Call =>
                 match call with
                 | CallGenerateUnsignedRPT _ _ perms =>
                     Z.of_nat (length perms)
                     <= Z.max 1 (GetRPTTokenMaxPermissions env)
                 | _ => True
                 end).
    assert (Forall P (calls (snd (Audit env identity tokenString resourceID
                                     (initW d))))) as Hall.
    { apply Audit_calls; try (intros; exact I); [|constructor].
      intros tm claims tid perms' _ _ _ Hminted.
      exact (mintedPermissions_bound _ _ _ _ _ _ Hminted). }
    rewrite List.Forall_forall in Hall. exact (Hall _ Hin).
  - intros refreshToken rptToken d rt i perms Hin.
    pose (P := fun call : Call =>
                 match call with
                 | CallGenerateUserToken _ _ perms =>
                     Z.of_nat (length perms)
                     <= Z.max 0 (GetRPTTokenMaxPermissions env)
                 | _ => True
                 end).
    assert (Forall P (calls (snd (ExchangeRefreshToken env refreshToken rptToken
                                     (initW d))))) as Hall.
    { apply preserves_ExchangeRefreshToken; try (intros; exact I).
      - intros identity perms' _ Hbound. exact Hbound.
      - constructor. }
    rewrite List.Forall_forall in Hall. exact (Hall _ Hin).
Qed.

Lemma minted_permissions_bounded_witness :
  let perms :=
    [ mkPermissions "R" ["write"; "read"] 500;
      mkPermissions "H02" ["read"] 120;
      mkPermissions "H06" ["admin"] 600;
      mkPermissions "H08" ["read"] 100;
      mkPermissions "H04" ["read"] 90 ] in
  Z.of_nat (length perms) <= Z.max 1 (GetRPTTokenMaxPermissions (Scenario.env 5)).
Proof.
  intros perms.
  destruct (minted_permissions_bounded (Scenario.env 5)) as [Haudit _].
  eapply (Haudit Scenario.alice "rpt-10" "R" Scenario.store).
  vm_compute. left. reflexivity.
Defined.

(** C1 (as stated, refuted): with the maximum configured as 0 and no prior
    token record, [Audit] mints and returns a token whose permission list
    has one entry. *)
Lemma Audit_exceeds_zero_maximum :
  let run := Audit (Scenario.env 0) Scenario.alice "rpt-99" "R"
               (initW Scenario.store) in
  GetRPTTokenMaxPermissions (Scenario.env 0) = 0 /\
  fst run = Ok (Some "rpt") /\
  exists c i perms,
    In (CallGenerateUnsignedRPT c i perms) (calls (snd run)) /\
    ~ Z.of_nat (length perms) <= GetRPTTokenMaxPermissions (Scenario.env 0).
Proof.
  split; [reflexivity|]. split; [vm_compute; reflexivity|].
  eexists _, _, [mkPermissions "R" ["write"; "read"] 500].
  split; [vm_compute; left; reflexivity|].
  vm_compute. intros H. apply H. reflexivity.
Qed.

Lemma filter_all {A} (P : A -> Prop) `{forall x, Decision (P x)} (l : list A) :
  Forall P l -> filter P l = l.
Proof.
  induction 1 as [|x l Hx Hl IH]; [reflexivity|].
  rewrite filter_cons_True by assumption. now rewrite IH.
Qed.

Lemma Forall_filter_holds {A} (P : A -> Prop) `{forall x, Decision (P x)}
    (l : list A) :
  Forall P (filter P l).
Proof.
  apply List.Forall_forall. intros x Hx.
  apply list_elem_of_In, list_elem_of_filter in Hx. tauto.
Qed.

Lemma StronglySorted_sublist {A} (R : A -> A -> Prop) (l1 l2 : list A) :
  l1 `sublist_of` l2 -> StronglySorted R l2 -> StronglySorted R l1.
Proof.
  induction 1 as [|x l1 l2 Hsub IH|x l1 l2 Hsub IH]; intros Hs.
  - constructor.
  - apply StronglySorted_inv in Hs as [Hs Hx]. constructor; [now apply IH|].
    apply List.Forall_forall. intros y Hy.
    rewrite List.Forall_forall in Hx. apply Hx.
    apply list_elem_of_In. eapply elem_of_sublist; [|exact Hsub].
    now apply list_elem_of_In.
  - apply StronglySorted_inv in Hs as [Hs _]. now apply IH.
Qed.

(** What the mint transaction of [Audit] builds from the privileges of a
    prior token, under the contract of the sort. *)
Lemma mintedPermissions_history {DB} (env : Env DB) (d : DB) identity
    resourceID tok (perms : list Permissions) :
  sortContract env ->
  mintedPermissions env d identity resourceID (Some tok) perms ->
  exists privilegeCache oldTokenPrivs migrated,
    CachedPrivileges env (ID identity) resourceID d = Success privilegeCache /\
    TokenRepository_ListPrivileges env (TokenID tok) d = Success oldTokenPrivs /\
    perms = requestedPermission resourceID privilegeCache :: migrated /\
    let sorted := sort_Slice env byExpiryLatestFirst oldTokenPrivs in
    let taken :=
      take (Z.to_nat (GetRPTTokenMaxPermissions env - 1))
        (filter (fun p => ResourceID p <> resourceID) sorted) in
    Permutation sorted oldTokenPrivs /\
    StronglySorted (fun a b => pc_ExpiryTime b <= pc_ExpiryTime a) sorted /\
    StronglySorted (fun a b => pc_ExpiryTime b <= pc_ExpiryTime a) taken /\
    Forall2 (migrates env d (ID identity)) taken migrated /\
    Forall (fun perm => ResourceSetID perm <> resourceID) migrated /\
    (length oldTokenPrivs = 12%nat ->
     GetRPTTokenMaxPermissions env = 5 ->
     Forall (fun p => ResourceID p <> resourceID) oldTokenPrivs ->
     length perms = 5%nat /\
     taken = take 4 sorted /\
     forall x y, In x taken -> In y (drop 4 sorted) ->
                 pc_ExpiryTime y <= pc_ExpiryTime x).
Proof.
  intros Hsort (pc & Hpc & olds & tps & Holds & Hmig).
  apply auditMigrate_spec in Hmig as (migrated & -> & Hmigrated).
  exists pc, olds, migrated.
  split; [exact Hpc|]. split; [exact Holds|]. split; [reflexivity|].
  cbv zeta. simpl length in Hmigrated.
  change (Z.of_nat 1) with 1 in Hmigrated.
  pose proof (sorted_latest_first env olds Hsort) as Hsorted.
  destruct (Hsort olds) as [Hperm _].
  split; [exact Hperm|]. split; [exact Hsorted|].
  split.
  { eapply StronglySorted_sublist; [|exact Hsorted].
    etransitivity; [apply sublist_take | apply sublist_filter]. }
  split; [exact Hmigrated|].
  split.
  - eapply Forall2_Forall_r; [exact Hmigrated|].
    apply Forall_take.
    eapply Forall_impl; [apply Forall_filter_holds|].
    intros p Hp perm [Hres _]. rewrite Hres. exact Hp.
  - intros Hlen Hmax Hnone. rewrite Hmax in *.
    change (Z.to_nat (5 - 1)) with 4%nat in *.
    assert (Forall (fun p => ResourceID p <> resourceID)
              (sort_Slice env byExpiryLatestFirst olds)) as Hnone'.
    { apply List.Forall_forall. intros x Hx.
      rewrite List.Forall_forall in Hnone. apply Hnone.
      eapply Permutation_in; eassumption. }
    rewrite (filter_all _ _ Hnone') in *.
    assert (length (sort_Slice env byExpiryLatestFirst olds) = 12%nat) as Hlen'
      by (rewrite <- Hlen; now apply Permutation_length).
    split; [|split; [reflexivity|]].
    + apply Forall2_length in Hmigrated. rewrite length_take, Hlen' in Hmigrated.
      simpl in *. lia.
    + intros x y Hx Hy.
      rewrite <- (take_drop 4 (sort_Slice env byExpiryLatestFirst olds)) in Hsorted.
      apply (StronglySorted_app_1_elem_of _ _ _ x y Hsorted);
        now apply list_elem_of_In.
Qed.

(** C2: when [Audit] reaches the generation step with a prior token record
    present, the permission list it hands over starts with the requested
    resource under its live scopes and expiry from the privilege cache,
    followed by the privileges of the prior token taken from the latest
    expiry to the earliest, the requested resource passed over, as many as
    the maximum leaves room for (stale ones with the scopes and expiry of
    the cache).  With 12 historical privileges, maximum 5 and the requested
    resource not among them, these are the requested resource and the 4
    privileges of latest expiry.  The sort is assumed to meet the contract
    of [sort.Slice]. *)
Theorem Audit_mints_latest_expiring_first {DB} (env : Env DB)
    (identity : Identity) (tokenString resourceID : string) (d : DB)
    (tm : TokenManager) (claims : TokenClaims) (tid : UUID) (tok : Token)
    (c : TokenClaims) (i : Identity) (perms : list Permissions) :
  sortContract env ->
  ReadTokenManagerFromContext env = Success tm ->
  ParseToken tm tokenString = Success claims ->
  uuid_FromString env (Id claims) = Success tid ->
  fst (TokenRepository_Load env tid d) = Some tok ->
  In (CallGenerateUnsignedRPT c i perms)
     (calls (snd (Audit env identity tokenString resourceID (initW d)))) ->
  exists privilegeCache oldTokenPrivs migrated,
    CachedPrivileges env (ID identity) resourceID d = Success privilegeCache /\
    TokenRepository_ListPrivileges env (TokenID tok) d = Success oldTokenPrivs /\
    perms = requestedPermission resourceID privilegeCache :: migrated /\
    let sorted := sort_Slice env byExpiryLatestFirst oldTokenPrivs in
    let taken :=
      take (Z.to_nat (GetRPTTokenMaxPermissions env - 1))
        (filter (fun p => ResourceID p <> resourceID) sorted) in
    Permutation sorted oldTokenPrivs /\
    StronglySorted (fun a b => pc_ExpiryTime b <= pc_ExpiryTime a) sorted /\
    StronglySorted (fun a b => pc_ExpiryTime b <= pc_ExpiryTime a) taken /\
    Forall2 (migrates env d (ID identity)) taken migrated /\
    Forall (fun perm => ResourceSetID perm <> resourceID) migrated /\
    (length oldTokenPrivs = 12%nat ->
     GetRPTTokenMaxPermissions env = 5 ->
     Forall (fun p => ResourceID p <> resourceID) oldTokenPrivs ->
     length perms = 5%nat /\
     taken = take 4 sorted /\
     forall x y, In x taken -> In y (drop 4 sorted) ->
                 pc_ExpiryTime y <= pc_ExpiryTime x).
Proof.
  intros Hsort Htm Hparse Hjti Hload Hin.
  pose (P := fun call : Call =>
               match call with
               | CallGenerateUnsignedRPT _ _ perms =>
                   mintedPermissions env d identity resourceID (Some tok) perms
               | _ => True
               end).
  assert (Forall P (calls (snd (Audit env identity tokenString resourceID
                                   (initW d))))) as Hall.
  { apply Audit_calls; try (intros; exact I); [|constructor].
    intros tm' claims' tid' perms' Htm' Hparse' Hjti' Hminted. simpl in *.
    assert (tm' = tm) as -> by congruence.
    assert (claims' = claims) as -> by congruence.
    assert (tid' = tid) as -> by congruence.
    rewrite Hload in Hminted. exact Hminted. }
  rewrite List.Forall_forall in Hall. specialize (Hall _ Hin). simpl in Hall.
  exact (mintedPermissions_history env d identity resourceID tok perms Hsort Hall).
Qed.

Lemma sortContract_scenario (max : Z) : sortContract (Scenario.env max).
Proof.
  intros l. simpl. unfold Demo.sortLatestFirst.
  assert (Total (fun a b : PrivilegeCache =>
                   Is_true (negb (byExpiryLatestFirst b a)))) as Htotal.
  { intros a b. unfold byExpiryLatestFirst, After.
    destruct (Z.ltb_spec (pc_ExpiryTime a) (pc_ExpiryTime b)),
             (Z.ltb_spec (pc_ExpiryTime b) (pc_ExpiryTime a));
      simpl; try tauto; lia. }
  split.
  - apply merge_sort_Permutation.
  - eapply Sorted_weaken; [|apply (Sorted_merge_sort _)].
    intros a b Hab. simpl in Hab.
    destruct (byExpiryLatestFirst b a); [contradiction | reflexivity].
Defined.

Lemma Audit_mints_latest_expiring_first_witness :
  let perms :=
    [ mkPermissions "R" ["write"; "read"] 500;
      mkPermissions "H02" ["read"] 120;
      mkPermissions "H06" ["admin"] 600;
      mkPermissions "H08" ["read"] 100;
      mkPermissions "H04" ["read"] 90 ] in
  exists privilegeCache migrated,
    perms = requestedPermission "R" privilegeCache :: migrated /\
    Forall (fun perm => ResourceSetID perm <> "R") migrated /\
    length perms = 5%nat.
Proof.
  intros perms.
  destruct (Audit_mints_latest_expiring_first (Scenario.env 5) Scenario.alice
              "rpt-10" "R" Scenario.store
              (Demo.manager Scenario.known Scenario.knownJwt)
              (mkTokenClaims "10" 900 (Some [mkPermissions "H01" ["read"] 30]))
              10%N (mkToken 10%N 1%N 0 TOKEN_TYPE_RPT (Scenario.seconds 900))
              (mkTokenClaims "10" 900 (Some [mkPermissions "H01" ["read"] 30]))
              Scenario.alice perms)
    as (pc & olds & migrated & Hpc & Holds & Hperms & _ & _ & _ & _ & Hother
        & Hscenario);
    [apply sortContract_scenario | settle ..|].
  exists pc, migrated. split; [exact Hperms|]. split; [exact Hother|].
  apply Hscenario.
  - vm_compute in Holds. injection Holds as <-. reflexivity.
  - reflexivity.
  - vm_compute in Holds. injection Holds as <-.
    repeat constructor; discriminate.
Defined.



(** * Further properties of the service *)

(** ** RegisterToken *)

Section Register.
Context {DB : Type} (env : Env DB).

(** The loop over the privileges either persists all of them, in order, or
    stops at the first error. *)
Lemma createPrivileges_run tokenID wrap privileges (w : World DB) :
  (fst (createPrivileges env tokenID wrap privileges w) = Ok tt /\
   calls (snd (createPrivileges env tokenID wrap privileges w))
   = (calls w ++ map CallCreatePrivilege (stamp tokenID privileges))%list)
  \/ exists e, fst (createPrivileges env tokenID wrap privileges w) = Fail (wrap e).
Proof.
  revert w. induction privileges as [|tokenPriv rest IH]; intros w.
  - left. simpl. rewrite app_nil_r. split; reflexivity.
  - simpl. unfold bind, write.
    destruct (TokenRepository_CreatePrivilege env _ (db w)) as [[e|] d'] eqn:Hc;
      simpl.
    + right. now exists e.
    + destruct (IH (mkWorld d' (calls w ++ [CallCreatePrivilege
                  (mkTokenPrivilege tokenID (tp_PrivilegeCacheID tokenPriv))])))
        as [[Hok Hcalls]|[e He]].
      * left. split; [exact Hok|]. rewrite Hcalls. simpl.
        now rewrite <- app_assoc.
      * right. now exists e.
Qed.

Lemma Unix_time_Unix (sec : Z) : Unix (time_Unix sec 0) = sec.
Proof. unfold Unix, time_Unix. rewrite Z.add_0_r. now apply Z.div_mul. Qed.

(** A successful [RegisterToken], read backwards. *)
Lemma RegisterToken_Ok_inv identityID tokenString tokenType privileges
    (w w' : World DB) (tkn : Token) :
  RegisterToken env identityID tokenString tokenType privileges w = (Ok tkn, w') ->
  exists tokenClaims tokenID,
    ParseToken (tokenManager env) tokenString = Success tokenClaims /\
    uuid_FromString env (Id tokenClaims) = Success tokenID /\
    tkn = mkToken tokenID identityID 0 tokenType
            (time_Unix (ExpiresAt tokenClaims) 0) /\
    Unix (ExpiryTime tkn) = ExpiresAt tokenClaims /\
    calls w' = (calls w ++ CallCreate tkn
                  :: map CallCreatePrivilege (stamp tokenID privileges))%list.
Proof.
  unfold RegisterToken.
  destruct (ParseToken _ _) as [tokenClaims|] eqn:Hparse; [|discriminate].
  destruct (uuid_FromString _ _) as [tokenID|] eqn:Hjti; [|discriminate].
  intros Hrun. exists tokenClaims, tokenID.
  split; [reflexivity|]. split; [exact Hjti|].
  unfold bind at 1, mapFail, ExecuteInTransaction, bind at 1, write in Hrun.
  destruct (TokenRepository_Create env _ (db w)) as [[e|] d'] eqn:Hc;
    simpl in Hrun; [discriminate|].
  match type of Hrun with
  | context [createPrivileges env ?t ?f ?p ?w0] =>
      destruct (createPrivileges_run t f p w0) as [[Hok Hcalls]|[e He]];
      destruct (createPrivileges env t f p w0) as [[[]|e'|] w1] eqn:Hp;
      simpl in *; try discriminate
  end.
  injection Hrun as <- <-.
  split; [reflexivity|]. split; [apply Unix_time_Unix|].
  rewrite Hcalls, <- app_assoc. reflexivity.
Qed.

(** X1: a successful [RegisterToken] returns the record it created: its id
    is the jti of the token string, it belongs to the given identity, has
    status 0 and the given type, and expires at the second the claims give;
    the calls made are one [Create] of that record followed by one
    [CreatePrivilege] per privilege, in order, each carrying the id of the
    new token. *)
Theorem RegisterToken_success identityID tokenString tokenType privileges
    (w w' : World DB) (tkn : Token) :
  RegisterToken env identityID tokenString tokenType privileges w = (Ok tkn, w') ->
  exists tokenClaims tokenID,
    ParseToken (tokenManager env) tokenString = Success tokenClaims /\
    uuid_FromString env (Id tokenClaims) = Success tokenID /\
    tkn = mkToken tokenID identityID 0 tokenType
            (time_Unix (ExpiresAt tokenClaims) 0) /\
    Unix (ExpiryTime tkn) = ExpiresAt tokenClaims /\
    calls w' = (calls w ++ CallCreate tkn
                  :: map CallCreatePrivilege (stamp tokenID privileges))%list.
Proof. apply RegisterToken_Ok_inv. Qed.

(** X2: a failing [RegisterToken] leaves the database as it was.  Its error
    is BadParameter when the token string or its jti cannot be read, and
    then nothing was called; it is an Internal error otherwise.  It never
    panics. *)
Theorem RegisterToken_failure identityID tokenString tokenType privileges
    (w : World DB) :
  match fst (RegisterToken env identityID tokenString tokenType privileges w) with
  | Ok _ => True
  | Fail e =>
      db (snd (RegisterToken env identityID tokenString tokenType privileges w))
      = db w /\
      ((exists expected,
          e = BadParameterError "tokenString" tokenString expected /\
          snd (RegisterToken env identityID tokenString tokenType privileges w) = w)
       \/ exists cause, e = InternalError cause)
  | Panic => False
  end.
Proof.
  unfold RegisterToken.
  destruct (ParseToken _ _) as [tokenClaims|];
    [|simpl; split; [reflexivity | left; eauto]].
  destruct (uuid_FromString _ _) as [tokenID|];
    [|simpl; split; [reflexivity | left; eauto]].
  unfold bind at 1 2 3, mapFail, ExecuteInTransaction, bind, write.
  destruct (TokenRepository_Create env _ (db w)) as [[e|] d'] eqn:Hc; simpl.
  - split; [reflexivity | right; eauto].
  - match goal with
    | |- context [createPrivileges env ?t ?f ?p ?w0] =>
        destruct (createPrivileges_run t f p w0) as [[Hok Hcalls]|[e He]];
        destruct (createPrivileges env t f p w0) as [[[]|e'|] w1] eqn:Hp;
        simpl in *; try discriminate; try exact I
    end.
    split; [reflexivity | right; eauto].
Qed.

End Register.

(** ** Audit: the rows persisted with a minted token *)

(** The loop of [Audit] appends one row per permission it appends, and the
    row keeps the cache id of the old privilege, also when the permission
    was refreshed from the live cache. *)
Lemma auditMigrate_rows {DB} (env : Env DB) (d : DB) (identityID : UUID)
    (resourceID : string) (oldTokenPrivs : list PrivilegeCache) :
  forall perms tokenPrivs perms' tokenPrivs',
    auditMigrate env d identityID resourceID oldTokenPrivs perms tokenPrivs
      = Success (perms', tokenPrivs') ->
    tokenPrivs'
    = (tokenPrivs ++
       map carriedPrivilege
         (take (Z.to_nat (GetRPTTokenMaxPermissions env - Z.of_nat (length perms)))
            (filter (fun p => ResourceID p <> resourceID) oldTokenPrivs)))%list.
Proof.
  induction oldTokenPrivs as [|oldPriv rest IH]; intros perms tps perms' tps' Hrun.
  - simpl in Hrun. injection Hrun as <- <-.
    now rewrite filter_nil, take_nil, app_nil_r.
  - simpl in Hrun.
    destruct (Z.of_nat (length perms) >=? GetRPTTokenMaxPermissions env) eqn:Hfull.
    + injection Hrun as <- <-.
      now rewrite (migrate_quota_zero _ _ Hfull), app_nil_r.
    + destruct (String.eqb_spec (ResourceID oldPriv) resourceID) as [Hsame|Hother].
      * rewrite filter_cons_False by (intros Hne; now apply Hne).
        now apply IH in Hrun.
      * rewrite filter_cons_True by assumption.
        destruct (Stale oldPriv).
        -- destruct (CachedPrivileges env identityID (ResourceID oldPriv) d)
             as [pc|err]; [|discriminate].
           pose proof (IH _ _ _ _ Hrun) as ->.
           match goal with
           | |- context [(perms ++ [?x])%list] =>
               rewrite (migrate_quota_succ _ perms x Hfull)
           end.
           simpl. now rewrite <- app_assoc.
        -- pose proof (IH _ _ _ _ Hrun) as ->.
           match goal with
           | |- context [(perms ++ [?x])%list] =>
               rewrite (migrate_quota_succ _ perms x Hfull)
           end.
           simpl. now rewrite <- app_assoc.
Qed.

(** A successful first half of the mint transaction, read backwards. *)
Lemma auditPermissions_Ok_inv {DB} (env : Env DB) (identity : Identity)
    (resourceID : string) (loadedToken : option Token) (w w' : World DB)
    (perms : list Permissions) (tokenPrivs : list TokenPrivilege) :
  auditPermissions env identity resourceID loadedToken w
    = (Ok (perms, tokenPrivs), w') ->
  exists privilegeCache taken migrated,
    CachedPrivileges env (ID identity) resourceID (db w) = Success privilegeCache /\
    perms = requestedPermission resourceID privilegeCache :: migrated /\
    tokenPrivs = mkTokenPrivilege 0%N (PrivilegeCacheID privilegeCache)
                   :: map carriedPrivilege taken /\
    Forall2 (migrates env (db w) (ID identity)) taken migrated /\
    length tokenPrivs = length perms /\
    (loadedToken = None -> taken = []).
Proof.
  unfold auditPermissions, bind, get.
  destruct (CachedPrivileges env (ID identity) resourceID (db w))
    as [pc|err] eqn:Hpc; [|discriminate].
  destruct loadedToken as [tok|].
  - destruct (TokenRepository_ListPrivileges env (TokenID tok) (db w))
      as [olds|err]; [|discriminate].
    destruct (auditMigrate _ _ _ _ _ _ _) as [[perms0 tps0]|err] eqn:Hmig;
      [|discriminate].
    intros [= <- <- <-].
    pose proof (auditMigrate_rows _ _ _ _ _ _ _ _ _ Hmig) as Hrows.
    apply auditMigrate_spec in Hmig as (migrated & -> & Hmigrated).
    eexists pc, _, migrated.
    split; [reflexivity|]. split; [reflexivity|]. split; [exact Hrows|].
    split; [exact Hmigrated|]. split; [|discriminate].
    rewrite Hrows. apply Forall2_length in Hmigrated.
    simpl. rewrite length_map. simpl in Hmigrated. now rewrite Hmigrated.
  - intros [= <- <- <-]. exists pc, [], [].
    repeat split; try reflexivity. constructor.
Qed.



(** ** Audit: every path *)

Lemma resourceExistsInToken_inv loadedToken claims resourceID :
  resourceExistsInToken loadedToken claims resourceID = true ->
  exists tok permissions,
    loadedToken = Some tok /\
    claim_Permissions claims = Some permissions /\
    In resourceID (map ResourceSetID permissions).
Proof.
  unfold resourceExistsInToken.
  destruct loadedToken as [tok|]; [|discriminate].
  destruct (claim_Permissions claims) as [permissions|]; [|discriminate].
  rewrite fold_found. simpl. intros Hex.
  apply existsb_exists in Hex as (p & Hin & Heq).
  apply String.eqb_eq in Heq.
  exists tok, permissions. repeat split.
  apply in_map_iff. now exists p.
Qed.

Lemma Audit_paths {DB} (env : Env DB) (identity : Identity)
    (tokenString resourceID : string) (w : World DB) :
  AuditPath env identity tokenString resourceID w
    (Audit env identity tokenString resourceID w).
Proof.
  unfold Audit. unfold bind at 1, get at 1.
  destruct (ResourceRepository_CheckExists env resourceID (db w)) as [err|];
    [destruct (IsNotFoundError err); apply AuditRefused|].
  destruct (ReadTokenManagerFromContext env) as [tm|] eqn:Htm;
    [|apply AuditRefused].
  destruct (ParseToken tm tokenString) as [claims|] eqn:Hparse;
    [|apply AuditRefused].
  destruct (uuid_FromString env (Id claims)) as [tid|] eqn:Hjti;
    [|apply AuditRefused].
  unfold bind at 1, get at 1. cbv zeta.
  pose proof (AuditMints env identity tokenString resourceID w tm claims tid
                Htm Hparse Hjti) as Hmints.
  destruct (fst (TokenRepository_Load env tid (db w))) as [tok|] eqn:Hload;
    [|exact Hmints].
  destruct (N.eqb_spec (IdentityID tok) (ID identity)) as [Hid|];
    [|apply AuditRefused].
  cbn [negb].
  destruct (resourceExistsInToken (Some tok) claims resourceID) eqn:Hexists.
  - apply resourceExistsInToken_inv in Hexists
      as (tok' & permissions & [= <-] & Hperms & Hin).
    destruct (Valid tok) eqn:Hvalid; cbn [andb].
    { eapply AuditSuffices; eassumption. }
    destruct (HasStatus tok (TOKEN_STATUS_DEPROVISIONED env)) eqn:Hdep;
      [apply AuditRefused|].
    destruct (HasStatus tok (TOKEN_STATUS_REVOKED env)) eqn:Hrev;
      [apply AuditRefused|].
    destruct (HasStatus tok (TOKEN_STATUS_LOGGED_OUT env)) eqn:Hout;
      [apply AuditRefused|].
    cbn [orb].
    destruct (HasStatus tok (TOKEN_STATUS_STALE env)) eqn:Hstale; cbn [andb];
      [|exact Hmints].
    unfold bind at 1, get at 1.
    destruct (TokenRepository_ListPrivileges env tid (db w)) as [privs|];
      [|apply AuditRefused].
    rewrite Hperms. unfold bind at 1.
    assert (exists r,
              (if negb (Nat.eqb (length privs) (length permissions))
               then ret (Success (false, true))
               else get (fun d => compareScopes env d (ID identity) privs
                                    permissions)) w
              = (Ok r, w)) as [r ->].
    { destruct (negb _); eexists; reflexivity. }
    destruct r as [[sc pcg]|]; [|apply AuditRefused].
    destruct (negb sc && negb pcg); [|exact Hmints].
    unfold bind, write.
    destruct (TokenRepository_Save env (withStatus tok 0) (db w)) as [e d'] eqn:Hs.
    pose proof (AuditReset env identity tokenString resourceID w tm claims tid
                  tok permissions Htm Hparse Hjti Hload Hid Hperms Hin Hstale
                  Hdep Hrev Hout) as Hreset.
    rewrite Hs in Hreset. simpl in Hreset. destruct e; exact Hreset.
  - rewrite !andb_false_r.
    destruct (HasStatus tok (TOKEN_STATUS_DEPROVISIONED env));
      [apply AuditRefused|].
    destruct (HasStatus tok (TOKEN_STATUS_REVOKED env)
              || HasStatus tok (TOKEN_STATUS_LOGGED_OUT env));
      [apply AuditRefused | exact Hmints].
Qed.

Lemma bind_ret_Some_inv {DB A} (m : M DB A) (w w' : World DB) (r : option A) :
  (x <- m ;; ret (Some x)) w = (Ok r, w') ->
  exists a, r = Some a /\ m w = (Ok a, w').
Proof.
  unfold bind, ret. destruct (m w) as [[a|e|] w1]; try discriminate.
  intros [= <- <-]. now exists a.
Qed.

Lemma ExecuteInTransaction_Ok_inv {DB A} (body : M DB A) (w w' : World DB) (a : A) :
  ExecuteInTransaction body w = (Ok a, w') -> body w = (Ok a, w').
Proof.
  unfold ExecuteInTransaction. destruct (body w) as [[a'|e|] w1]; try discriminate.
  now intros [= <- <-].
Qed.

(** A successful second half of the mint transaction: the token manager
    generated and signed, and the new record and its rows were persisted. *)
Lemma issueRPT_success {DB} (env : Env DB) tm claims identity perms tokenPrivs
    (w w' : World DB) (signedToken : string) :
  issueRPT env tm claims identity perms tokenPrivs w = (Ok signedToken, w') ->
  exists generatedToken tkn,
    GenerateUnsignedRPTTokenForIdentity tm claims identity perms
      = Success generatedToken /\
    SignRPTToken tm generatedToken = Success signedToken /\
    IdentityID tkn = ID identity /\ Status tkn = 0 /\
    TokenType tkn = TOKEN_TYPE_RPT /\
    calls w'
    = (calls w ++
       [CallGenerateUnsignedRPT claims identity perms;
        CallSignRPT generatedToken; CallCreate tkn] ++
       map CallCreatePrivilege (stamp (TokenID tkn) tokenPrivs))%list.
Proof.
  unfold issueRPT. unfold bind at 1, mint at 1.
  destruct (GenerateUnsignedRPTTokenForIdentity tm claims identity perms)
    as [g|] eqn:Hgen; [|discriminate].
  unfold bind at 1, mint at 1.
  destruct (SignRPTToken tm g) as [s|] eqn:Hsign; [|discriminate].
  cbn [db calls].
  unfold bind at 1, mapFail at 1.
  match goal with
  | |- context [RegisterToken env ?i ?t ?ty ?p ?w0] =>
      destruct (RegisterToken env i t ty p w0) as [[tkn|e|] w1] eqn:Hreg;
      try discriminate
  end.
  apply RegisterToken_Ok_inv in Hreg
    as (tc & tid & _ & _ & Htkn & _ & Hcalls).
  unfold bind, ret.
  destruct (createPrivileges_run env (TokenID tkn) NewInternalError tokenPrivs w1)
    as [[Hok Hrows]|[e He]];
    destruct (createPrivileges env (TokenID tkn) NewInternalError tokenPrivs w1)
      as [[[]|e'|] w2]; simpl in *; try discriminate.
  intros [= <- <-]. exists g, tkn.
  split; [reflexivity|]. split; [exact Hsign|].
  subst tkn. simpl. repeat (split; [reflexivity|]).
  rewrite Hrows, Hcalls. simpl. rewrite <- !app_assoc. reflexivity.
Qed.

(** X4: [Audit] answers that the current token suffices, returning
    [(nil, nil)], only for a token whose record was found and belongs to
    the caller and whose permissions include the requested resource; the
    record then is valid and nothing was written, or it is stale with none
    of the flags DEPROVISIONED, REVOKED, LOGGED_OUT and was saved with
    status 0. *)
Theorem Audit_suffices_only_if {DB} (env : Env DB) (identity : Identity)
    (tokenString resourceID : string) (w w' : World DB) :
  Audit env identity tokenString resourceID w = (Ok None, w') ->
  exists tm claims tid tok permissions,
    ReadTokenManagerFromContext env = Success tm /\
    ParseToken tm tokenString = Success claims /\
    uuid_FromString env (Id claims) = Success tid /\
    fst (TokenRepository_Load env tid (db w)) = Some tok /\
    IdentityID tok = ID identity /\
    claim_Permissions claims = Some permissions /\
    In resourceID (map ResourceSetID permissions) /\
    ((Valid tok = true /\ w' = w)
     \/
     (HasStatus tok (TOKEN_STATUS_STALE env) = true /\
      HasStatus tok (TOKEN_STATUS_DEPROVISIONED env) = false /\
      HasStatus tok (TOKEN_STATUS_REVOKED env) = false /\
      HasStatus tok (TOKEN_STATUS_LOGGED_OUT env) = false /\
      TokenRepository_Save env (withStatus tok 0) (db w) = (None, db w') /\
      calls w' = (calls w ++ [CallSave (withStatus tok 0)])%list)).
Proof.
  intros Hrun.
  pose proof (Audit_paths env identity tokenString resourceID w) as Hpath.
  rewrite Hrun in Hpath.
  remember (@Ok (option string) None, w') as r eqn:Hr.
  destruct Hpath as [e
                    | tm claims tid tok perms Htm Hparse Hjti Hload Hid Hperms
                         Hin Hvalid
                    | tm claims tid tok perms Htm Hparse Hjti Hload Hid Hperms
                         Hin Hstale Hdep Hrev Hout
                    | tm claims tid Htm Hparse Hjti].
  - discriminate.
  - injection Hr as <-.
    exists tm, claims, tid, tok, perms. repeat (split; [assumption|]).
    left. split; [assumption | reflexivity].
  - exists tm, claims, tid, tok, perms. repeat (split; [assumption|]).
    right. repeat (split; [assumption|]).
    destruct (TokenRepository_Save env (withStatus tok 0) (db w)) as [[e|] d'];
      simpl in *; [discriminate|].
    injection Hr as Hw. subst w'. split; reflexivity.
  - apply bind_ret_Some_inv in Hr as (a & Ha & _). discriminate.
Qed.

Lemma mint_log_has_no_save {DB} (env : Env DB) tm claims identity resourceID
    loadedToken (w : World DB) :
  Forall (fun c => forall t, c <> CallSave t) (calls w) ->
  Forall (fun c => forall t, c <> CallSave t)
    (calls (snd ((signedToken <- ExecuteInTransaction
                    (mintRPT env tm claims identity resourceID loadedToken) ;;
                  ret (Some signedToken)) w))).
Proof.
  intros H. rewrite calls_bind_ret, calls_ExecuteInTransaction.
  apply preserves_mintRPT; try (intros; discriminate). exact H.
Qed.

(** X5: the only token [Audit] ever saves is the caller's own loaded record
    with its status set to 0, and only when that record has the STALE flag,
    none of the flags DEPROVISIONED, REVOKED, LOGGED_OUT, and embeds the
    requested resource; the save is then the only call made.  So [Audit]
    never clears a revoked, logged-out or deprovisioned token. *)
Theorem Audit_saves_only_stale_token {DB} (env : Env DB) (identity : Identity)
    (tokenString resourceID : string) (d : DB) (t : Token) :
  In (CallSave t)
     (calls (snd (Audit env identity tokenString resourceID (initW d)))) ->
  exists tm claims tid tok permissions,
    ReadTokenManagerFromContext env = Success tm /\
    ParseToken tm tokenString = Success claims /\
    uuid_FromString env (Id claims) = Success tid /\
    fst (TokenRepository_Load env tid d) = Some tok /\
    IdentityID tok = ID identity /\
    claim_Permissions claims = Some permissions /\
    In resourceID (map ResourceSetID permissions) /\
    HasStatus tok (TOKEN_STATUS_STALE env) = true /\
    HasStatus tok (TOKEN_STATUS_DEPROVISIONED env) = false /\
    HasStatus tok (TOKEN_STATUS_REVOKED env) = false /\
    HasStatus tok (TOKEN_STATUS_LOGGED_OUT env) = false /\
    t = withStatus tok 0 /\ Status t = 0 /\
    calls (snd (Audit env identity tokenString resourceID (initW d)))
    = [CallSave t].
Proof.
  intros Hin.
  pose proof (Audit_paths env identity tokenString resourceID (initW d)) as Hpath.
  remember (Audit env identity tokenString resourceID (initW d)) as r eqn:Hr.
  clear Hr.
  destruct Hpath as [e
                    | tm claims tid tok perms Htm Hparse Hjti Hload Hid Hperms
                         Hres Hvalid
                    | tm claims tid tok perms Htm Hparse Hjti Hload Hid Hperms
                         Hres Hstale Hdep Hrev Hout
                    | tm claims tid Htm Hparse Hjti].
  - destruct Hin.
  - destruct Hin.
  - simpl in Hin. destruct Hin as [[= <-]|[]].
    exists tm, claims, tid, tok, perms. repeat (split; [assumption|]).
    repeat split.
  - exfalso.
    pose proof (mint_log_has_no_save env tm claims identity resourceID
                  (fst (TokenRepository_Load env tid (db (initW d))))
                  (initW d) (List.Forall_nil _)) as Hno.
    rewrite List.Forall_forall in Hno. exact (Hno _ Hin t eq_refl).
Qed.

(** A successful [Audit] that returns a token, read backwards. *)
Lemma Audit_minted {DB} (env : Env DB) (identity : Identity)
    (tokenString resourceID : string) (w w' : World DB) (signedToken : string) :
  Audit env identity tokenString resourceID w = (Ok (Some signedToken), w') ->
  exists tm claims tid perms tokenPrivs generatedToken tkn,
    ReadTokenManagerFromContext env = Success tm /\
    ParseToken tm tokenString = Success claims /\
    uuid_FromString env (Id claims) = Success tid /\
    auditPermissions env identity resourceID
      (fst (TokenRepository_Load env tid (db w))) w
    = (Ok (perms, tokenPrivs), w) /\
    GenerateUnsignedRPTTokenForIdentity tm claims identity perms
      = Success generatedToken /\
    SignRPTToken tm generatedToken = Success signedToken /\
    IdentityID tkn = ID identity /\ Status tkn = 0 /\
    TokenType tkn = TOKEN_TYPE_RPT /\
    calls w'
    = (calls w ++
       [CallGenerateUnsignedRPT claims identity perms;
        CallSignRPT generatedToken; CallCreate tkn] ++
       map CallCreatePrivilege (stamp (TokenID tkn) tokenPrivs))%list.
Proof.
  intros Hrun.
  pose proof (Audit_paths env identity tokenString resourceID w) as Hpath.
  rewrite Hrun in Hpath.
  remember (@Ok (option string) (Some signedToken), w') as r eqn:Hr.
  destruct Hpath as [e
                    | tm claims tid tok perms Htm Hparse Hjti Hload Hid Hperms
                         Hres Hvalid
                    | tm claims tid tok perms Htm Hparse Hjti Hload Hid Hperms
                         Hres Hstale Hdep Hrev Hout
                    | tm claims tid Htm Hparse Hjti].
  - discriminate.
  - discriminate.
  - destruct (fst (TokenRepository_Save env (withStatus tok 0) (db w)));
      discriminate.
  - apply bind_ret_Some_inv in Hr as (s & [= <-] & Hbody).
    apply ExecuteInTransaction_Ok_inv in Hbody.
    unfold mintRPT, bind in Hbody.
    destruct (auditPermissions_spec env identity resourceID
                (fst (TokenRepository_Load env tid (db w))) w) as [Hw _].
    destruct (auditPermissions env identity resourceID
                (fst (TokenRepository_Load env tid (db w))) w)
      as [[[perms tps]|e|] w1] eqn:Hperms; try discriminate.
    simpl in Hw. subst w1. simpl in Hbody.
    apply issueRPT_success in Hbody
      as (g & tkn & Hgen & Hsign & Hid & Hstatus & Htype & Hcalls).
    exists tm, claims, tid, perms, tps, g, tkn.
    repeat (split; [first [assumption | reflexivity]|]). exact Hcalls.
Qed.

(** X6: when [Audit] returns a new token, that token is what the token
    manager signed from the generated claims; exactly one token record was
    created, of type RPT, with status 0, owned by the caller; and one
    privilege row per embedded permission was created after it, each
    carrying the id of the new record.  Nothing else was written. *)
Theorem Audit_new_token_registered {DB} (env : Env DB) (identity : Identity)
    (tokenString resourceID : string) (d : DB) (w' : World DB)
    (signedToken : string) :
  Audit env identity tokenString resourceID (initW d)
    = (Ok (Some signedToken), w') ->
  exists tm claims perms tokenPrivs generatedToken tkn,
    ReadTokenManagerFromContext env = Success tm /\
    ParseToken tm tokenString = Success claims /\
    GenerateUnsignedRPTTokenForIdentity tm claims identity perms
      = Success generatedToken /\
    SignRPTToken tm generatedToken = Success signedToken /\
    IdentityID tkn = ID identity /\ Status tkn = 0 /\
    TokenType tkn = TOKEN_TYPE_RPT /\
    length tokenPrivs = length perms /\
    Forall (fun row => tp_TokenID row = TokenID tkn)
      (stamp (TokenID tkn) tokenPrivs) /\
    calls w'
    = ([CallGenerateUnsignedRPT claims identity perms;
        CallSignRPT generatedToken; CallCreate tkn] ++
       map CallCreatePrivilege (stamp (TokenID tkn) tokenPrivs))%list.
Proof.
  intros Hrun.
  apply Audit_minted in Hrun
    as (tm & claims & tid & perms & tps & g & tkn & Htm & Hparse & Hjti & Hperms
        & Hgen & Hsign & Hid & Hstatus & Htype & Hcalls).
  apply auditPermissions_Ok_inv in Hperms
    as (pc & taken & migrated & _ & _ & _ & _ & Hlen & _).
  exists tm, claims, perms, tps, g, tkn.
  repeat (split; [assumption|]).
  split; [|exact Hcalls].
  unfold stamp. apply List.Forall_forall. intros row Hrow.
  apply in_map_iff in Hrow as (tp & <- & _). reflexivity.
Qed.

(** X7: when no token record exists for the jti of the presented token,
    a successful [Audit] mints a token with exactly one permission, the
    requested resource with the live scopes and expiry of the privilege
    cache, and persists exactly one privilege row, which references that
    cache entry under the id of the new token. *)
Theorem Audit_first_token {DB} (env : Env DB) (identity : Identity)
    (tokenString resourceID : string) (d : DB) (w' : World DB)
    (signedToken : string) (tm : TokenManager) (claims : TokenClaims)
    (tid : UUID) :
  ReadTokenManagerFromContext env = Success tm ->
  ParseToken tm tokenString = Success claims ->
  uuid_FromString env (Id claims) = Success tid ->
  fst (TokenRepository_Load env tid d) = None ->
  Audit env identity tokenString resourceID (initW d)
    = (Ok (Some signedToken), w') ->
  exists privilegeCache generatedToken tkn,
    CachedPrivileges env (ID identity) resourceID d = Success privilegeCache /\
    IdentityID tkn = ID identity /\
    calls w'
    = [CallGenerateUnsignedRPT claims identity
         [mkPermissions resourceID (ScopesAsArray privilegeCache)
            (Unix (pc_ExpiryTime privilegeCache))];
       CallSignRPT generatedToken;
       CallCreate tkn;
       CallCreatePrivilege
         (mkTokenPrivilege (TokenID tkn) (PrivilegeCacheID privilegeCache))].
Proof.
  intros Htm Hparse Hjti Hload Hrun.
  apply Audit_minted in Hrun
    as (tm' & claims' & tid' & perms & tps & g & tkn & Htm' & Hparse' & Hjti'
        & Hperms & Hgen & Hsign & Hid & Hstatus & Htype & Hcalls).
  assert (tm' = tm) as -> by congruence.
  assert (claims' = claims) as -> by congruence.
  assert (tid' = tid) as -> by congruence.
  simpl in Hperms. rewrite Hload in Hperms.
  apply auditPermissions_Ok_inv in Hperms
    as (pc & taken & migrated & Hpc & -> & -> & Hmig & _ & Hnone).
  rewrite (Hnone eq_refl) in *. apply Forall2_nil_inv_l in Hmig. subst migrated.
  exists pc, g, tkn. split; [exact Hpc|]. split; [exact Hid|].
  rewrite Hcalls. reflexivity.
Qed.

(** X8: an [Audit] that does not succeed leaves the database as it was:
    what the mint transaction wrote is rolled back.  The one exception is a
    failure of the save that resets a stale token, where the database is
    the one that save left. *)
Theorem Audit_failure_keeps_database {DB} (env : Env DB) (identity : Identity)
    (tokenString resourceID : string) (w : World DB) :
  match fst (Audit env identity tokenString resourceID w) with
  | Ok _ => True
  | _ =>
      db (snd (Audit env identity tokenString resourceID w)) = db w \/
      exists tok e,
        TokenRepository_Save env (withStatus tok 0) (db w)
        = (Some e, db (snd (Audit env identity tokenString resourceID w))) /\
        fst (Audit env identity tokenString resourceID w)
        = Fail (NewInternalError e)
  end.
Proof.
  pose proof (Audit_paths env identity tokenString resourceID w) as Hpath.
  remember (Audit env identity tokenString resourceID w) as r eqn:Hr. clear Hr.
  destruct Hpath as [e
                    | tm claims tid tok perms Htm Hparse Hjti Hload Hid Hperms
                         Hres Hvalid
                    | tm claims tid tok perms Htm Hparse Hjti Hload Hid Hperms
                         Hres Hstale Hdep Hrev Hout
                    | tm claims tid Htm Hparse Hjti].
  - left. reflexivity.
  - exact I.
  - destruct (TokenRepository_Save env (withStatus tok 0) (db w)) as [[e|] d']
      eqn:Hsave; simpl; [|exact I].
    right. exists tok, e. split; [exact Hsave | reflexivity].
  - unfold bind, ExecuteInTransaction, ret.
    destruct (mintRPT env tm claims identity resourceID _ w) as [[s|e|] w1];
      simpl; [exact I | left; reflexivity | left; reflexivity].
Qed.

(** X9: [Audit] checks its inputs in this order, before anything is
    written: the resource must exist (a not-found becomes BadParameter on
    "resourceID", any other error of the check is returned as it is), the
    context must hold a token manager (Internal otherwise), the token
    string must parse (BadParameter on "tokenString") and its jti must be a
    UUID (BadParameter on "jti").  A missing resource is thus reported even
    for an unreadable token. *)
Theorem Audit_rejects_bad_input {DB} (env : Env DB) (identity : Identity)
    (tokenString resourceID : string) (w : World DB) :
  (forall err,
     ResourceRepository_CheckExists env resourceID (db w) = Some err ->
     Audit env identity tokenString resourceID w
     = (Fail (if IsNotFoundError err
              then BadParameterError "resourceID" resourceID
                     "resource does not exist"
              else err), w))
  /\
  (ResourceRepository_CheckExists env resourceID (db w) = None ->
   (forall err,
      ReadTokenManagerFromContext env = Failure err ->
      Audit env identity tokenString resourceID w
      = (Fail (InternalError err), w))
   /\
   (forall tm,
      ReadTokenManagerFromContext env = Success tm ->
      (forall err,
         ParseToken tm tokenString = Failure err ->
         Audit env identity tokenString resourceID w
         = (Fail (BadParameterError "tokenString" tokenString
                    "invalid token string could not be parsed"), w))
      /\
      (forall claims err,
         ParseToken tm tokenString = Success claims ->
         uuid_FromString env (Id claims) = Failure err ->
         Audit env identity tokenString resourceID w
         = (Fail (BadParameterError "jti" (Id claims)
                    "invalid jti identifier - not a UUID"), w)))).
Proof.
  split; [|intros Hexists; split; [|intros tm Htm; split]].
  - intros err Herr. unfold Audit, bind, get. rewrite Herr.
    destruct (IsNotFoundError err); reflexivity.
  - intros err Htm. unfold Audit, bind, get. now rewrite Hexists, Htm.
  - intros err Hparse. unfold Audit, bind, get.
    now rewrite Hexists, Htm, Hparse.
  - intros claims err Hparse Hjti. unfold Audit, bind, get.
    now rewrite Hexists, Htm, Hparse, Hjti.
Qed.

(** ** ValidateToken: every path *)

(** X10: [ValidateToken] accepts a token only when its jti is a UUID whose
    record was loaded without error and is valid.  It then either leaves
    the world as it was, which happens only for a token whose "transient"
    claim parses as true, or makes exactly one call, the touch of the
    last-active stamp of the identity named by the "sub" claim, which
    succeeded. *)
Theorem ValidateToken_accepts_only_if {DB} (env : Env DB)
    (accessToken : jwtToken) (w w' : World DB) :
  ValidateToken env accessToken w = (Ok tt, w') ->
  exists jti tokenID tkn,
    Claims accessToken !! "jti" = Some (ClaimString jti) /\
    uuid_FromString env jti = Success tokenID /\
    TokenRepository_Load env tokenID (db w) = (Some tkn, None) /\
    Valid tkn = true /\
    ((exists transClaim,
        Claims accessToken !! "transient" = Some (ClaimString transClaim) /\
        ParseBool transClaim = Some true /\ w' = w)
     \/
     (exists sub identityID,
        Claims accessToken !! "sub" = Some (ClaimString sub) /\
        uuid_FromString env sub = Success identityID /\
        Identities_TouchLastActive env identityID (db w) = (None, db w') /\
        calls w' = (calls w ++ [CallTouchLastActive identityID])%list)).
Proof.
  unfold ValidateToken.
  destruct (Claims accessToken !! "jti") as [[jti|]|] eqn:Hjti; try discriminate.
  destruct (uuid_FromString env jti) as [tokenID|] eqn:Hid; [|discriminate].
  unfold bind at 1, get at 1.
  destruct (TokenRepository_Load env tokenID (db w)) as [[tkn|] [err|]] eqn:Hload;
    simpl; try discriminate.
  destruct (Valid tkn) eqn:Hvalid; simpl; [|discriminate].
  intros Hrun. exists jti, tokenID, tkn.
  repeat (split; [first [reflexivity | assumption]|]).
  unfold bind at 1 in Hrun.
  destruct (Claims accessToken !! "transient") as [[s|]|] eqn:Htrans.
  - assert (exists b, (match ParseBool s with
                       | Some b => ret b
                       | None => ret false
                       end) w = (Ok b, w)
                      /\ (b = true -> ParseBool s = Some true)) as (b & Hb & Hs).
    { destruct (ParseBool s) as [[|]|]; eexists; split;
        try reflexivity; try discriminate. }
    rewrite Hb in Hrun. destruct b; simpl in Hrun.
    + injection Hrun as <-. left. exists s.
      split; [reflexivity|]. split; [now apply Hs | reflexivity].
    + right. revert Hrun.
      destruct (Claims accessToken !! "sub") as [[sub|]|]; try discriminate.
      destruct (uuid_FromString env sub) as [identityID|] eqn:Hsub;
        [|discriminate].
      unfold bind, write.
      destruct (Identities_TouchLastActive env identityID (db w))
        as [[e|] d'] eqn:Htouch; [discriminate|].
      intros [= <-]. exists sub, identityID. now repeat split.
  - discriminate.
  - simpl in Hrun. right. revert Hrun.
    destruct (Claims accessToken !! "sub") as [[sub|]|]; try discriminate.
    destruct (uuid_FromString env sub) as [identityID|] eqn:Hsub;
      [|discriminate].
    unfold bind, write.
    destruct (Identities_TouchLastActive env identityID (db w))
      as [[e|] d'] eqn:Htouch; [discriminate|].
    intros [= <-]. exists sub, identityID. now repeat split.
Qed.

(** X11: on a loaded, valid token whose "transient" claim parses as true
    (one of "1", "t", "T", "TRUE", "true", "True"), [ValidateToken]
    succeeds without any call: the last-active stamp is not touched, and
    the "sub" claim is not even read. *)
Theorem ValidateToken_transient_skips_touch {DB} (env : Env DB)
    (accessToken : jwtToken) (w : World DB) (jti transClaim : string)
    (tokenID : UUID) (tkn : Token) :
  Claims accessToken !! "jti" = Some (ClaimString jti) ->
  uuid_FromString env jti = Success tokenID ->
  TokenRepository_Load env tokenID (db w) = (Some tkn, None) ->
  Valid tkn = true ->
  Claims accessToken !! "transient" = Some (ClaimString transClaim) ->
  In transClaim ["1"; "t"; "T"; "TRUE"; "true"; "True"] ->
  ValidateToken env accessToken w = (Ok tt, w).
Proof.
  intros Hjti Hid Hload Hvalid Htrans Hin. unfold ValidateToken.
  rewrite Hjti, Hid. unfold bind at 1, get at 1. rewrite Hload. simpl.
  rewrite Hvalid, Htrans. simpl.
  assert (ParseBool transClaim = Some true) as ->.
  { simpl in Hin.
    destruct Hin as [<-|[<-|[<-|[<-|[<-|[<-|[]]]]]]]; reflexivity. }
  reflexivity.
Qed.

(** X12: [ValidateToken] fails BadParameter, without any call, when the jti
    is not a UUID, and also when the token is loaded, valid and not
    transient but its "sub" claim is not a UUID; and when the touch of the
    last-active stamp fails, the error is wrapped as Internal. *)
Theorem ValidateToken_bad_identifiers {DB} (env : Env DB)
    (accessToken : jwtToken) (w : World DB) (jti : string) :
  Claims accessToken !! "jti" = Some (ClaimString jti) ->
  (forall err,
     uuid_FromString env jti = Failure err ->
     ValidateToken env accessToken w
     = (Fail (BadParameterError "token" (Raw accessToken)
                "could not extract token ID from token"), w))
  /\
  (forall tokenID tkn sub,
     uuid_FromString env jti = Success tokenID ->
     TokenRepository_Load env tokenID (db w) = (Some tkn, None) ->
     Valid tkn = true ->
     Claims accessToken !! "transient" = None ->
     Claims accessToken !! "sub" = Some (ClaimString sub) ->
     (forall err,
        uuid_FromString env sub = Failure err ->
        ValidateToken env accessToken w
        = (Fail (BadParameterError "token" (Raw accessToken)
                   "could not extract identity ID from token"), w))
     /\
     (forall identityID e d',
        uuid_FromString env sub = Success identityID ->
        Identities_TouchLastActive env identityID (db w) = (Some e, d') ->
        ValidateToken env accessToken w
        = (Fail (InternalError e),
           mkWorld d' (calls w ++ [CallTouchLastActive identityID])))).
Proof.
  intros Hjti. split.
  - intros err Hid. unfold ValidateToken. now rewrite Hjti, Hid.
  - intros tokenID tkn sub Hid Hload Hvalid Htrans Hsub. split.
    + intros err Hbad. unfold ValidateToken. rewrite Hjti, Hid.
      unfold bind, get. rewrite Hload. simpl.
      now rewrite Hvalid, Htrans, Hsub, Hbad.
    + intros identityID e d' Hok Htouch.
      rewrite (ValidateToken_touch env accessToken w jti tokenID Hjti Hid tkn
                 sub identityID Hload Hvalid); try assumption.
      * now rewrite Htouch.
      * now rewrite Htrans.
Qed.

(** ** ExchangeRefreshToken: the permissions carried over *)

(** The loop of [ExchangeRefreshToken] appends, in order, one permission
    and one row for each of the first privileges, whatever their resource,
    as many as the maximum leaves room for. *)
Lemma exchangeMigrate_spec {DB} (env : Env DB) (d : DB) (identityID : UUID)
    (loadedToken : Token) (oldTokenPrivs : list PrivilegeCache) :
  forall permissions tokenPrivs permissions' tokenPrivs',
    exchangeMigrate env d identityID loadedToken oldTokenPrivs
      permissions tokenPrivs = Success (permissions', tokenPrivs') ->
    let taken :=
      take (Z.to_nat (GetRPTTokenMaxPermissions env
                      - Z.of_nat (length permissions))) oldTokenPrivs in
    exists added,
      permissions' = (permissions ++ added)%list /\
      Forall2 (exchanges env d identityID loadedToken) taken added /\
      tokenPrivs' = (tokenPrivs ++ map carriedPrivilege taken)%list.
Proof.
  induction oldTokenPrivs as [|oldPriv rest IH];
    intros perms tps perms' tps' Hrun; cbv zeta.
  - simpl in Hrun. injection Hrun as <- <-. exists [].
    rewrite take_nil, !app_nil_r. repeat split. constructor.
  - simpl in Hrun.
    destruct (Z.of_nat (length perms) >=? GetRPTTokenMaxPermissions env) eqn:Hfull.
    + injection Hrun as <- <-. exists [].
      rewrite (migrate_quota_zero _ _ Hfull), !app_nil_r.
      repeat split. constructor.
    + destruct (HasStatus loadedToken (TOKEN_STATUS_STALE env) || Stale oldPriv)
        eqn:Hrefresh.
      * destruct (CachedPrivileges env identityID (ResourceID oldPriv) d)
          as [pc|err] eqn:Hpc; [|discriminate].
        apply IH in Hrun as (added & -> & Hadded & ->).
        eexists (_ :: added). rewrite <- !app_assoc.
        match type of Hadded with
        | context [(perms ++ [?x])%list] =>
            rewrite (migrate_quota_succ _ perms x Hfull)
        end.
        simpl. split; [reflexivity|]. split; [|reflexivity].
        constructor; [|exact Hadded].
        split; [reflexivity|]. rewrite Hrefresh. now exists pc.
      * apply IH in Hrun as (added & -> & Hadded & ->).
        eexists (_ :: added). rewrite <- !app_assoc.
        match type of Hadded with
        | context [(perms ++ [?x])%list] =>
            rewrite (migrate_quota_succ _ perms x Hfull)
        end.
        simpl. split; [reflexivity|]. split; [|reflexivity].
        constructor; [|exact Hadded].
        split; [reflexivity|]. rewrite Hrefresh. now split.
Qed.

(** A successful carrying over of the permissions, read backwards. *)
Lemma exchangePermissions_Ok_inv {DB} (env : Env DB) (identity : Identity)
    (rptToken : string) (w w' : World DB)
    (permissions : list Permissions) (tokenPrivs : list TokenPrivilege) :
  exchangePermissions env identity rptToken w
    = (Ok (permissions, tokenPrivs), w') ->
  w' = w /\
  exists claims tid,
    ParseToken (tokenManager env) rptToken = Success claims /\
    uuid_FromString env (Id claims) = Success tid /\
    match fst (TokenRepository_Load env tid (db w)) with
    | None => permissions = [] /\ tokenPrivs = []
    | Some tok =>
        IdentityID tok = ID identity /\
        HasStatus tok (TOKEN_STATUS_DEPROVISIONED env) = false /\
        HasStatus tok (TOKEN_STATUS_REVOKED env) = false /\
        HasStatus tok (TOKEN_STATUS_LOGGED_OUT env) = false /\
        exists oldTokenPrivs,
          TokenRepository_ListPrivileges env (TokenID tok) (db w)
            = Success oldTokenPrivs /\
          let taken :=
            take (Z.to_nat (GetRPTTokenMaxPermissions env))
              (sort_Slice env byExpiryLatestFirst oldTokenPrivs) in
          Forall2 (exchanges env (db w) (ID identity) tok) taken permissions /\
          tokenPrivs = map carriedPrivilege taken
    end.
Proof.
  unfold exchangePermissions.
  destruct (ParseToken _ _) as [claims|] eqn:Hparse; [|discriminate].
  destruct (uuid_FromString _ _) as [tid|] eqn:Hjti; [|discriminate].
  unfold bind at 1, get at 1.
  destruct (fst (TokenRepository_Load env tid (db w))) as [tok|] eqn:Hload.
  - destruct (N.eqb_spec (IdentityID tok) (ID identity)) as [Hid|];
      [|discriminate].
    cbn [negb].
    destruct (HasStatus tok (TOKEN_STATUS_DEPROVISIONED env)) eqn:Hdep;
      [discriminate|].
    destruct (HasStatus tok (TOKEN_STATUS_REVOKED env)) eqn:Hrev;
      [discriminate|].
    destruct (HasStatus tok (TOKEN_STATUS_LOGGED_OUT env)) eqn:Hout;
      [discriminate|].
    cbn [orb]. unfold bind at 1, get at 1.
    destruct (TokenRepository_ListPrivileges env (TokenID tok) (db w))
      as [olds|] eqn:Holds; [|discriminate].
    unfold bind, get.
    destruct (exchangeMigrate _ _ _ _ _ _ _) as [[perms tps]|] eqn:Hmig;
      [|discriminate].
    intros [= <- <- <-]. split; [reflexivity|].
    exists claims, tid. split; [reflexivity|]. split; [exact Hjti|].
    rewrite Hload. repeat (split; [assumption|]).
    exists olds. split; [exact Holds|].
    apply exchangeMigrate_spec in Hmig as (added & -> & Hadded & ->).
    simpl in *. rewrite Z.sub_0_r in Hadded. rewrite Z.sub_0_r.
    split; [exact Hadded | reflexivity].
  - intros [= <- <- <-]. split; [reflexivity|].
    exists claims, tid. split; [reflexivity|]. split; [exact Hjti|].
    rewrite Hload. split; reflexivity.
Qed.

(** X13: when [ExchangeRefreshToken] carries permissions over from a
    recorded RPT token, that token belongs to the identity and has none of
    the flags DEPROVISIONED, REVOKED, LOGGED_OUT; the permissions are those
    of the first privileges of the old token in the sorted order, latest
    expiry first, as many as the maximum (none for a maximum of 0 or less),
    no resource being passed over; each has a row with the cache id of the
    old privilege; and when the old token is STALE every permission has the
    live scopes and expiry of the privilege cache.  The sort is assumed to
    meet the contract of [sort.Slice]. *)
Theorem Exchange_carries_latest_first {DB} (env : Env DB) (identity : Identity)
    (rptToken : string) (w w' : World DB) (claims : TokenClaims) (tid : UUID)
    (tok : Token) (permissions : list Permissions)
    (tokenPrivs : list TokenPrivilege) :
  sortContract env ->
  ParseToken (tokenManager env) rptToken = Success claims ->
  uuid_FromString env (Id claims) = Success tid ->
  fst (TokenRepository_Load env tid (db w)) = Some tok ->
  exchangePermissions env identity rptToken w
    = (Ok (permissions, tokenPrivs), w') ->
  IdentityID tok = ID identity /\
  HasStatus tok (TOKEN_STATUS_DEPROVISIONED env) = false /\
  HasStatus tok (TOKEN_STATUS_REVOKED env) = false /\
  HasStatus tok (TOKEN_STATUS_LOGGED_OUT env) = false /\
  exists oldTokenPrivs,
    TokenRepository_ListPrivileges env (TokenID tok) (db w)
      = Success oldTokenPrivs /\
    let sorted := sort_Slice env byExpiryLatestFirst oldTokenPrivs in
    let taken := take (Z.to_nat (GetRPTTokenMaxPermissions env)) sorted in
    Permutation sorted oldTokenPrivs /\
    StronglySorted (fun a b => pc_ExpiryTime b <= pc_ExpiryTime a) sorted /\
    (forall x y, In x taken ->
                 In y (drop (Z.to_nat (GetRPTTokenMaxPermissions env)) sorted) ->
                 pc_ExpiryTime y <= pc_ExpiryTime x) /\
    Forall2 (exchanges env (db w) (ID identity) tok) taken permissions /\
    tokenPrivs = map carriedPrivilege taken /\
    length tokenPrivs = length permissions /\
    (HasStatus tok (TOKEN_STATUS_STALE env) = true ->
     Forall (fun perm =>
               exists privilegeCache,
                 CachedPrivileges env (ID identity) (ResourceSetID perm) (db w)
                   = Success privilegeCache /\
                 Scopes perm = ScopesAsArray privilegeCache /\
                 Expiry perm = Unix (pc_ExpiryTime privilegeCache))
       permissions).
Proof.
  intros Hsort Hparse Hjti Hload Hrun.
  apply exchangePermissions_Ok_inv in Hrun
    as (_ & claims' & tid' & Hparse' & Hjti' & Hrest).
  assert (claims' = claims) as -> by congruence.
  assert (tid' = tid) as -> by congruence.
  rewrite Hload in Hrest.
  destruct Hrest as (Hid & Hdep & Hrev & Hout & olds & Holds & Hcarried & Hrows).
  repeat (split; [assumption|]).
  exists olds. split; [exact Holds|]. cbv zeta.
  pose proof (sorted_latest_first env olds Hsort) as Hsorted.
  destruct (Hsort olds) as [Hperm _].
  split; [exact Hperm|]. split; [exact Hsorted|].
  split.
  { intros x y Hx Hy.
    rewrite <- (take_drop (Z.to_nat (GetRPTTokenMaxPermissions env))
                  (sort_Slice env byExpiryLatestFirst olds)) in Hsorted.
    apply (StronglySorted_app_1_elem_of _ _ _ x y Hsorted);
      now apply list_elem_of_In. }
  split; [exact Hcarried|]. split; [exact Hrows|].
  split.
  { rewrite Hrows, length_map. now apply Forall2_length in Hcarried. }
  intros Hstale.
  eapply Forall2_Forall_r; [exact Hcarried|].
  apply List.Forall_forall. intros p _ perm [Hres Hp].
  rewrite Hstale in Hp. simpl in Hp.
  destruct Hp as (pc & Hpc & Hscopes & Hexpiry).
  exists pc. rewrite Hres. now repeat split.
Qed.

(** ** ExchangeRefreshToken: the transaction *)

Lemma exchangeCarried_spec {DB} (env : Env DB) (identity : option Identity)
    (rptToken : string) (w : World DB) :
  snd (exchangeCarried env identity rptToken w) = w /\
  forall permissions tokenPrivs,
    fst (exchangeCarried env identity rptToken w) = Ok (permissions, tokenPrivs) ->
    length tokenPrivs = length permissions /\
    (identity = None \/ rptToken = "" -> permissions = []).
Proof.
  unfold exchangeCarried.
  assert (snd (@ret DB (list Permissions * list TokenPrivilege) ([], []) w) = w /\
          forall permissions tokenPrivs,
            fst (@ret DB (list Permissions * list TokenPrivilege) ([], []) w)
            = Ok (permissions, tokenPrivs) ->
            length tokenPrivs = length permissions /\
            (identity = None \/ rptToken = "" -> permissions = [])) as Hnone.
  { split; [reflexivity|]. intros perms tps [= <- <-]. now split. }
  destruct identity as [i|]; [|exact Hnone].
  destruct (String.eqb_spec rptToken "") as [Hempty|Hrpt]; [exact Hnone|].
  cbn [negb].
  destruct (exchangePermissions env i rptToken w) as [[[perms tps]|e|] w1] eqn:Hrun;
    simpl.
  - apply exchangePermissions_Ok_inv in Hrun
      as (-> & claims & tid & _ & _ & Hrest).
    split; [reflexivity|]. intros perms' tps' [= <- <-].
    split; [|intros [|]; [discriminate | contradiction]].
    destruct (fst (TokenRepository_Load env tid (db w))) as [tok|].
    + destruct Hrest as (_ & _ & _ & _ & olds & _ & Hcarried & ->).
      rewrite length_map. now apply Forall2_length in Hcarried.
    + destruct Hrest as [-> ->]. reflexivity.
  - destruct (exchangePermissions_spec env i rptToken w) as [Hw _].
    rewrite Hrun in Hw. simpl in Hw. split; [exact Hw | discriminate].
  - destruct (exchangePermissions_spec env i rptToken w) as [Hw _].
    rewrite Hrun in Hw. simpl in Hw. split; [exact Hw | discriminate].
Qed.

(** A successful transaction of [ExchangeRefreshToken], read backwards. *)
Lemma exchangeTransaction_Ok_inv {DB} (env : Env DB) (identity : option Identity)
    (refreshToken rptToken : string) (w w' : World DB)
    (generatedToken : oauth2Token) :
  exchangeTransaction env identity refreshToken rptToken w
    = (Ok generatedToken, w') ->
  exists i permissions tokenPrivs access refresh,
    identity = Some i /\
    exchangeCarried env identity rptToken w = (Ok (permissions, tokenPrivs), w) /\
    GenerateUserTokenUsingRefreshToken (tokenManager env) refreshToken identity
      permissions = Success generatedToken /\
    IdentityID access = ID i /\ Status access = 0 /\
    TokenType access
    = (if (0 <? length permissions)%nat then TOKEN_TYPE_RPT
       else TOKEN_TYPE_ACCESS) /\
    IdentityID refresh = ID i /\ Status refresh = 0 /\
    TokenType refresh = TOKEN_TYPE_REFRESH /\
    calls w'
    = (calls w ++
       [CallGenerateUserToken refreshToken identity permissions;
        CallCreate access] ++
       map CallCreatePrivilege (stamp (TokenID access) tokenPrivs) ++
       [CallCreate refresh])%list.
Proof.
  unfold exchangeTransaction.
  change (match identity with
          | Some i =>
              if negb (String.eqb rptToken "")
              then exchangePermissions env i rptToken
              else ret ([], [])
          | None => ret ([], [])
          end) with (exchangeCarried env identity rptToken).
  unfold bind at 1.
  destruct (exchangeCarried_spec env identity rptToken w) as [Hw Hlen].
  destruct (exchangeCarried env identity rptToken w) as [[[perms tps]|e|] w1]
    eqn:Hcarried; try discriminate.
  simpl in Hw. subst w1. destruct (Hlen perms tps eq_refl) as [Hlength _].
  cbn [fst snd]. unfold bind at 1, mint at 1.
  destruct (GenerateUserTokenUsingRefreshToken _ _ _ _) as [g|] eqn:Hgen;
    [|discriminate].
  destruct identity as [i|]; [|discriminate].
  unfold bind at 1, mapFail at 1.
  match goal with
  | |- context [(if ?c then ?a else ?b) ?w0] =>
      destruct ((if c then a else b) w0) as [[access|e|] w2] eqn:Hreg;
      try discriminate
  end.
  assert (exists rows,
            IdentityID access = ID i /\ Status access = 0 /\
            TokenType access
            = (if (0 <? length perms)%nat then TOKEN_TYPE_RPT
               else TOKEN_TYPE_ACCESS) /\
            rows = stamp (TokenID access) tps /\
            calls w2
            = (calls w ++ [CallGenerateUserToken refreshToken (Some i) perms]
                 ++ CallCreate access :: map CallCreatePrivilege rows)%list)
    as (rows & Haid & Hast & Haty & -> & Hacalls).
  { destruct (0 <? length perms)%nat eqn:Hnonempty.
    - apply RegisterToken_Ok_inv in Hreg
        as (tc & tid & _ & _ & -> & _ & Hc).
      eexists. repeat (split; [reflexivity|]).
      rewrite Hc. simpl. now rewrite <- app_assoc.
    - apply RegisterToken_Ok_inv in Hreg
        as (tc & tid & _ & _ & -> & _ & Hc).
      apply Nat.ltb_ge in Hnonempty.
      assert (tps = []) as -> by (destruct tps; simpl in *; [reflexivity | lia]).
      eexists. repeat (split; [reflexivity|]).
      rewrite Hc. simpl. now rewrite <- app_assoc. }
  unfold bind at 1, mapFail at 1.
  destruct (RegisterToken env (ID i) (RefreshToken g) TOKEN_TYPE_REFRESH [] w2)
    as [[refresh|e|] w3] eqn:Hreg2; try discriminate.
  apply RegisterToken_Ok_inv in Hreg2 as (tc & tid & _ & _ & Hrefresh & _ & Hc).
  intros [= <- <-].
  exists i, perms, tps, access, refresh.
  repeat (split; [first [reflexivity | assumption | now rewrite Hrefresh]|]).
  rewrite Hc, Hacalls. simpl. rewrite <- !app_assoc. reflexivity.
Qed.

(** ** ExchangeRefreshToken: every path *)

(** X14: when [ExchangeRefreshToken] returns a token set, the refresh token
    was parsed and validated, its subject resolved to an identity that is
    not banned, and the token set is the conversion of the pair that the
    token manager generated for that identity.  After the validation,
    exactly these calls were made: the generation, the creation of the
    access token record (type RPT when permissions are carried, ACCESS
    otherwise), one privilege row per carried permission under the id of
    that record, and the creation of the refresh token record (type
    REFRESH); both records belong to the identity and have status 0. *)
Theorem Exchange_success {DB} (env : Env DB) (refreshToken rptToken : string)
    (w w' : World DB) (tokenSet : TokenSet) :
  ExchangeRefreshToken env refreshToken rptToken w = (Ok tokenSet, w') ->
  exists tkn w1 sub identityID i permissions tokenPrivs generatedToken
         access refresh,
    Parse (tokenManager env) refreshToken = Success tkn /\
    ValidateToken env tkn w = (Ok tt, w1) /\
    Claims tkn !! "sub" = Some sub /\
    uuid_FromString env (Sprintf_s sub) = Success identityID /\
    fst (Identities_LoadWithUser env identityID (db w1)) = Some i /\
    Banned (identity_User i) = false /\
    GenerateUserTokenUsingRefreshToken (tokenManager env) refreshToken (Some i)
      permissions = Success generatedToken /\
    ConvertToken (tokenManager env) generatedToken = Success tokenSet /\
    length tokenPrivs = length permissions /\
    IdentityID access = ID i /\ Status access = 0 /\
    TokenType access
    = (if (0 <? length permissions)%nat then TOKEN_TYPE_RPT
       else TOKEN_TYPE_ACCESS) /\
    IdentityID refresh = ID i /\ Status refresh = 0 /\
    TokenType refresh = TOKEN_TYPE_REFRESH /\
    calls w'
    = (calls w1 ++
       [CallGenerateUserToken refreshToken (Some i) permissions;
        CallCreate access] ++
       map CallCreatePrivilege (stamp (TokenID access) tokenPrivs) ++
       [CallCreate refresh])%list.
Proof.
  unfold ExchangeRefreshToken.
  destruct (Parse _ _) as [tkn|] eqn:Hparse; [|discriminate].
  unfold bind at 1, mapFail at 1.
  destruct (ValidateToken env tkn w) as [[[]|e|] w1] eqn:Hvalid;
    try discriminate.
  destruct (Claims tkn !! "sub") as [sub|] eqn:Hsub; [|discriminate].
  destruct (uuid_FromString env (Sprintf_s sub)) as [identityID|] eqn:Hsubid;
    [|discriminate].
  unfold bind at 1, get at 1. cbv zeta.
  destruct (match snd (Identities_LoadWithUser env identityID (db w1)) with
            | Some err => if IsUnauthorizedError err then Some err else None
            | None => None
            end); [discriminate|].
  destruct (fst (Identities_LoadWithUser env identityID (db w1))) as [i|]
    eqn:Hidentity.
  - destruct (Banned (identity_User i)) eqn:Hbanned; [discriminate|].
    unfold bind at 1.
    destruct (ExecuteInTransaction
                (exchangeTransaction env (Some i) refreshToken rptToken) w1)
      as [[g|e|] w2] eqn:Htx; try discriminate.
    apply ExecuteInTransaction_Ok_inv, exchangeTransaction_Ok_inv in Htx
      as (i' & perms & tps & access & refresh & [= <-] & Hcarried & Hgen & Haid
          & Hast & Haty & Hrid & Hrst & Hrty & Hcalls).
    destruct (ConvertToken (tokenManager env) g) as [ts|] eqn:Hconv;
      [|discriminate].
    intros [= <- <-].
    destruct (exchangeCarried_spec env (Some i) rptToken w1) as [_ Hlen].
    rewrite Hcarried in Hlen. destruct (Hlen perms tps eq_refl) as [Hlength _].
    exists tkn, w1, sub, identityID, i, perms, tps, g, access, refresh.
    repeat (split; [first [reflexivity | assumption]|]). exact Hcalls.
  - unfold bind at 1.
    destruct (ExecuteInTransaction
                (exchangeTransaction env None refreshToken rptToken) w1)
      as [[g|e|] w2] eqn:Htx; try discriminate.
    apply ExecuteInTransaction_Ok_inv, exchangeTransaction_Ok_inv in Htx
      as (i' & perms & tps & access & refresh & Hnone & _).
    discriminate.
Qed.

(** With no identity the run of [ExchangeRefreshToken] is the one of the
    body of its transaction. *)
Lemma Exchange_without_identity_run {DB} (env : Env DB)
    (refreshToken rptToken : string) (w w1 : World DB) (tkn : jwtToken)
    (sub : ClaimValue) (identityID : UUID) :
  Parse (tokenManager env) refreshToken = Success tkn ->
  ValidateToken env tkn w = (Ok tt, w1) ->
  Claims tkn !! "sub" = Some sub ->
  uuid_FromString env (Sprintf_s sub) = Success identityID ->
  fst (Identities_LoadWithUser env identityID (db w1)) = None ->
  match snd (Identities_LoadWithUser env identityID (db w1)) with
  | Some err => IsUnauthorizedError err = false
  | None => True
  end ->
  ExchangeRefreshToken env refreshToken rptToken w
  = (match GenerateUserTokenUsingRefreshToken (tokenManager env) refreshToken
             None [] with
     | Success _ => Panic
     | Failure err => Fail err
     end,
     mkWorld (db w1) (calls w1 ++ [CallGenerateUserToken refreshToken None []])).
Proof.
  intros Hparse Hvalid Hsub Hsubid Hidentity Hlookup.
  unfold ExchangeRefreshToken. rewrite Hparse.
  unfold bind at 1, mapFail at 1. rewrite Hvalid, Hsub, Hsubid.
  unfold bind at 1, get at 1. cbv zeta. rewrite Hidentity.
  assert (match snd (Identities_LoadWithUser env identityID (db w1)) with
          | Some err => if IsUnauthorizedError err then Some err else None
          | None => None
          end = None) as ->.
  { destruct (snd (Identities_LoadWithUser env identityID (db w1)));
      [rewrite Hlookup|]; reflexivity. }
  unfold bind at 1, ExecuteInTransaction, exchangeTransaction.
  unfold bind at 1, ret at 1. cbn [fst snd].
  unfold bind at 1, mint at 1.
  destruct (GenerateUserTokenUsingRefreshToken (tokenManager env) refreshToken
              None []); reflexivity.
Qed.

(** X15: when the subject of the refresh token resolves to no identity
    (the case the code tolerates for API clients), the body of the
    transaction asks the token manager for a token pair without
    permissions, and then either returns the error of the generation or,
    when a pair was generated, panics on [identity.ID].
    [ExchangeRefreshToken] therefore never returns a token set in this
    case, and makes no call after the generation: nothing is registered. *)
Theorem Exchange_without_identity {DB} (env : Env DB)
    (refreshToken rptToken : string) (w w1 : World DB) (tkn : jwtToken)
    (sub : ClaimValue) (identityID : UUID) :
  Parse (tokenManager env) refreshToken = Success tkn ->
  ValidateToken env tkn w = (Ok tt, w1) ->
  Claims tkn !! "sub" = Some sub ->
  uuid_FromString env (Sprintf_s sub) = Success identityID ->
  fst (Identities_LoadWithUser env identityID (db w1)) = None ->
  match snd (Identities_LoadWithUser env identityID (db w1)) with
  | Some err => IsUnauthorizedError err = false
  | None => True
  end ->
  exchangeTransaction env None refreshToken rptToken w1
  = (match GenerateUserTokenUsingRefreshToken (tokenManager env) refreshToken
             None [] with
     | Success _ => Panic
     | Failure err => Fail err
     end,
     mkWorld (db w1) (calls w1 ++ [CallGenerateUserToken refreshToken None []]))
  /\
  (forall tokenSet,
     fst (ExchangeRefreshToken env refreshToken rptToken w) <> Ok tokenSet)
  /\
  calls (snd (ExchangeRefreshToken env refreshToken rptToken w))
  = (calls w1 ++ [CallGenerateUserToken refreshToken None []])%list.
Proof.
  intros Hparse Hvalid Hsub Hsubid Hidentity Hlookup.
  rewrite (Exchange_without_identity_run env refreshToken rptToken w w1 tkn sub
             identityID Hparse Hvalid Hsub Hsubid Hidentity Hlookup).
  split; [|split; [|reflexivity]].
  - unfold exchangeTransaction.
    unfold bind at 1, ret at 1. cbn [fst snd].
    unfold bind at 1, mint at 1.
    destruct (GenerateUserTokenUsingRefreshToken (tokenManager env) refreshToken
                None []); reflexivity.
  - intros tokenSet. cbn [fst].
    destruct (GenerateUserTokenUsingRefreshToken (tokenManager env) refreshToken
                None []); discriminate.
Qed.

(** X16: whatever goes wrong with the refresh token itself is reported as
    Unauthorized: a refresh token that does not parse, any failure of its
    validation (a missing record, a revoked token, a malformed jti: the
    message of the error is kept, its kind is not), a missing "sub" claim,
    and a "sub" claim that is not a UUID.  Nothing is generated or
    registered. *)
Theorem Exchange_rejects_refresh_token {DB} (env : Env DB)
    (refreshToken rptToken : string) (w : World DB) :
  (forall err,
     Parse (tokenManager env) refreshToken = Failure err ->
     ExchangeRefreshToken env refreshToken rptToken w
     = (Fail (UnauthorizedError (error_Error env err) UNAUTHORIZED_CODE_PLAIN), w))
  /\
  (forall tkn,
     Parse (tokenManager env) refreshToken = Success tkn ->
     (forall err w1,
        ValidateToken env tkn w = (Fail err, w1) ->
        ExchangeRefreshToken env refreshToken rptToken w
        = (Fail (UnauthorizedError (error_Error env err) UNAUTHORIZED_CODE_PLAIN),
           w1))
     /\
     (forall w1,
        ValidateToken env tkn w = (Ok tt, w1) ->
        (Claims tkn !! "sub" = None ->
         ExchangeRefreshToken env refreshToken rptToken w
         = (Fail (UnauthorizedError "missing 'sub' claim in the refresh token"
                    UNAUTHORIZED_CODE_PLAIN), w1))
        /\
        (forall sub err,
           Claims tkn !! "sub" = Some sub ->
           uuid_FromString env (Sprintf_s sub) = Failure err ->
           ExchangeRefreshToken env refreshToken rptToken w
           = (Fail (UnauthorizedError (error_Error env err)
                      UNAUTHORIZED_CODE_PLAIN), w1)))).
Proof.
  split; [|intros tkn Hparse; split; [|intros w1 Hvalid; split]].
  - intros err Hparse. unfold ExchangeRefreshToken. now rewrite Hparse.
  - intros err w1 Hvalid. unfold ExchangeRefreshToken. rewrite Hparse.
    unfold bind, mapFail. now rewrite Hvalid.
  - intros Hsub. unfold ExchangeRefreshToken. rewrite Hparse.
    unfold bind at 1, mapFail. now rewrite Hvalid, Hsub.
  - intros sub err Hsub Hbad. unfold ExchangeRefreshToken. rewrite Hparse.
    unfold bind at 1, mapFail. now rewrite Hvalid, Hsub, Hbad.
Qed.

(** X17: an [ExchangeRefreshToken] that does not succeed leaves the
    database as the validation of the refresh token left it (only the
    last-active stamp may have been touched): what the transaction wrote
    is rolled back.  The one exception is a failure of [ConvertToken],
    which comes after the transaction: the new records then stay. *)
Theorem Exchange_failure_keeps_database {DB} (env : Env DB)
    (refreshToken rptToken : string) (w : World DB) (tkn : jwtToken) :
  Parse (tokenManager env) refreshToken = Success tkn ->
  match fst (ExchangeRefreshToken env refreshToken rptToken w) with
  | Ok _ => True
  | _ =>
      db (snd (ExchangeRefreshToken env refreshToken rptToken w))
      = db (snd (ValidateToken env tkn w))
      \/
      exists identity generatedToken err,
        ExecuteInTransaction
          (exchangeTransaction env identity refreshToken rptToken)
          (snd (ValidateToken env tkn w))
        = (Ok generatedToken,
           snd (ExchangeRefreshToken env refreshToken rptToken w)) /\
        ConvertToken (tokenManager env) generatedToken = Failure err /\
        fst (ExchangeRefreshToken env refreshToken rptToken w) = Fail err
  end.
Proof.
  intros Hparse.
  remember (ExchangeRefreshToken env refreshToken rptToken w) as r eqn:Hr.
  unfold ExchangeRefreshToken in Hr. rewrite Hparse in Hr.
  unfold bind at 1, mapFail at 1 in Hr.
  destruct (ValidateToken env tkn w) as [[[]|e|] w1] eqn:Hvalid;
    [|subst r; left; reflexivity ..].
  cbn [snd].
  destruct (Claims tkn !! "sub") as [sub|]; [|subst r; left; reflexivity].
  destruct (uuid_FromString env (Sprintf_s sub)) as [identityID|];
    [|subst r; left; reflexivity].
  unfold bind at 1, get at 1 in Hr. cbv zeta in Hr.
  destruct (match snd (Identities_LoadWithUser env identityID (db w1)) with
            | Some err => if IsUnauthorizedError err then Some err else None
            | None => None
            end); [subst r; left; reflexivity|].
  destruct (match fst (Identities_LoadWithUser env identityID (db w1)) with
            | Some i => Banned (identity_User i)
            | None => false
            end); [subst r; left; reflexivity|].
  unfold bind in Hr.
  destruct (ExecuteInTransaction
              (exchangeTransaction env
                 (fst (Identities_LoadWithUser env identityID (db w1)))
                 refreshToken rptToken) w1) as [[g|e|] w2] eqn:Htx.
  - destruct (ConvertToken (tokenManager env) g) as [ts|err] eqn:Hconv;
      subst r; simpl; [exact I|].
    right. eexists _, g, err. split; [exact Htx|]. split; [exact Hconv|].
    reflexivity.
  - subst r. simpl. left. unfold ExecuteInTransaction in Htx.
    destruct (exchangeTransaction _ _ _ _ w1) as [[?|?|] ?];
      try discriminate; injection Htx as _ <-; reflexivity.
  - subst r. simpl. left. unfold ExecuteInTransaction in Htx.
    destruct (exchangeTransaction _ _ _ _ w1) as [[?|?|] ?];
      try discriminate; injection Htx as <-; reflexivity.
Qed.

(** ** External tokens *)

Section ExternalTokenProperties.
Context {DB : Type} (env : Env DB) (ext : ExternalEnv DB).

(** X18: the cluster-wide token always carries the service account token
    of the cluster, scope "<unknown>", type "Bearer" and the API URL of the
    cluster.  Without a forced pull its user name is the one configured for
    the service account; with a forced pull it is the user name of the
    profile the provider returns, and when the profile cannot be fetched
    no token is returned but an Unauthorized error with a LINK response. *)
Theorem retrieveClusterToken_answer (forResource : string)
    (forcePull : option bool) (provider : LinkingProvider) (cluster : OSOCluster) :
  let answer (username : string) :=
    mkAppExternalToken "<unknown>" (ServiceAccountToken cluster) "Bearer"
      username (cluster_APIURL cluster) in
  (forcePull <> Some true ->
   retrieveClusterToken env forResource forcePull provider cluster
   = (Some (answer (ServiceAccountUsername cluster)), None, None))
  /\
  (forcePull = Some true ->
   (forall userProfile,
      provider_Profile provider (ServiceAccountToken cluster) = Success userProfile ->
      retrieveClusterToken env forResource forcePull provider cluster
      = (Some (answer (profile_Username userProfile)), None, None))
   /\
   (forall err,
      provider_Profile provider (ServiceAccountToken cluster) = Failure err ->
      exists errorResponse,
        retrieveClusterToken env forResource forcePull provider cluster
        = (None, Some errorResponse,
           Some (UnauthorizedError (error_Error env err) UNAUTHORIZED_CODE_PLAIN)))).
Proof.
  cbv zeta. split; [|intros ->; split].
  - intros Hno. unfold retrieveClusterToken.
    destruct forcePull as [[|]|]; [contradiction | reflexivity | reflexivity].
  - intros userProfile Hprofile. unfold retrieveClusterToken. rewrite Hprofile.
    destruct (String.eqb_spec (ServiceAccountUsername cluster)
                (profile_Username userProfile)) as [Heq|]; simpl;
      [rewrite Heq|]; reflexivity.
  - intros err Hprofile. unfold retrieveClusterToken. rewrite Hprofile.
    eexists. reflexivity.
Qed.

Lemma loadExternalToken_reads linkingProvider currentIdentityID (w : World DB) :
  snd (loadExternalToken env ext linkingProvider currentIdentityID w) = w /\
  fst (loadExternalToken env ext linkingProvider currentIdentityID w) <> Panic.
Proof.
  unfold loadExternalToken, bind, get.
  destruct (Identities_CheckExists ext _ (db w)); simpl; [now split|].
  destruct (ExternalTokens_LoadByProviderIDAndIdentityID ext _ _ (db w));
    simpl; now split.
Qed.

Lemma catch_load linkingProvider currentIdentityID (w : World DB) :
  exists found,
    catch (ExecuteInTransaction
             (loadExternalToken env ext linkingProvider currentIdentityID)) w
    = (Ok found, w).
Proof.
  unfold catch, ExecuteInTransaction.
  destruct (loadExternalToken_reads linkingProvider currentIdentityID w)
    as [Hw Hpanic].
  destruct (loadExternalToken env ext linkingProvider currentIdentityID w)
    as [[a|e|] w1]; simpl in *; subst; try contradiction.
  - eexists; reflexivity.
  - eexists. destruct w; reflexivity.
Qed.

Lemma retrieveClusterToken_wellFormed forResource forcePull provider cluster :
  wellFormedResponse (retrieveClusterToken env forResource forcePull provider cluster).
Proof.
  unfold retrieveClusterToken.
  destruct forcePull as [[|]|]; try reflexivity.
  destruct (provider_Profile provider _); reflexivity.
Qed.

Lemma save_step (externalToken : ExternalToken) (w : World DB) :
  catch (ExecuteInTransaction
           (err <- update (ExternalTokens_Save ext externalToken) ;;
            match err with
            | Some e => fail e
            | None => ret tt
            end)) w
  = match ExternalTokens_Save ext externalToken (db w) with
    | (None, d') => (Ok (Success tt), mkWorld d' (calls w))
    | (Some e, _) => (Ok (Failure e), w)
    end.
Proof.
  unfold catch, ExecuteInTransaction, bind, update.
  destruct (ExternalTokens_Save ext externalToken (db w)) as [[e|] d']; simpl.
  - destruct w; reflexivity.
  - reflexivity.
Qed.

(** X19: with collaborators that return either a value or an error,
    [RetrieveExternalToken] always returns (it does not panic), and what it
    returns is either a token of type "Bearer" with no error, or an error
    with no token; an error response for the client comes only with an
    Unauthorized error. *)
Theorem RetrieveExternalToken_response (forResource : string)
    (forcePull : option bool) (w : World DB) :
  exists r,
    fst (RetrieveExternalToken env ext forResource forcePull w) = Ok r /\
    wellFormedResponse r.
Proof.
  unfold RetrieveExternalToken.
  destruct (String.eqb forResource ""); [eexists; split; reflexivity|].
  cbv zeta. unfold bind at 1.
  assert (exists current,
            (if IsSpecificServiceAccount ext then ret (ContextIdentity ext)
             else
               loaded <- get (LoadContextIdentityIfNotBanned ext) ;;
               match loaded with
               | Failure err => ret (Failure err)
               | Success currentIdentity => ret (Success (ID currentIdentity))
               end) w = (Ok current, w)) as [current ->].
  { destruct (IsSpecificServiceAccount ext); [eexists; reflexivity|].
    unfold bind, get.
    destruct (LoadContextIdentityIfNotBanned ext (db w)); eexists; reflexivity. }
  destruct current as [currentIdentityID|err];
    [|eexists; split; reflexivity].
  unfold bind at 1, get at 1.
  destruct (NewLinkingProvider ext _ _ _ (db w)) as [linkingProvider|err];
    [|eexists; split; reflexivity].
  assert (exists r,
            fst (retrieveStoredToken env ext forResource forcePull
                   linkingProvider currentIdentityID w) = Ok r /\
            wellFormedResponse r) as Huser.
  { unfold retrieveStoredToken. unfold bind at 1.
    destruct (catch_load linkingProvider currentIdentityID w) as [found ->].
    destruct found as [[externalToken|]|err];
      try (eexists; split; reflexivity).
    destruct forcePull as [[|]|]; try (eexists; split; reflexivity).
    destruct (provider_Profile linkingProvider (et_Token externalToken))
      as [userProfile|err]; [|eexists; split; reflexivity].
    unfold bind at 1. rewrite save_step.
    destruct (ExternalTokens_Save ext _ (db w)) as [[e|] d'];
      eexists; split; reflexivity. }
  destruct (provider_OSOCluster linkingProvider) as [cluster|]; [|exact Huser].
  destruct (IsSpecificServiceAccount ext); [|exact Huser].
  eexists. split; [reflexivity|]. apply retrieveClusterToken_wellFormed.
Qed.

(** What the second half of [RetrieveExternalToken] does, by what the
    first transaction finds. *)
Lemma retrieveStoredToken_run forResource forcePull linkingProvider
    currentIdentityID (w : World DB) (found : result (option ExternalToken)) :
  catch (ExecuteInTransaction
           (loadExternalToken env ext linkingProvider currentIdentityID)) w
  = (Ok found, w) ->
  retrieveStoredToken env ext forResource forcePull linkingProvider
    currentIdentityID w
  = match found with
    | Failure err => (Ok (None, None, Some err), w)
    | Success None =>
        (Ok (None,
             Some ("LINK url=" ++ linkURL ext forResource ++ ", description="
                     ++ quote ++ provider_TypeName linkingProvider
                     ++ " token is missing. Link "
                     ++ provider_TypeName linkingProvider ++ " account"
                     ++ quote)%string,
             Some (NewUnauthorizedError "token is missing")), w)
    | Success (Some externalToken) =>
        match forcePull with
        | Some true =>
            match provider_Profile linkingProvider (et_Token externalToken) with
            | Failure err =>
                (Ok (None,
                     Some ("LINK url=" ++ linkURL ext forResource
                             ++ ", description=" ++ quote
                             ++ provider_TypeName linkingProvider
                             ++ " token is not valid or expired. Relink "
                             ++ provider_TypeName linkingProvider ++ " account"
                             ++ quote)%string,
                     Some (NewUnauthorizedError (error_Error env err))), w)
            | Success userProfile =>
                let refreshed :=
                  mkExternalToken (et_ID externalToken)
                    (et_ProviderID externalToken) (et_Token externalToken)
                    (et_Scope externalToken) (et_IdentityID externalToken)
                    (profile_Username userProfile) in
                match ExternalTokens_Save ext refreshed (db w) with
                | (None, d') =>
                    (Ok (Some (mkAppExternalToken (et_Scope externalToken)
                                 (et_Token externalToken) "Bearer"
                                 (profile_Username userProfile)
                                 (provider_URL linkingProvider)), None, None),
                     mkWorld d' (calls w))
                | (Some e, _) => (Ok (None, None, Some e), w)
                end
            end
        | _ =>
            (Ok (Some (mkAppExternalToken (et_Scope externalToken)
                         (et_Token externalToken) "Bearer"
                         (et_Username externalToken)
                         (provider_URL linkingProvider)), None, None), w)
        end
    end.
Proof.
  intros Hfound. unfold retrieveStoredToken. unfold bind at 1. rewrite Hfound.
  destruct found as [[externalToken|]|err]; try reflexivity.
  destruct forcePull as [[|]|]; try reflexivity.
  destruct (provider_Profile linkingProvider (et_Token externalToken))
    as [userProfile|err]; [|reflexivity].
  unfold bind at 1. rewrite save_step. cbv zeta.
  destruct (ExternalTokens_Save ext _ (db w)) as [[e|] d']; reflexivity.
Qed.

(** The three ways [RetrieveExternalToken] ends. *)
Lemma RetrieveExternalToken_run (forResource : string)
    (forcePull : option bool) (w : World DB) :
  (exists err,
     RetrieveExternalToken env ext forResource forcePull w
     = (Ok (None, None, Some err), w))
  \/
  (exists linkingProvider cluster,
     RetrieveExternalToken env ext forResource forcePull w
     = (Ok (retrieveClusterToken env forResource forcePull linkingProvider
              cluster), w))
  \/
  (exists linkingProvider currentIdentityID,
     RetrieveExternalToken env ext forResource forcePull w
     = retrieveStoredToken env ext forResource forcePull linkingProvider
         currentIdentityID w).
Proof.
  remember (RetrieveExternalToken env ext forResource forcePull w) as r eqn:Hr.
  unfold RetrieveExternalToken in Hr.
  destruct (String.eqb forResource ""); [left; eexists; exact Hr|].
  cbv zeta in Hr. unfold bind at 1 in Hr.
  assert (exists current,
            (if IsSpecificServiceAccount ext then ret (ContextIdentity ext)
             else
               loaded <- get (LoadContextIdentityIfNotBanned ext) ;;
               match loaded with
               | Failure err => ret (Failure err)
               | Success currentIdentity => ret (Success (ID currentIdentity))
               end) w = (Ok current, w)) as [current Hcurrent].
  { destruct (IsSpecificServiceAccount ext); [eexists; reflexivity|].
    unfold bind, get.
    destruct (LoadContextIdentityIfNotBanned ext (db w)); eexists; reflexivity. }
  rewrite Hcurrent in Hr. clear Hcurrent.
  destruct current as [currentIdentityID|err]; [|left; eexists; exact Hr].
  unfold bind at 1, get at 1 in Hr.
  destruct (NewLinkingProvider ext _ _ _ (db w)) as [linkingProvider|err];
    [|left; eexists; exact Hr].
  destruct (provider_OSOCluster linkingProvider) as [cluster|];
    [|right; right; exists linkingProvider, currentIdentityID; exact Hr].
  destruct (IsSpecificServiceAccount ext);
    [right; left; exists linkingProvider, cluster; exact Hr
    |right; right; exists linkingProvider, currentIdentityID; exact Hr].
Qed.

(** X20: [RetrieveExternalToken] writes to the database in one case only:
    a forced pull for a stored token whose profile was fetched, where the
    stored token is saved with the user name of the profile and then
    answered with that user name.  In every other case, also when that
    save fails, it leaves the world as it was. *)
Theorem RetrieveExternalToken_writes_only_on_forced_pull
    (forResource : string) (forcePull : option bool) (w : World DB) :
  snd (RetrieveExternalToken env ext forResource forcePull w) = w
  \/
  (forcePull = Some true /\
   exists linkingProvider externalToken userProfile d',
     provider_Profile linkingProvider (et_Token externalToken)
       = Success userProfile /\
     ExternalTokens_Save ext
       (mkExternalToken (et_ID externalToken) (et_ProviderID externalToken)
          (et_Token externalToken) (et_Scope externalToken)
          (et_IdentityID externalToken) (profile_Username userProfile)) (db w)
     = (None, d') /\
     RetrieveExternalToken env ext forResource forcePull w
     = (Ok (Some (mkAppExternalToken (et_Scope externalToken)
                    (et_Token externalToken) "Bearer"
                    (profile_Username userProfile)
                    (provider_URL linkingProvider)), None, None),
        mkWorld d' (calls w))).
Proof.
  destruct (RetrieveExternalToken_run forResource forcePull w)
    as [[err ->]|[(linkingProvider & cluster & ->)
                 |(linkingProvider & currentIdentityID & ->)]];
    [left; reflexivity | left; reflexivity |].
  destruct (catch_load linkingProvider currentIdentityID w) as [found Hfound].
  rewrite (retrieveStoredToken_run forResource forcePull linkingProvider
             currentIdentityID w found Hfound).
  destruct found as [[externalToken|]|err]; try (left; reflexivity).
  destruct forcePull as [[|]|]; try (left; reflexivity).
  destruct (provider_Profile linkingProvider (et_Token externalToken))
    as [userProfile|err] eqn:Hprofile; [|left; reflexivity].
  cbv zeta.
  destruct (ExternalTokens_Save ext _ (db w)) as [[e|] d'] eqn:Hsave;
    [left; reflexivity|].
  right. split; [reflexivity|].
  exists linkingProvider, externalToken, userProfile, d'.
  split; [exact Hprofile|]. split; [exact Hsave | reflexivity].
Qed.

(** X21: for a user (not one of the service accounts) whose identity and
    linking provider resolve and whose identity exists, the answer is made
    from the first token stored for the provider: its scope, token and user
    name, type "Bearer" and the URL of the provider, the world unchanged
    unless a pull is forced; with no stored token the call fails
    Unauthorized "token is missing" with a LINK response that names the
    link URL for the resource. *)
Theorem RetrieveExternalToken_stored_token (forResource : string)
    (forcePull : option bool) (w : World DB) (currentIdentity : Identity)
    (linkingProvider : LinkingProvider) (tokens : list ExternalToken) :
  forResource <> "" ->
  IsSpecificServiceAccount ext = false ->
  LoadContextIdentityIfNotBanned ext (db w) = Success currentIdentity ->
  NewLinkingProvider ext (ID currentIdentity) (AbsoluteURL ext "") forResource
    (db w) = Success linkingProvider ->
  Identities_CheckExists ext (uuid_String ext (ID currentIdentity)) (db w) = None ->
  ExternalTokens_LoadByProviderIDAndIdentityID ext (provider_ID linkingProvider)
    (ID currentIdentity) (db w) = Success tokens ->
  (tokens = [] ->
   exists errorResponse,
     RetrieveExternalToken env ext forResource forcePull w
     = (Ok (None, Some errorResponse,
            Some (UnauthorizedError "token is missing" UNAUTHORIZED_CODE_PLAIN)),
        w) /\
     errorResponse
     = ("LINK url="
          ++ AbsoluteURL ext (LinkTokenPath ext ++ "?for=" ++ forResource)
          ++ ", description=" ++ quote ++ provider_TypeName linkingProvider
          ++ " token is missing. Link " ++ provider_TypeName linkingProvider
          ++ " account" ++ quote)%string)
  /\
  (forall externalToken rest,
     tokens = externalToken :: rest ->
     forcePull <> Some true ->
     RetrieveExternalToken env ext forResource forcePull w
     = (Ok (Some (mkAppExternalToken (et_Scope externalToken)
                    (et_Token externalToken) "Bearer"
                    (et_Username externalToken)
                    (provider_URL linkingProvider)), None, None), w)).
Proof.
  intros Hfor Hsa Hidentity Hprovider Hexists Htokens.
  assert (RetrieveExternalToken env ext forResource forcePull w
          = retrieveStoredToken env ext forResource forcePull linkingProvider
              (ID currentIdentity) w) as ->.
  { unfold RetrieveExternalToken.
    destruct (String.eqb_spec forResource ""); [contradiction|].
    cbv zeta. rewrite Hsa. unfold bind at 1. unfold bind at 1, get at 1.
    rewrite Hidentity. unfold ret at 1. unfold bind at 1, get at 1.
    rewrite Hprovider.
    destruct (provider_OSOCluster linkingProvider); reflexivity. }
  assert (catch (ExecuteInTransaction
                   (loadExternalToken env ext linkingProvider
                      (ID currentIdentity))) w
          = (Ok (Success (head tokens)), w)) as Hfound.
  { unfold catch, ExecuteInTransaction, loadExternalToken, bind, get.
    now rewrite Hexists, Htokens. }
  rewrite (retrieveStoredToken_run forResource forcePull linkingProvider
             (ID currentIdentity) w _ Hfound).
  split.
  - intros ->. simpl. eexists. split; reflexivity.
  - intros externalToken rest -> Hno. simpl.
    destruct forcePull as [[|]|]; [contradiction | reflexivity | reflexivity].
Qed.

(** X22: for one of the service accounts whose linking provider is an
    OpenShift provider, [RetrieveExternalToken] answers with the
    cluster-wide token and reads no stored token: the identity need not
    exist and the world is unchanged. *)
Theorem RetrieveExternalToken_service_account (forResource : string)
    (forcePull : option bool) (w : World DB) (id : UUID)
    (linkingProvider : LinkingProvider) (cluster : OSOCluster) :
  forResource <> "" ->
  IsSpecificServiceAccount ext = true ->
  ContextIdentity ext = Success id ->
  NewLinkingProvider ext id (AbsoluteURL ext "") forResource (db w)
    = Success linkingProvider ->
  provider_OSOCluster linkingProvider = Some cluster ->
  RetrieveExternalToken env ext forResource forcePull w
  = (Ok (retrieveClusterToken env forResource forcePull linkingProvider cluster),
     w).
Proof.
  intros Hfor Hsa Hid Hprovider Hcluster. unfold RetrieveExternalToken.
  destruct (String.eqb_spec forResource ""); [contradiction|].
  cbv zeta. rewrite Hsa, Hid. unfold bind, get, ret.
  now rewrite Hprovider, Hcluster.
Qed.

(** ** DeleteExternalToken *)

Lemma deleteTokens_run (tokens : list ExternalToken) (w : World DB) :
  calls (snd (deleteTokens ext tokens w)) = calls w /\
  match fst (deleteTokens ext tokens w) with
  | Ok _ =>
      db (snd (deleteTokens ext tokens w))
      = fold_left (fun d token => snd (ExternalTokens_Delete ext (et_ID token) d))
          tokens (db w)
  | Fail _ => True
  | Panic => False
  end.
Proof.
  revert w. induction tokens as [|token rest IH]; intros w; simpl.
  - split; reflexivity.
  - unfold bind, update.
    destruct (ExternalTokens_Delete ext (et_ID token) (db w)) as [[e|] d'] eqn:Hd;
      simpl.
    + split; [reflexivity | exact I].
    + apply (IH (mkWorld d' (calls w))).
Qed.

(** X23: [DeleteExternalToken] fails only with an Unauthorized or an
    Internal error (any other error of a collaborator is wrapped as
    Internal, an identity that does not exist is reported as Unauthorized),
    and then leaves the database as it was; when it succeeds, the linking
    provider was resolved, the identity exists, and every token the
    identity has stored for the provider was deleted, in order. *)
Theorem DeleteExternalToken_outcome (currentIdentity : UUID)
    (authURL forResource : string) (w : World DB) :
  match fst (DeleteExternalToken env ext currentIdentity authURL forResource w) with
  | Ok _ =>
      exists providerConfig tokens,
        NewLinkingProvider ext currentIdentity authURL forResource (db w)
          = Success providerConfig /\
        Identities_CheckExists ext (uuid_String ext currentIdentity) (db w)
          = None /\
        ExternalTokens_LoadByProviderIDAndIdentityID ext
          (provider_ID providerConfig) currentIdentity (db w) = Success tokens /\
        db (snd (DeleteExternalToken env ext currentIdentity authURL forResource w))
        = fold_left
            (fun d token => snd (ExternalTokens_Delete ext (et_ID token) d))
            tokens (db w)
  | Fail e =>
      db (snd (DeleteExternalToken env ext currentIdentity authURL forResource w))
      = db w /\
      (IsUnauthorizedError e = true \/ exists cause, e = InternalError cause)
  | Panic => False
  end.
Proof.
  assert (forall err,
            IsUnauthorizedError (unauthorizedOrInternal err) = true \/
            exists cause, unauthorizedOrInternal err = InternalError cause)
    as Hclass.
  { intros err. unfold unauthorizedOrInternal.
    destruct (IsUnauthorizedError err) eqn:Hu; [now left | right; now exists err]. }
  remember (DeleteExternalToken env ext currentIdentity authURL forResource w)
    as r eqn:Hr.
  unfold DeleteExternalToken in Hr. unfold bind at 1, get at 1 in Hr.
  destruct (NewLinkingProvider ext currentIdentity authURL forResource (db w))
    as [providerConfig|err] eqn:Hprovider;
    [|subst r; simpl; split; [reflexivity | first [apply Hclass | now left]]].
  unfold mapFail, ExecuteInTransaction in Hr. unfold bind at 1, get at 1 in Hr.
  destruct (Identities_CheckExists ext (uuid_String ext currentIdentity) (db w))
    as [err|] eqn:Hexists;
    [subst r; simpl; split; [reflexivity | first [apply Hclass | now left]]|].
  unfold bind at 1, get at 1 in Hr.
  destruct (ExternalTokens_LoadByProviderIDAndIdentityID ext
              (provider_ID providerConfig) currentIdentity (db w))
    as [tokens|err] eqn:Htokens;
    [|subst r; simpl; split; [reflexivity | first [apply Hclass | now left]]].
  destruct (deleteTokens_run tokens w) as [_ Hrun].
  destruct (deleteTokens ext tokens w) as [[[]|e|] w1]; subst r; simpl in *.
  - exists providerConfig, tokens. now repeat split.
  - split; [reflexivity | first [apply Hclass | now left]].
  - exact Hrun.
Qed.

(** ** SetStatusForAllIdentityTokens *)

(** X24: [SetStatusForAllIdentityTokens] updates the status flags only
    after the identity was loaded and its tokens were listed, and it
    updates those of the loaded identity.  An error of the load, of the
    listing or of the update is returned as it is, not wrapped, and the
    database is then as it was; the call panics only when the load
    returns neither an identity nor an error. *)
Theorem SetStatusForAllIdentityTokens_outcome (identityID : UUID) (status : Z)
    (w : World DB) :
  match fst (SetStatusForAllIdentityTokens env ext identityID status w) with
  | Ok _ =>
      exists found tokens,
        Identities_LoadWithUser env identityID (db w) = (Some found, None) /\
        TokenRepository_ListForIdentity ext (ID found) (db w) = Success tokens /\
        TokenRepository_SetStatusFlagsForIdentity ext (ID found) status (db w)
        = (None,
           db (snd (SetStatusForAllIdentityTokens env ext identityID status w)))
  | Fail e =>
      db (snd (SetStatusForAllIdentityTokens env ext identityID status w)) = db w /\
      (snd (Identities_LoadWithUser env identityID (db w)) = Some e
       \/
       exists found,
         Identities_LoadWithUser env identityID (db w) = (Some found, None) /\
         (TokenRepository_ListForIdentity ext (ID found) (db w) = Failure e
          \/
          fst (TokenRepository_SetStatusFlagsForIdentity ext (ID found) status
                 (db w)) = Some e))
  | Panic =>
      Identities_LoadWithUser env identityID (db w) = (None, None) /\
      snd (SetStatusForAllIdentityTokens env ext identityID status w) = w
  end.
Proof.
  remember (SetStatusForAllIdentityTokens env ext identityID status w)
    as r eqn:Hr.
  unfold SetStatusForAllIdentityTokens in Hr. unfold bind at 1, get at 1 in Hr.
  destruct (Identities_LoadWithUser env identityID (db w)) as [found err]
    eqn:Hload.
  simpl in Hr.
  destruct err as [err|]; [subst r; simpl; split; [reflexivity | now left]|].
  destruct found as [found|]; [|subst r; simpl; split; reflexivity].
  unfold bind at 1, get at 1 in Hr.
  destruct (TokenRepository_ListForIdentity ext (ID found) (db w))
    as [tokens|err] eqn:Hlist;
    [|subst r; simpl; split; [reflexivity|]; right; exists found;
      split; [reflexivity | now left]].
  unfold ExecuteInTransaction, bind, update in Hr.
  destruct (TokenRepository_SetStatusFlagsForIdentity ext (ID found) status (db w))
    as [[e|] d'] eqn:Hset; subst r; simpl.
  - split; [reflexivity|]. right. exists found. split; [reflexivity|].
    right. now rewrite Hset.
  - exists found, tokens. split; [reflexivity|]. split; [exact Hlist|].
    exact Hset.
Qed.

End ExternalTokenProperties.

(** ** scopesEquivalent on scope lists without duplicates *)

(** X25: when the first list has no repeated scope, a positive answer of
    [scopesEquivalent] means that the two lists hold the same scopes, and
    the comparison then gives the same answer with its arguments swapped.
    Only the first list needs to be free of duplicates. *)
Theorem scopesEquivalent_without_duplicates (value1 value2 : list string) :
  List.NoDup value1 ->
  scopesEquivalent value1 value2 = true ->
  (forall s, In s value1 <-> In s value2) /\
  scopesEquivalent value2 value1 = true.
Proof.
  intros Hnd Heq. apply scopesEquivalent_spec in Heq as [Hlen Hincl].
  assert (incl value2 value1) as Hback.
  { apply (List.NoDup_length_incl Hnd); [lia | exact Hincl]. }
  split.
  - intros s. split; [apply Hincl | apply Hback].
  - apply scopesEquivalent_spec. split; [now symmetry | exact Hback].
Qed.

Lemma scopesEquivalent_without_duplicates_witness :
  (forall s, In s ["read"; "write"] <-> In s ["write"; "read"]) /\
  scopesEquivalent ["write"; "read"] ["read"; "write"] = true.
Proof.
  apply (scopesEquivalent_without_duplicates ["read"; "write"] ["write"; "read"]).
  - repeat constructor; simpl; intuition discriminate.
  - reflexivity.
Defined.

(** * The further properties on the scenarios *)

Lemma RegisterToken_success_witness :
  let w := initW Scenario.store in
  let run := RegisterToken (Scenario.env 5) 1%N "rpt" TOKEN_TYPE_RPT
               [mkTokenPrivilege 0%N 1000%N; mkTokenPrivilege 0%N 102%N] w in
  let tkn := mkToken 11%N 1%N 0 TOKEN_TYPE_RPT (Scenario.seconds 950) in
  exists tokenClaims tokenID,
    ParseToken (tokenManager (Scenario.env 5)) "rpt" = Success tokenClaims /\
    uuid_FromString (Scenario.env 5) (Id tokenClaims) = Success tokenID /\
    tkn = mkToken tokenID 1%N 0 TOKEN_TYPE_RPT
            (time_Unix (ExpiresAt tokenClaims) 0) /\
    Unix (ExpiryTime tkn) = ExpiresAt tokenClaims /\
    calls (snd run)
    = (calls w ++ CallCreate tkn
         :: map CallCreatePrivilege
              (stamp tokenID
                 [mkTokenPrivilege 0%N 1000%N; mkTokenPrivilege 0%N 102%N]))%list.
Proof.
  intros w run tkn.
  apply (RegisterToken_success (Scenario.env 5) 1%N "rpt" TOKEN_TYPE_RPT
           [mkTokenPrivilege 0%N 1000%N; mkTokenPrivilege 0%N 102%N]
           w (snd run) tkn).
  settle.
Defined.


Lemma Audit_suffices_only_if_witness :
  let env := Scenario.env 5 in
  let w := initW Scenario.store in
  exists tm claims tid tok permissions,
    ReadTokenManagerFromContext env = Success tm /\
    ParseToken tm "rpt-10R" = Success claims /\
    uuid_FromString env (Id claims) = Success tid /\
    fst (TokenRepository_Load env tid (db w)) = Some tok /\
    IdentityID tok = ID Scenario.alice /\
    claim_Permissions claims = Some permissions /\
    In "R" (map ResourceSetID permissions) /\
    ((Valid tok = true /\ w = w)
     \/
     (HasStatus tok (TOKEN_STATUS_STALE env) = true /\
      HasStatus tok (TOKEN_STATUS_DEPROVISIONED env) = false /\
      HasStatus tok (TOKEN_STATUS_REVOKED env) = false /\
      HasStatus tok (TOKEN_STATUS_LOGGED_OUT env) = false /\
      TokenRepository_Save env (withStatus tok 0) (db w) = (None, db w) /\
      calls w = (calls w ++ [CallSave (withStatus tok 0)])%list)).
Proof.
  intros env w.
  apply (Audit_suffices_only_if env Scenario.alice "rpt-10R" "R" w w).
  settle.
Defined.

Lemma Audit_saves_only_stale_token_witness :
  let env := Scenario.env 5 in
  let t := mkToken 20%N 1%N 0 TOKEN_TYPE_RPT (Scenario.seconds 900) in
  exists tok,
    fst (TokenRepository_Load env 20%N Scenario.store) = Some tok /\
    HasStatus tok (TOKEN_STATUS_STALE env) = true /\
    t = withStatus tok 0 /\
    calls (snd (Audit env Scenario.alice "rpt-20" "R" (initW Scenario.store)))
    = [CallSave t].
Proof.
  intros env t.
  destruct (Audit_saves_only_stale_token env Scenario.alice "rpt-20" "R"
              Scenario.store t)
    as (tm & claims & tid & tok & perms & Htm & Hparse & Hjti & Hload & _ & _ & _
        & Hstale & _ & _ & _ & Ht & _ & Hcalls);
    [settle|].
  vm_compute in Htm. injection Htm as <-.
  vm_compute in Hparse. injection Hparse as <-.
  vm_compute in Hjti. injection Hjti as <-.
  exists tok. split; [exact Hload|]. split; [exact Hstale|].
  split; [exact Ht | exact Hcalls].
Defined.

Lemma Audit_new_token_registered_witness :
  let env := Scenario.env 5 in
  let run := Audit env Scenario.alice "rpt-10" "R" (initW Scenario.store) in
  exists tm claims perms tokenPrivs generatedToken tkn,
    ReadTokenManagerFromContext env = Success tm /\
    ParseToken tm "rpt-10" = Success claims /\
    GenerateUnsignedRPTTokenForIdentity tm claims Scenario.alice perms
      = Success generatedToken /\
    SignRPTToken tm generatedToken = Success "rpt" /\
    IdentityID tkn = ID Scenario.alice /\ Status tkn = 0 /\
    TokenType tkn = TOKEN_TYPE_RPT /\
    length tokenPrivs = length perms /\
    Forall (fun row => tp_TokenID row = TokenID tkn)
      (stamp (TokenID tkn) tokenPrivs) /\
    calls (snd run)
    = ([CallGenerateUnsignedRPT claims Scenario.alice perms;
        CallSignRPT generatedToken; CallCreate tkn] ++
       map CallCreatePrivilege (stamp (TokenID tkn) tokenPrivs))%list.
Proof.
  intros env run.
  apply (Audit_new_token_registered env Scenario.alice "rpt-10" "R"
           Scenario.store (snd run) "rpt").
  settle.
Defined.

Lemma Audit_first_token_witness :
  let env := Scenario.env 5 in
  let run := Audit env Scenario.alice "rpt-99" "R" (initW Scenario.store) in
  exists privilegeCache generatedToken tkn,
    CachedPrivileges env (ID Scenario.alice) "R" Scenario.store
      = Success privilegeCache /\
    IdentityID tkn = ID Scenario.alice /\
    calls (snd run)
    = [CallGenerateUnsignedRPT (mkTokenClaims "99" 900 None) Scenario.alice
         [mkPermissions "R" (ScopesAsArray privilegeCache)
            (Unix (pc_ExpiryTime privilegeCache))];
       CallSignRPT generatedToken;
       CallCreate tkn;
       CallCreatePrivilege
         (mkTokenPrivilege (TokenID tkn) (PrivilegeCacheID privilegeCache))].
Proof.
  intros env run.
  apply (Audit_first_token env Scenario.alice "rpt-99" "R" Scenario.store
           (snd run) "rpt" (Demo.manager Scenario.known Scenario.knownJwt)
           (mkTokenClaims "99" 900 None) 99%N);
    settle.
Defined.

Lemma Audit_rejects_bad_input_witness :
  Audit (Scenario.env 5) Scenario.alice "garbage" "nope" (initW Scenario.store)
  = (Fail (BadParameterError "resourceID" "nope" "resource does not exist"),
     initW Scenario.store)
  /\
  Audit (Scenario.env 5) Scenario.alice "garbage" "R" (initW Scenario.store)
  = (Fail (BadParameterError "tokenString" "garbage"
             "invalid token string could not be parsed"),
     initW Scenario.store).
Proof.
  split.
  - destruct (Audit_rejects_bad_input (Scenario.env 5) Scenario.alice "garbage"
                "nope" (initW Scenario.store)) as [Hmissing _].
    rewrite (Hmissing (NotFoundError "resource" "nope")); settle.
  - destruct (Audit_rejects_bad_input (Scenario.env 5) Scenario.alice "garbage"
                "R" (initW Scenario.store)) as [_ Hrest].
    destruct Hrest as [_ Hmanager]; [settle|].
    destruct (Hmanager (Demo.manager Scenario.known Scenario.knownJwt))
      as [Hparse _]; [settle|].
    apply (Hparse (OtherError "token is malformed")). settle.
Defined.

Lemma ValidateToken_accepts_only_if_witness :
  let env := Scenario.env 5 in
  let w := initW Scenario.store in
  let w' := snd (ValidateToken env Scenario.oddTransient w) in
  exists jti tokenID tkn,
    Claims Scenario.oddTransient !! "jti" = Some (ClaimString jti) /\
    uuid_FromString env jti = Success tokenID /\
    TokenRepository_Load env tokenID (db w) = (Some tkn, None) /\
    Valid tkn = true /\
    ((exists transClaim,
        Claims Scenario.oddTransient !! "transient"
          = Some (ClaimString transClaim) /\
        ParseBool transClaim = Some true /\ w' = w)
     \/
     (exists sub identityID,
        Claims Scenario.oddTransient !! "sub" = Some (ClaimString sub) /\
        uuid_FromString env sub = Success identityID /\
        Identities_TouchLastActive env identityID (db w) = (None, db w') /\
        calls w' = (calls w ++ [CallTouchLastActive identityID])%list)).
Proof.
  intros env w w'.
  apply (ValidateToken_accepts_only_if env Scenario.oddTransient w w').
  settle.
Defined.

Lemma ValidateToken_transient_skips_touch_witness :
  ValidateToken (Scenario.env 5) Scenario2.transientToken (initW Scenario.store)
  = (Ok tt, initW Scenario.store).
Proof.
  apply (ValidateToken_transient_skips_touch (Scenario.env 5)
           Scenario2.transientToken (initW Scenario.store) "30" "true" 30%N
           (mkToken 30%N 1%N 0 TOKEN_TYPE_REFRESH (Scenario.seconds 900)));
    [settle .. |].
  do 4 right. left. reflexivity.
Defined.

Lemma ValidateToken_bad_identifiers_witness :
  ValidateToken (Scenario.env 5) Scenario2.oddSubject (initW Scenario.store)
  = (Fail (BadParameterError "token" "access"
             "could not extract identity ID from token"),
     initW Scenario.store).
Proof.
  destruct (ValidateToken_bad_identifiers (Scenario.env 5) Scenario2.oddSubject
              (initW Scenario.store) "30") as [_ Hsubject]; [settle|].
  destruct (Hsubject 30%N
              (mkToken 30%N 1%N 0 TOKEN_TYPE_REFRESH (Scenario.seconds 900))
              "alice") as [Hbad _]; [settle ..|].
  destruct (uuid_FromString (Scenario.env 5) "alice") as [id|err] eqn:Hsub;
    [vm_compute in Hsub; discriminate Hsub|].
  exact (Hbad err eq_refl).
Defined.

Lemma Exchange_carries_latest_first_witness :
  let env := Scenario.env 5 in
  let tok := mkToken 10%N 1%N 0 TOKEN_TYPE_RPT (Scenario.seconds 900) in
  let permissions :=
    [ mkPermissions "H02" ["read"] 120;
      mkPermissions "H06" ["admin"] 600;
      mkPermissions "H08" ["read"] 100;
      mkPermissions "H04" ["read"] 90;
      mkPermissions "H10" ["read"] 80 ] in
  let tokenPrivs :=
    [ mkTokenPrivilege 0%N 102%N; mkTokenPrivilege 0%N 106%N;
      mkTokenPrivilege 0%N 108%N; mkTokenPrivilege 0%N 104%N;
      mkTokenPrivilege 0%N 110%N ] in
  IdentityID tok = ID Scenario.alice /\
  exists oldTokenPrivs,
    TokenRepository_ListPrivileges env (TokenID tok) Scenario.store
      = Success oldTokenPrivs /\
    tokenPrivs
    = map carriedPrivilege
        (take 5 (sort_Slice env byExpiryLatestFirst oldTokenPrivs)) /\
    length tokenPrivs = length permissions.
Proof.
  intros env tok permissions tokenPrivs.
  destruct (Exchange_carries_latest_first env Scenario.alice "rpt-10"
              (initW Scenario.store) (initW Scenario.store)
              (mkTokenClaims "10" 900 (Some [mkPermissions "H01" ["read"] 30]))
              10%N tok permissions tokenPrivs)
    as (Hid & _ & _ & _ & olds & Holds & Hrest);
    [apply sortContract_scenario | settle ..|].
  cbv zeta in Hrest.
  destruct Hrest as (_ & _ & _ & _ & Hrows & Hlen & _).
  split; [exact Hid|]. exists olds.
  split; [exact Holds|]. split; [exact Hrows | exact Hlen].
Defined.

Lemma Exchange_success_witness :
  let env := Scenario.env 5 in
  let run := ExchangeRefreshToken env "refresh-30" "rpt-10"
               (initW Scenario.store) in
  exists w1 i permissions tokenPrivs generatedToken access refresh,
    ValidateToken env (Scenario.refreshOf "30" "1") (initW Scenario.store)
      = (Ok tt, w1) /\
    Banned (identity_User i) = false /\
    ConvertToken (tokenManager env) generatedToken
      = Success (mkTokenSet "access" "refresh") /\
    length tokenPrivs = length permissions /\
    IdentityID access = ID i /\
    IdentityID refresh = ID i /\
    TokenType refresh = TOKEN_TYPE_REFRESH /\
    calls (snd run)
    = (calls w1 ++
       [CallGenerateUserToken "refresh-30" (Some i) permissions;
        CallCreate access] ++
       map CallCreatePrivilege (stamp (TokenID access) tokenPrivs) ++
       [CallCreate refresh])%list.
Proof.
  intros env run.
  destruct (Exchange_success env "refresh-30" "rpt-10" (initW Scenario.store)
              (snd run) (mkTokenSet "access" "refresh"))
    as (tkn & w1 & sub & identityID & i & perms & tps & g & access & refresh
        & Hparse & Hvalid & _ & _ & _ & Hbanned & _ & Hconv & Hlen & Haid & _ & _
        & Hrid & _ & Hrty & Hcalls);
    [settle|].
  vm_compute in Hparse. injection Hparse as <-.
  exists w1, i, perms, tps, g, access, refresh.
  split; [exact Hvalid|]. split; [exact Hbanned|]. split; [exact Hconv|].
  split; [exact Hlen|]. split; [exact Haid|]. split; [exact Hrid|].
  split; [exact Hrty | exact Hcalls].
Defined.

Lemma Exchange_without_identity_witness :
  let env := Scenario2.env 5 in
  let w1 := snd (ValidateToken env (Scenario.refreshOf "30" "9")
                   (initW Scenario.store)) in
  fst (exchangeTransaction env None "refresh-39" "rpt-10" w1) = Panic /\
  (forall tokenSet,
     fst (ExchangeRefreshToken env "refresh-39" "rpt-10" (initW Scenario.store))
     <> Ok tokenSet) /\
  calls (snd (ExchangeRefreshToken env "refresh-39" "rpt-10"
                (initW Scenario.store)))
  = [CallTouchLastActive 9%N; CallGenerateUserToken "refresh-39" None []].
Proof.
  intros env w1.
  destruct (Exchange_without_identity env "refresh-39" "rpt-10"
              (initW Scenario.store) w1 (Scenario.refreshOf "30" "9")
              (ClaimString "9") 9%N)
    as (Hbody & Hnever & Hcalls); [settle ..|].
  split; [now rewrite Hbody|]. split; [exact Hnever|].
  rewrite Hcalls. reflexivity.
Defined.

Lemma Exchange_rejects_refresh_token_witness :
  ExchangeRefreshToken (Scenario.env 5) "garbage" "rpt-10" (initW Scenario.store)
  = (Fail (UnauthorizedError
             (error_Error (Scenario.env 5) (OtherError "token is malformed"))
             UNAUTHORIZED_CODE_PLAIN),
     initW Scenario.store).
Proof.
  destruct (Exchange_rejects_refresh_token (Scenario.env 5) "garbage" "rpt-10"
              (initW Scenario.store)) as [Hparse _].
  apply Hparse. settle.
Defined.

Lemma Exchange_failure_keeps_database_witness :
  let env := Scenario.env 5 in
  let w := initW Scenario.store in
  fst (ExchangeRefreshToken env "refresh-30" "rpt-40" w)
  = Fail (UnauthorizedError "invalid token for identity" UNAUTHORIZED_CODE_PLAIN)
  /\
  match fst (ExchangeRefreshToken env "refresh-30" "rpt-40" w) with
  | Ok _ => True
  | _ =>
      db (snd (ExchangeRefreshToken env "refresh-30" "rpt-40" w))
      = db (snd (ValidateToken env (Scenario.refreshOf "30" "1") w))
      \/
      exists identity generatedToken err,
        ExecuteInTransaction
          (exchangeTransaction env identity "refresh-30" "rpt-40")
          (snd (ValidateToken env (Scenario.refreshOf "30" "1") w))
        = (Ok generatedToken,
           snd (ExchangeRefreshToken env "refresh-30" "rpt-40" w)) /\
        ConvertToken (tokenManager env) generatedToken = Failure err /\
        fst (ExchangeRefreshToken env "refresh-30" "rpt-40" w) = Fail err
  end.
Proof.
  intros env w. split; [vm_compute; reflexivity|].
  apply (Exchange_failure_keeps_database env "refresh-30" "rpt-40" w
           (Scenario.refreshOf "30" "1")).
  settle.
Defined.

Lemma retrieveClusterToken_answer_witness :
  retrieveClusterToken Scenario2.linkEnv "https://api.starter.example"
    (Some true) Scenario2.openshift Scenario2.cluster
  = (Some (mkAppExternalToken "<unknown>" "sa-token" "Bearer" "dsaas-renamed"
             "https://api.starter.example"), None, None).
Proof.
  destruct (retrieveClusterToken_answer Scenario2.linkEnv
              "https://api.starter.example" (Some true) Scenario2.openshift
              Scenario2.cluster) as [_ Hforced].
  destruct (Hforced eq_refl) as [Hprofile _].
  apply (Hprofile (mkUserProfile "dsaas-renamed")). settle.
Defined.

Lemma RetrieveExternalToken_stored_token_witness :
  RetrieveExternalToken Scenario2.linkEnv (Scenario2.linkExt false)
    "https://github.com/org/repo" None (initW Scenario2.links)
  = (Ok (Some (mkAppExternalToken "user:full" "gh-token" "Bearer" "alice-gh"
                 "https://api.github.com"), None, None),
     initW Scenario2.links).
Proof.
  destruct (RetrieveExternalToken_stored_token Scenario2.linkEnv
              (Scenario2.linkExt false) "https://github.com/org/repo" None
              (initW Scenario2.links) Scenario.alice Scenario2.github
              (Scenario2.externals Scenario2.links))
    as [_ Hfirst]; [settle ..|].
  apply (Hfirst (mkExternalToken 1%N 500%N "gh-token" "user:full" 1%N "alice-gh")
           [mkExternalToken 2%N 500%N "gh-old" "user" 1%N "alice-old"]);
    settle.
Defined.

Lemma RetrieveExternalToken_service_account_witness :
  RetrieveExternalToken Scenario2.linkEnv (Scenario2.linkExt true)
    "https://api.starter.example" (Some true) (initW Scenario2.links)
  = (Ok (Some (mkAppExternalToken "<unknown>" "sa-token" "Bearer"
                 "dsaas-renamed" "https://api.starter.example"), None, None),
     initW Scenario2.links).
Proof.
  rewrite (RetrieveExternalToken_service_account Scenario2.linkEnv
             (Scenario2.linkExt true) "https://api.starter.example" (Some true)
             (initW Scenario2.links) 77%N Scenario2.openshift Scenario2.cluster);
    settle.
Defined.
